(** * Random Knowledge Explorer (src/app.js): a shallow embedding

    The application is a browser script made of three classes:
    [AppState] (values persisted in [localStorage]), [WikipediaService]
    (calls to the Wikipedia REST and search endpoints) and [UIController]
    (the intent handlers).  This development embeds their data and their
    control flow and proves properties of the favourites collection, of the
    derived article fields, of the category fetch and of the error paths.

    Conventions.
    - A JavaScript string is the list of its UTF-16 code units ([jsstring]).
    - A JavaScript number is modelled by an exact integer of [Z]: page ids,
      word counts, reading times and visit counters are integers.  NaN is
      never a stored value; conversions that can produce NaN, an infinity or
      a fraction return [None].  A draw of [Math.random] is an exact
      rational of [0, 1), and its product with a count is taken exactly.
    - An intent (a click, a submitted search, a tick of the timer) is run to
      completion before the next one is handled: the interleavings of
      pending requests are not modelled.  Of the page, the model keeps what
      the specification observes: which of the three panels is shown, the
      last status notification and whether the favourites dialog is open.
    - What the browser provides and the script only calls ([JSON.parse],
      [JSON.stringify], [encodeURIComponent], [Array.prototype.sort],
      [Date]) is an interface, the class [Platform]; what the outside world
      decides during one intent (network responses, [Math.random] draws, the
      clock) is a record [World]. *)

From Stdlib Require Import ZArith QArith Qround Lia String Ascii Permutation DecimalString
  DecimalPos.
From stdpp Require Import base list gmap.

Local Open Scope Z_scope.

(** ** Strings *)

Module JsString.

Definition jsstring := list N.

(** A source-code string literal (ASCII) as code units. *)
Definition lit (s : string) : jsstring :=
  List.map N_of_ascii (list_ascii_of_string s).

(** ECMAScript WhiteSpace and LineTerminator code points: what [\s]
    matches in a regular expression and what [trim] strips. *)
Definition isWhiteSpace (c : N) : bool :=
  (  (9 <=? c) && (c <=? 13)            (* TAB LF VT FF CR *)
  || (c =? 32) || (c =? 160)            (* SP NBSP *)
  || (c =? 5760)                        (* U+1680 *)
  || ((8192 <=? c) && (c <=? 8202))     (* U+2000 .. U+200A *)
  || (c =? 8232) || (c =? 8233)         (* LS PS *)
  || (c =? 8239) || (c =? 8287)         (* U+202F U+205F *)
  || (c =? 12288) || (c =? 65279))%N.   (* U+3000 U+FEFF *)

Fixpoint trimStart (s : jsstring) : jsstring :=
  match s with
  | c :: rest => if isWhiteSpace c then trimStart rest else s
  | [] => []
  end.

Definition trimEnd (s : jsstring) : jsstring := rev (trimStart (rev s)).

(** [String.prototype.trim] *)
Definition trim (s : jsstring) : jsstring := trimEnd (trimStart s).

(** [text.split(/\s+/)]: the pieces between the maximal runs of white
    space.  [in_ws] records that the previous code unit belonged to the
    separator being consumed; [piece] is the piece read so far. *)
Fixpoint split_go (in_ws : bool) (piece : jsstring) (s : jsstring)
  : list jsstring :=
  match s with
  | [] => [piece]
  | c :: rest =>
      if isWhiteSpace c
      then if in_ws then split_go true piece rest
           else piece :: split_go true [] rest
      else split_go false (piece ++ [c]) rest
  end.

Definition split_ws (s : jsstring) : list jsstring := split_go false [] s.

(** The empty string. *)
Definition empty : jsstring := [].

(** The double quote, as a one-unit string. *)
Definition dquote : jsstring := [34%N].

Definition eqb (s t : jsstring) : bool := bool_decide (s = t).

(** A string is falsy exactly when it is empty. *)
Definition truthy (s : jsstring) : bool :=
  match s with [] => false | _ => true end.

(** The two halves of a surrogate pair. *)
Definition isLeadingSurrogate (c : N) : bool := ((55296 <=? c) && (c <=? 56319))%N.

Definition isTrailingSurrogate (c : N) : bool := ((56320 <=? c) && (c <=? 57343))%N.

(** [String.prototype.isWellFormed]: no surrogate stands alone. *)
Fixpoint isWellFormed (s : jsstring) : bool :=
  match s with
  | [] => true
  | c :: rest =>
      if isLeadingSurrogate c then
        match rest with
        | c' :: rest' => isTrailingSurrogate c' && isWellFormed rest'
        | [] => false
        end
      else if isTrailingSurrogate c then false
      else isWellFormed rest
  end.

End JsString.
Export JsString.

(** ** Primitive values, conversions and equality *)

Module Value.

(** The primitive values a [pageId] can hold.  (An array or an object as
    page id would be compared by reference; the Wikipedia [pageid] is a
    number and the model stops at primitives.) *)
Inductive value :=
| VUndefined
| VNull
| VBool (b : bool)
| VNumber (n : Z)
| VString (s : jsstring).

#[export] Instance value_eq_dec : EqDecision value.
Proof. solve_decision. Defined.

(** Value of a code unit as a digit in the given radix. *)
Definition digitValue (radix : Z) (c : N) : option Z :=
  let c := Z.of_N c in
  let v := if (48 <=? c) && (c <=? 57) then Some (c - 48)
           else if (97 <=? c) && (c <=? 122) then Some (c - 87)
           else if (65 <=? c) && (c <=? 90) then Some (c - 55)
           else None in
  match v with
  | Some d => if d <? radix then Some d else None
  | None => None
  end.

(** The value of [s] read as digits, [None] when some code unit is not a
    digit of the radix. *)
Fixpoint digits_value (radix acc : Z) (s : jsstring) : option Z :=
  match s with
  | [] => Some acc
  | c :: rest =>
      match digitValue radix c with
      | Some d => digits_value radix (acc * radix + d) rest
      | None => None
      end
  end.

(** The value of the longest prefix of digits, [None] when it is empty. *)
Fixpoint digits_prefix (radix : Z) (acc : option Z) (s : jsstring) : option Z :=
  match s with
  | [] => acc
  | c :: rest =>
      match digitValue radix c with
      | Some d =>
          digits_prefix radix
            (Some (match acc with Some a => a * radix + d | None => d end)) rest
      | None => acc
      end
  end.

Fixpoint span_digits (s : jsstring) : jsstring * jsstring :=
  match s with
  | [] => ([], [])
  | c :: rest =>
      match digitValue 10 c with
      | Some _ => let '(ds, tl) := span_digits rest in (c :: ds, tl)
      | None => ([], s)
      end
  end.

(** Splits an optional sign off: [(sign, rest)]. *)
Definition split_sign (s : jsstring) : Z * jsstring :=
  match s with
  | 45%N :: rest => (-1, rest)
  | 43%N :: rest => (1, rest)
  | _ => (1, s)
  end.

(** ExponentPart of a decimal literal ([None]: malformed). *)
Definition exponent_part (s : jsstring) : option Z :=
  match s with
  | [] => Some 0
  | c :: rest =>
      if ((c =? 101) || (c =? 69))%N then
        let '(sg, ds) := split_sign rest in
        match ds with
        | [] => None
        | _ => match digits_value 10 0 ds with
               | Some e => Some (sg * e)
               | None => None
               end
        end
      else None
  end.

(** StrUnsignedDecimalLiteral, when it denotes an integer. *)
Definition unsigned_decimal (s : jsstring) : option Z :=
  let '(ipart, rest1) := span_digits s in
  let '(fpart, rest2) :=
    match rest1 with
    | 46%N :: after_dot => span_digits after_dot
    | _ => ([], rest1)
    end in
  match ipart ++ fpart with
  | [] => None
  | mantissa =>
      match digits_value 10 0 mantissa, exponent_part rest2 with
      | Some m, Some e =>
          let k := Z.of_nat (length fpart) in
          if k <=? e then Some (m * 10 ^ (e - k))
          else if m mod 10 ^ (k - e) =? 0 then Some (m / 10 ^ (k - e))
          else None
      | _, _ => None
      end
  end.

(** StringToNumber of ECMAScript, on the integers: [Some n] when the string
    denotes the integer [n], [None] when it denotes NaN, an infinity or a
    fraction (none of which equals a modelled number). *)
Definition StringToNumber (s : jsstring) : option Z :=
  match trim s with
  | [] => Some 0
  | 48%N :: p :: ds =>
      if ((p =? 120) || (p =? 88))%N then
        match ds with [] => None | _ => digits_value 16 0 ds end
      else if ((p =? 111) || (p =? 79))%N then
        match ds with [] => None | _ => digits_value 8 0 ds end
      else if ((p =? 98) || (p =? 66))%N then
        match ds with [] => None | _ => digits_value 2 0 ds end
      else unsigned_decimal (48%N :: p :: ds)
  | t =>
      let '(sg, u) := split_sign t in
      match unsigned_decimal u with
      | Some n => Some (sg * n)
      | None => None
      end
  end.

(** [parseInt(string)] without a radix; [None] is NaN. *)
Definition parseInt (s : jsstring) : option Z :=
  let '(sg, u) := split_sign (trimStart s) in
  let '(radix, ds) :=
    match u with
    | 48%N :: p :: tl =>
        if ((p =? 120) || (p =? 88))%N then (16, tl) else (10, u)
    | _ => (10, u)
    end in
  match digits_prefix radix None ds with
  | Some n => Some (sg * n)
  | None => None
  end.

(** Number::toString for an integer (below 10^21, where JavaScript still
    prints every digit). *)
Definition NumberToString (n : Z) : jsstring :=
  lit (NilZero.string_of_int (Z.to_int n)).

Definition ToString (v : value) : jsstring :=
  match v with
  | VUndefined => lit "undefined"
  | VNull => lit "null"
  | VBool true => lit "true"
  | VBool false => lit "false"
  | VNumber n => NumberToString n
  | VString s => s
  end.

(** [x === y] (IsStrictlyEqual). *)
Definition strict_eq (x y : value) : bool :=
  match x, y with
  | VUndefined, VUndefined => true
  | VNull, VNull => true
  | VBool a, VBool b => Bool.eqb a b
  | VNumber a, VNumber b => a =? b
  | VString a, VString b => JsString.eqb a b
  | _, _ => false
  end.

(** A number compared loosely with any value. *)
Definition number_loose_eq (n : Z) (y : value) : bool :=
  match y with
  | VNumber m => n =? m
  | VString s => match StringToNumber s with
                 | Some m => n =? m
                 | None => false
                 end
  | VBool b => n =? Z.b2z b
  | VUndefined | VNull => false
  end.

(** A string compared loosely with a number: the string is converted. *)
Definition string_number_loose_eq (s : jsstring) (m : Z) : bool :=
  match StringToNumber s with
  | Some n => n =? m
  | None => false
  end.

(** [x == y] (IsLooselyEqual). *)
Definition loose_eq (x y : value) : bool :=
  match x, y with
  | VUndefined, (VUndefined | VNull) => true
  | VNull, (VUndefined | VNull) => true
  | VBool a, _ => number_loose_eq (Z.b2z a) y
  | VNumber a, _ => number_loose_eq a y
  | VString a, VString b => JsString.eqb a b
  | VString a, VNumber m => string_number_loose_eq a m
  | VString a, VBool b => string_number_loose_eq a (Z.b2z b)
  | _, _ => false
  end.

End Value.
Export Value.

(** ** JSON values and the browser interface *)

Module Json.

#[warnings="-register-all"]
Inductive json :=
| JNull
| JBool (b : bool)
| JNumber (n : Z)
| JString (s : jsstring)
| JArray (items : list json)
| JObject (fields : list (jsstring * json)).

(** ToBoolean on a parsed JSON value, as used by [x || fallback]. *)
Definition truthy (j : json) : bool :=
  match j with
  | JNull => false
  | JBool b => b
  | JNumber n => negb (n =? 0)
  | JString s => JsString.truthy s
  | JArray _ | JObject _ => true
  end.

(** A primitive as JSON; [undefined] has no JSON form (a property holding
    it is left out by [JSON.stringify]). *)
Definition of_value (v : value) : option json :=
  match v with
  | VUndefined => None
  | VNull => Some JNull
  | VBool b => Some (JBool b)
  | VNumber n => Some (JNumber n)
  | VString s => Some (JString s)
  end.

End Json.
Export Json.

(** What the script calls and the browser implements.  [JSON_parse] returns
    [None] when [JSON.parse] throws a SyntaxError; [encodeURIComponent]
    returns [None] when it throws a URIError, which it does exactly on the
    strings that hold a lone surrogate; [Date_valueOf x] is the
    time value of [new Date(x)], [None] for an invalid date (NaN);
    [Array_sort] is [Array.prototype.sort] with a comparator that may answer
    NaN ([None]): whatever the comparator, the result is a rearrangement of
    the array. *)
Class Platform := {
  JSON_parse : jsstring -> option json;
  JSON_parse_null : JSON_parse (lit "null") = Some JNull;
  JSON_stringify : json -> jsstring;
  encodeURIComponent : jsstring -> option jsstring;
  encodeURIComponent_URIError :
    forall s, encodeURIComponent s = None <-> isWellFormed s = false;
  Date_valueOf : option jsstring -> option Z;
  Array_sort : forall A : Type, (A -> A -> option Z) -> list A -> list A;
  Array_sort_perm : forall A cmp (l : list A), Permutation (Array_sort A cmp l) l
}.

(** ** CONFIG *)

Module CONFIG.

Definition WIKIPEDIA_API_BASE : jsstring := lit "https://en.wikipedia.org/api/rest_v1".
Definition WIKIPEDIA_SEARCH_API : jsstring := lit "https://en.wikipedia.org/w/api.php".

Module STORAGE_KEYS.
Definition FAVORITES : jsstring := lit "rke_favorites".
Definition THEME : jsstring := lit "rke_theme".
Definition LAST_ARTICLE : jsstring := lit "rke_lastArticle".
Definition AUTO_FETCH : jsstring := lit "rke_autoFetch".
Definition VISIT_COUNT : jsstring := lit "rke_visitCount".
End STORAGE_KEYS.

(** The own properties of the object literal [CONFIG.CATEGORIES]. *)
Definition CATEGORIES : list (jsstring * list jsstring) :=
  [ (lit "history",
      List.map lit ["history"; "historical"; "ancient"; "medieval"; "war"; "empire"; "civilization"]%string);
    (lit "science",
      List.map lit ["science"; "physics"; "chemistry"; "biology"; "research"; "discovery"; "theory"]%string);
    (lit "technology",
      List.map lit ["technology"; "computer"; "software"; "engineering"; "innovation"; "digital"]%string);
    (lit "art",
      List.map lit ["art"; "painting"; "sculpture"; "artist"; "museum"; "culture"; "creative"]%string);
    (lit "geography",
      List.map lit ["geography"; "country"; "city"; "mountain"; "river"; "continent"; "location"]%string) ].

Definition RATE_LIMIT_DELAY : Z := 1000.
Definition AUTO_FETCH_INTERVAL : Z := 30000.

End CONFIG.

(** ** Property access on [CONFIG.CATEGORIES] *)

Module Lookup.

(** What [CONFIG.CATEGORIES[key]] can evaluate to when it is not
    [undefined]: an own property (an array of keywords), or a property
    inherited from [Object.prototype] -- one of its methods, a function
    with its [length], or, for [__proto__], [Object.prototype] itself. *)
Inductive property :=
| PKeywords (keywords : list jsstring)
| PFunction (length : Z)
| PPrototype.

Fixpoint assoc {A : Type} (key : jsstring) (l : list (jsstring * A)) : option A :=
  match l with
  | [] => None
  | (k, v) :: rest => if JsString.eqb k key then Some v else assoc key rest
  end.

(** The properties of [Object.prototype] (ECMAScript 20.1.3 and B.2.2). *)
Definition Object_prototype : list (jsstring * property) :=
  [ (lit "constructor", PFunction 1);
    (lit "hasOwnProperty", PFunction 1);
    (lit "isPrototypeOf", PFunction 1);
    (lit "propertyIsEnumerable", PFunction 1);
    (lit "toLocaleString", PFunction 0);
    (lit "toString", PFunction 0);
    (lit "valueOf", PFunction 0);
    (lit "__proto__", PPrototype);
    (lit "__defineGetter__", PFunction 2);
    (lit "__defineSetter__", PFunction 2);
    (lit "__lookupGetter__", PFunction 1);
    (lit "__lookupSetter__", PFunction 1) ].

(** [CONFIG.CATEGORIES[key]]: own properties first, then the prototype;
    [None] is [undefined]. *)
Definition CATEGORIES_get (key : jsstring) : option property :=
  match assoc key CONFIG.CATEGORIES with
  | Some ks => Some (PKeywords ks)
  | None => assoc key Object_prototype
  end.

(** [keywords.length]; [None] is [undefined]. *)
Definition property_length (p : property) : option Z :=
  match p with
  | PKeywords ks => Some (Z.of_nat (length ks))
  | PFunction n => Some n
  | PPrototype => None
  end.

(** [keywords[index]], where the index is a number or NaN ([None]). *)
Definition property_index (p : property) (index : option Z) : value :=
  match p, index with
  | PKeywords ks, Some i =>
      if i <? 0 then VUndefined
      else match nth_error ks (Z.to_nat i) with
           | Some k => VString k
           | None => VUndefined
           end
  | _, _ => VUndefined
  end.

End Lookup.
Export Lookup.

(** ** Articles *)

Module Article.

(** The object built by [normalizeArticleData]; a favourite is the same
    object with [savedAt]. *)
Record Article := {
  title : jsstring;
  summary : jsstring;
  url : jsstring;
  image : option jsstring;          (* [None]: null *)
  imageAlt : jsstring;
  pageId : value;
  timestamp : jsstring;
  wordCount : Z;
  readingTime : Z;
  savedAt : option jsstring         (* [None]: no such property *)
}.

(** [{...article, savedAt: now}] *)
Definition with_savedAt (a : Article) (now : jsstring) : Article :=
  {| title := title a; summary := summary a; url := url a; image := image a;
     imageAlt := imageAlt a; pageId := pageId a; timestamp := timestamp a;
     wordCount := wordCount a; readingTime := readingTime a;
     savedAt := Some now |}.

(** The object as [JSON.stringify] sees it. *)
Definition to_json (a : Article) : json :=
  JObject
    ([ (lit "title", JString (title a));
       (lit "summary", JString (summary a));
       (lit "url", JString (url a));
       (lit "image", match image a with Some i => JString i | None => JNull end);
       (lit "imageAlt", JString (imageAlt a)) ]
     ++ match Json.of_value (pageId a) with
        | Some j => [ (lit "pageId", j) ]
        | None => []
        end
     ++ [ (lit "timestamp", JString (timestamp a));
          (lit "wordCount", JNumber (wordCount a));
          (lit "readingTime", JNumber (readingTime a)) ]
     ++ match savedAt a with
        | Some t => [ (lit "savedAt", JString t) ]
        | None => []
        end).

(** The summary object of the REST API, as far as the script reads it.
    [None] is an absent property. *)
Record RawSummary := {
  raw_title : option jsstring;
  raw_extract : option jsstring;
  raw_desktop_page : option jsstring;       (* content_urls?.desktop?.page *)
  raw_thumbnail_source : option jsstring;   (* thumbnail?.source *)
  raw_originalimage_source : option jsstring;
  raw_pageid : value
}.

(** One element of [data.query.search]. *)
Record SearchResult := { sr_title : jsstring }.

End Article.
Export Article.

(** ** AppState: the values persisted in localStorage *)

Module AppState.
Import CONFIG.

Section Storage.
Context `{Platform}.

(** [localStorage.getItem(key)] is [ls !! key], [None] being null. *)

(** The argument of [JSON.parse] after ToString. *)
Definition stored_text (item : option jsstring) : jsstring :=
  match item with
  | Some s => s
  | None => lit "null"
  end.

Definition loadFavorites (ls : gmap jsstring jsstring) : json :=
  match JSON_parse (stored_text (ls !! STORAGE_KEYS.FAVORITES)) with
  | Some j => if Json.truthy j then j else JArray []
  | None => JArray []
  end.

Definition saveFavorites (favorites : list Article) (ls : gmap jsstring jsstring)
  : gmap jsstring jsstring :=
  <[STORAGE_KEYS.FAVORITES := JSON_stringify (JArray (List.map Article.to_json favorites))]> ls.

Definition loadTheme (ls : gmap jsstring jsstring) : jsstring :=
  match ls !! STORAGE_KEYS.THEME with
  | Some s => if JsString.truthy s then s else lit "light"
  | None => lit "light"
  end.

Definition saveTheme (theme : jsstring) (ls : gmap jsstring jsstring)
  : gmap jsstring jsstring :=
  <[STORAGE_KEYS.THEME := theme]> ls.

Definition loadAutoFetch (ls : gmap jsstring jsstring) : bool :=
  match ls !! STORAGE_KEYS.AUTO_FETCH with
  | Some s => JsString.eqb s (lit "true")
  | None => false
  end.

Definition saveAutoFetch (enabled : bool) (ls : gmap jsstring jsstring)
  : gmap jsstring jsstring :=
  <[STORAGE_KEYS.AUTO_FETCH := ToString (VBool enabled)]> ls.

(** [parseInt(localStorage.getItem(VISIT_COUNT)) || 0] *)
Definition storedVisitCount (ls : gmap jsstring jsstring) : Z :=
  match parseInt (stored_text (ls !! STORAGE_KEYS.VISIT_COUNT)) with
  | Some n => n        (* 0 is falsy and replaced by 0 *)
  | None => 0
  end.

(** Returns the new count and the updated store. *)
Definition loadVisitCount (ls : gmap jsstring jsstring)
  : Z * gmap jsstring jsstring :=
  let count := storedVisitCount ls in
  let newCount := count + 1 in
  (newCount, <[STORAGE_KEYS.VISIT_COUNT := NumberToString newCount]> ls).

Definition saveLastArticle (currentArticle : option Article)
  (ls : gmap jsstring jsstring) : gmap jsstring jsstring :=
  match currentArticle with
  | Some a => <[STORAGE_KEYS.LAST_ARTICLE := JSON_stringify (Article.to_json a)]> ls
  | None => ls
  end.

Definition loadLastArticle (ls : gmap jsstring jsstring) : json :=
  match JSON_parse (stored_text (ls !! STORAGE_KEYS.LAST_ARTICLE)) with
  | Some j => j
  | None => JNull
  end.

End Storage.

End AppState.

(** ** The outside world and the effects of one intent *)

Module Effects.

(** How a call ends: with a value, or with a thrown [Error] of which the
    script only ever reads the message. *)
Inductive outcome (A : Type) :=
| Return (a : A)
| Throw (message : jsstring).
Arguments Return {A} a.
Arguments Throw {A} message.

(** A response of [fetch]: the promise rejects, or a response arrives with
    its [ok] flag and status, whose body [response.json()] parses (or
    rejects with a message). *)
Inductive Response (D : Type) :=
| Rejected (reason : jsstring)
| Replied (ok : bool) (status : Z) (body : outcome D).
Arguments Rejected {D} reason.
Arguments Replied {D} ok status body.

(** A value of [Math.random()]: a number in [0, 1). *)
Record unit_draw := {
  draw_value : Q;
  draw_range : Qle_bool 0 draw_value && negb (Qle_bool 1 draw_value) = true
}.

Inductive ShareResult := Shared | CopiedToClipboard | ShareFailed.

(** What the environment answers while one intent runs. *)
Record World := {
  Math_random : nat -> unit_draw;            (* the draws, in order *)
  net_random_summary : Response RawSummary;  (* GET /page/random/summary *)
  net_summary : jsstring -> Response RawSummary;  (* GET /page/summary/<encoded title> *)
  net_search : jsstring -> Z -> Response (option (list SearchResult));
                                             (* srsearch, srlimit; the body is data.query?.search *)
  clock : jsstring;                          (* new Date().toISOString() *)
  share_result : ShareResult
}.

(** The requests sent to the provider. *)
Inductive Request :=
| GetRandomSummary
| GetSummary (encodedTitle : jsstring)
| GetSearch (srsearch : jsstring) (srlimit : Z).

Record Effects := {
  draws : nat;                (* number of Math.random() calls so far *)
  requests : list Request     (* provider calls so far, oldest first *)
}.

Definition no_effects : Effects := {| draws := 0; requests := [] |}.

(** Computations that read the world, update a state and may throw; the
    state reached when an exception is thrown is kept, as in JavaScript. *)
Definition JS (S A : Type) : Type := World -> S -> outcome A * S.

Definition ret {S A} (a : A) : JS S A := fun _ s => (Return a, s).

Definition throw {S A} (message : jsstring) : JS S A := fun _ s => (Throw message, s).

Definition bind {S A B} (m : JS S A) (k : A -> JS S B) : JS S B :=
  fun w s =>
    match m w s with
    | (Return a, s') => k a w s'
    | (Throw e, s') => (Throw e, s')
    end.

(** [try { m } catch (error) { handler(error.message) }] *)
Definition try_catch {S A} (m : JS S A) (handler : jsstring -> JS S A) : JS S A :=
  fun w s =>
    match m w s with
    | (Return a, s') => (Return a, s')
    | (Throw e, s') => handler e w s'
    end.

(** A call that touches neither the world nor the state. *)
Definition completion {S A} (o : outcome A) : JS S A := fun _ s => (o, s).

Definition modify {S} (f : S -> S) : JS S unit := fun _ s => (Return tt, f s).

Definition gets {S A} (f : S -> A) : JS S A := fun _ s => (Return (f s), s).

Definition ask {S A} (f : World -> A) : JS S A := fun w s => (Return (f w), s).

Declare Scope js_scope.
Delimit Scope js_scope with js.
Notation "'let!' x := m 'in' k" := (bind m (fun x => k))
  (at level 10, x name, m at level 100, k at level 200, only parsing) : js_scope.

(** [Math.random()] *)
Definition random : JS Effects unit_draw :=
  fun w e => (Return (Math_random w (draws e)),
              {| draws := S (draws e); requests := requests e |}).

(** [Math.floor(r * n)], where [n] may be [undefined] (the product is then
    NaN, and so is the floor). *)
Definition floor_scaled (r : unit_draw) (n : option Z) : option Z :=
  match n with
  | Some n => Some (Qfloor (draw_value r * inject_Z n))
  | None => None
  end.

(** [await fetch(url)], the [response.ok] test and [await response.json()],
    the sequence that opens every service method. *)
Definition fetch_json {D} (req : Request) (resp : World -> Response D) : JS Effects D :=
  fun w e =>
    let e' := {| draws := draws e; requests := requests e ++ [req] |} in
    match resp w with
    | Rejected reason => (Throw reason, e')
    | Replied ok status body =>
        if ok then (body, e')
        else (Throw (lit "HTTP " ++ NumberToString status), e')
    end.

End Effects.
Export Effects.

(** ** WikipediaService *)

Module WikipediaService.
Local Open Scope js_scope.

Definition estimateWordCount (text : jsstring) : Z :=
  Z.of_nat (length (List.filter (fun word => (0 <? length word)%nat) (split_ws text))).

Definition estimateReadingTime (text : jsstring) : Z :=
  let wordsPerMinute := 200 in
  let words := estimateWordCount text in
  let minutes := Qceiling (inject_Z words / inject_Z wordsPerMinute) in
  minutes.

(** [o || fallback] for a string or undefined. *)
Definition or_else (o : option jsstring) (fallback : jsstring) : jsstring :=
  match o with
  | Some s => if JsString.truthy s then s else fallback
  | None => fallback
  end.

(** [o] kept only when truthy. *)
Definition truthy_string (o : option jsstring) : option jsstring :=
  match o with
  | Some s => if JsString.truthy s then Some s else None
  | None => None
  end.

Definition optional_string (o : option jsstring) : value :=
  match o with
  | Some s => VString s
  | None => VUndefined
  end.

Section Service.
Context `{Platform}.

(** A call of [encodeURIComponent], with the URIError it throws on a lone
    surrogate. *)
Definition encodeURIComponent_call (s : jsstring) : outcome jsstring :=
  match encodeURIComponent s with
  | Some encoded => Return encoded
  | None => Throw (lit "URI malformed")
  end.

(** [data.content_urls?.desktop?.page || `https://en.wikipedia.org/wiki/${
    encodeURIComponent(data.title)}`]: the title is encoded only when
    there is no page address. *)
Definition article_url (data : RawSummary) : outcome jsstring :=
  match truthy_string (raw_desktop_page data) with
  | Some page => Return page
  | None =>
      match encodeURIComponent_call (ToString (optional_string (raw_title data))) with
      | Return encoded => Return (lit "https://en.wikipedia.org/wiki/" ++ encoded)
      | Throw message => Throw message
      end
  end.

(** The object literal is built unless the encoding of the title throws. *)
Definition normalizeArticleData (data : RawSummary) (now : jsstring) : outcome Article :=
  match article_url data with
  | Throw message => Throw message
  | Return address =>
      Return
        {| title := or_else (raw_title data) (lit "Unknown Title");
           summary := or_else (raw_extract data) (lit "No summary available.");
           url := address;
           image := match truthy_string (raw_thumbnail_source data) with
                    | Some i => Some i
                    | None => truthy_string (raw_originalimage_source data)
                    end;
           imageAlt := lit "Image related to " ++ ToString (optional_string (raw_title data));
           pageId := raw_pageid data;
           timestamp := now;
           wordCount := estimateWordCount (or_else (raw_extract data) []);
           readingTime := estimateReadingTime (or_else (raw_extract data) []);
           savedAt := None |}
  end.

(** [try { body } catch (error) { console.error(..); throw new Error(message) }] *)
Definition rethrow_as {A} (message : jsstring) (body : JS Effects A) : JS Effects A :=
  try_catch body (fun _ => throw message).

Definition fetchRandomArticle : JS Effects Article :=
  rethrow_as (lit "Failed to fetch random article")
    (let! data := fetch_json GetRandomSummary net_random_summary in
     let! now := ask clock in
     completion (normalizeArticleData data now)).

Definition fetchArticleByTitle (title : jsstring) : JS Effects Article :=
  rethrow_as (lit "Failed to fetch article")
    (let! encodedTitle := completion (encodeURIComponent_call title) in
     let! data := fetch_json (GetSummary encodedTitle) (fun w => net_summary w encodedTitle) in
     let! now := ask clock in
     completion (normalizeArticleData data now)).

(** The query reaches the URL through [URLSearchParams], as a string. *)
Definition searchArticles (query : value) (limit : Z) : JS Effects (list SearchResult) :=
  rethrow_as (lit "Failed to search articles")
    (let srsearch := ToString query in
     let! data := fetch_json (GetSearch srsearch limit) (fun w => net_search w srsearch limit) in
     ret (match data with Some results => results | None => [] end)).

Definition fetchCategoryArticle (category : jsstring) : JS Effects Article :=
  rethrow_as (lit "Failed to fetch category article")
    (let keywords := match CATEGORIES_get category with
                     | Some p => p
                     | None => PKeywords [category]
                     end in
     let! r := random in
     let randomKeyword :=
       property_index keywords (floor_scaled r (property_length keywords)) in
     let! searchResults := searchArticles randomKeyword 20 in
     if (length searchResults =? 0)%nat
     then throw (lit "No articles found for this category")
     else
       let! r' := random in
       let index := Qfloor (draw_value r' * inject_Z (Z.min 5 (Z.of_nat (length searchResults)))) in
       match (if index <? 0 then None else nth_error searchResults (Z.to_nat index)) with
       | Some randomResult => fetchArticleByTitle (sr_title randomResult)
       | None => throw (lit "Cannot read properties of undefined (reading 'title')")
       end).

End Service.

End WikipediaService.

(** ** UIController *)

Module UIController.
Import CONFIG.
Local Open Scope js_scope.

Inductive Severity := SevInfo | SevError | SevWarning.

(** What the page shows: [showSkeleton], [displayArticle] and [showError]
    each set the skeleton, the article card and the error panel to one
    fixed combination, named here after the view it produces. *)
Inductive ViewState :=
| Loading
| Displaying
| Error (message : jsstring).

(** The fields of [AppState], the store behind it, and the part of the
    page the handlers write. *)
Record App := {
  currentArticle : option Article;
  favorites : list Article;
  theme : jsstring;
  isLoading : bool;
  autoFetchEnabled : bool;
  autoFetchTimer : bool;                   (* an interval timer is armed *)
  visitCount : Z;
  selectedCategory : option jsstring;      (* [None]: null *)
  localStorage : gmap jsstring jsstring;
  view : ViewState;
  status : option (jsstring * Severity);   (* last status notification *)
  favoritesModalVisible : bool
}.

Definition set_currentArticle (x : option Article) (a : App) : App :=
  {| currentArticle := x; favorites := favorites a; theme := theme a;
     isLoading := isLoading a; autoFetchEnabled := autoFetchEnabled a;
     autoFetchTimer := autoFetchTimer a; visitCount := visitCount a;
     selectedCategory := selectedCategory a; localStorage := localStorage a;
     view := view a; status := status a;
     favoritesModalVisible := favoritesModalVisible a |}.

Definition set_favorites (x : list Article) (a : App) : App :=
  {| currentArticle := currentArticle a; favorites := x; theme := theme a;
     isLoading := isLoading a; autoFetchEnabled := autoFetchEnabled a;
     autoFetchTimer := autoFetchTimer a; visitCount := visitCount a;
     selectedCategory := selectedCategory a; localStorage := localStorage a;
     view := view a; status := status a;
     favoritesModalVisible := favoritesModalVisible a |}.

Definition set_theme (x : jsstring) (a : App) : App :=
  {| currentArticle := currentArticle a; favorites := favorites a; theme := x;
     isLoading := isLoading a; autoFetchEnabled := autoFetchEnabled a;
     autoFetchTimer := autoFetchTimer a; visitCount := visitCount a;
     selectedCategory := selectedCategory a; localStorage := localStorage a;
     view := view a; status := status a;
     favoritesModalVisible := favoritesModalVisible a |}.

Definition set_autoFetchEnabled (x : bool) (a : App) : App :=
  {| currentArticle := currentArticle a; favorites := favorites a; theme := theme a;
     isLoading := isLoading a; autoFetchEnabled := x;
     autoFetchTimer := autoFetchTimer a; visitCount := visitCount a;
     selectedCategory := selectedCategory a; localStorage := localStorage a;
     view := view a; status := status a;
     favoritesModalVisible := favoritesModalVisible a |}.

Definition set_autoFetchTimer (x : bool) (a : App) : App :=
  {| currentArticle := currentArticle a; favorites := favorites a; theme := theme a;
     isLoading := isLoading a; autoFetchEnabled := autoFetchEnabled a;
     autoFetchTimer := x; visitCount := visitCount a;
     selectedCategory := selectedCategory a; localStorage := localStorage a;
     view := view a; status := status a;
     favoritesModalVisible := favoritesModalVisible a |}.

Definition set_selectedCategory (x : option jsstring) (a : App) : App :=
  {| currentArticle := currentArticle a; favorites := favorites a; theme := theme a;
     isLoading := isLoading a; autoFetchEnabled := autoFetchEnabled a;
     autoFetchTimer := autoFetchTimer a; visitCount := visitCount a;
     selectedCategory := x; localStorage := localStorage a;
     view := view a; status := status a;
     favoritesModalVisible := favoritesModalVisible a |}.

Definition set_localStorage (x : gmap jsstring jsstring) (a : App) : App :=
  {| currentArticle := currentArticle a; favorites := favorites a; theme := theme a;
     isLoading := isLoading a; autoFetchEnabled := autoFetchEnabled a;
     autoFetchTimer := autoFetchTimer a; visitCount := visitCount a;
     selectedCategory := selectedCategory a; localStorage := x;
     view := view a; status := status a;
     favoritesModalVisible := favoritesModalVisible a |}.

Definition set_view (x : ViewState) (a : App) : App :=
  {| currentArticle := currentArticle a; favorites := favorites a; theme := theme a;
     isLoading := isLoading a; autoFetchEnabled := autoFetchEnabled a;
     autoFetchTimer := autoFetchTimer a; visitCount := visitCount a;
     selectedCategory := selectedCategory a; localStorage := localStorage a;
     view := x; status := status a;
     favoritesModalVisible := favoritesModalVisible a |}.

Definition set_status (x : option (jsstring * Severity)) (a : App) : App :=
  {| currentArticle := currentArticle a; favorites := favorites a; theme := theme a;
     isLoading := isLoading a; autoFetchEnabled := autoFetchEnabled a;
     autoFetchTimer := autoFetchTimer a; visitCount := visitCount a;
     selectedCategory := selectedCategory a; localStorage := localStorage a;
     view := view a; status := x;
     favoritesModalVisible := favoritesModalVisible a |}.

Definition set_favoritesModalVisible (x : bool) (a : App) : App :=
  {| currentArticle := currentArticle a; favorites := favorites a; theme := theme a;
     isLoading := isLoading a; autoFetchEnabled := autoFetchEnabled a;
     autoFetchTimer := autoFetchTimer a; visitCount := visitCount a;
     selectedCategory := selectedCategory a; localStorage := localStorage a;
     view := view a; status := status a;
     favoritesModalVisible := x |}.

(** The state a handler runs on: the application and the effects of the
    service calls it has made. *)
Record Machine := { app : App; effects : Effects }.

Definition UI (A : Type) : Type := JS Machine A.

(** A service call made from a handler. *)
Definition call {A} (m : JS Effects A) : UI A :=
  fun w s =>
    let '(r, e) := m w (effects s) in
    (r, {| app := app s; effects := e |}).

Definition update (f : App -> App) : UI unit :=
  modify (fun s => {| app := f (app s); effects := effects s |}).

Definition read {A} (f : App -> A) : UI A := gets (fun s => f (app s)).

(** [favorites.findIndex(fav => fav.pageId === pageId)]; [None] is -1. *)
Fixpoint findIndex (pageId' : value) (favs : list Article) : option nat :=
  match favs with
  | [] => None
  | fav :: rest =>
      if strict_eq (pageId fav) pageId' then Some O
      else match findIndex pageId' rest with
           | Some i => Some (S i)
           | None => None
           end
  end.

(** [favorites.find(fav => fav.pageId == pageId)] *)
Fixpoint find_loose (pageId' : value) (favs : list Article) : option Article :=
  match favs with
  | [] => None
  | fav :: rest =>
      if loose_eq (pageId fav) pageId' then Some fav else find_loose pageId' rest
  end.

Section Handlers.
Context `{Platform}.

Definition showStatus (message : jsstring) (type : Severity) : App -> App :=
  set_status (Some (message, type)).

Definition showSkeleton : App -> App := set_view Loading.

Definition showError (message : jsstring) : App -> App := set_view (Error message).

Definition saveFavorites (a : App) : App :=
  set_localStorage (AppState.saveFavorites (favorites a) (localStorage a)) a.

Definition saveLastArticle (a : App) : App :=
  set_localStorage (AppState.saveLastArticle (currentArticle a) (localStorage a)) a.

Definition toggleTheme (a : App) : App :=
  let a := set_theme (if JsString.eqb (theme a) (lit "light")
                      then lit "dark" else lit "light") a in
  let a := set_localStorage (AppState.saveTheme (theme a) (localStorage a)) a in
  showStatus (lit "Switched to " ++ theme a ++ lit " theme") SevInfo a.

Definition clearCategorySelection : App -> App := set_selectedCategory None.

Definition displayArticle (article : Article) (a : App) : App :=
  let a := set_currentArticle (Some article) a in
  let a := saveLastArticle a in
  set_view Displaying a.

(** [input] is the content of the search field. *)
Definition handleSearch (input : jsstring) : UI unit :=
  let query := trim input in
  if negb (JsString.truthy query) then ret tt
  else
    try_catch
      (let! _ := update clearCategorySelection in
       let! _ := update showSkeleton in
       let! _ := update (showStatus (lit "Searching Wikipedia...") SevInfo) in
       let! searchResults := call (WikipediaService.searchArticles (VString query) 1) in
       match searchResults with
       | [] => throw (lit "No results found")
       | first :: _ =>
           let! article := call (WikipediaService.fetchArticleByTitle (sr_title first)) in
           let! _ := update (displayArticle article) in
           update (showStatus (lit "Found article: " ++ dquote ++ title article ++ dquote) SevInfo)
       end)
      (fun message =>
         let! _ := update (showError message) in
         update (showStatus (lit "Search failed - try another term") SevError)).

(** The [active] mark set on the clicked button is not part of the state. *)
Definition handleCategoryClick (category : jsstring) : UI unit :=
  try_catch
    (let! _ := update (set_selectedCategory (Some category)) in
     let! _ := update showSkeleton in
     let! _ := update (showStatus (lit "Searching " ++ category ++ lit " articles...") SevInfo) in
     let! article := call (WikipediaService.fetchCategoryArticle category) in
     let! _ := update (displayArticle article) in
     update (showStatus (lit "Found " ++ category ++ lit " article: " ++ dquote
                         ++ title article ++ dquote) SevInfo))
    (fun message =>
       let! _ := update (showError message) in
       update (showStatus (lit "Failed to load " ++ category ++ lit " article") SevError)).

(** [if (this.state.selectedCategory)]: neither null nor empty. *)
Definition category_selected (a : App) : option jsstring :=
  match selectedCategory a with
  | Some c => if JsString.truthy c then Some c else None
  | None => None
  end.

Definition fetchRandomArticle : UI unit :=
  try_catch
    (let! _ := update showSkeleton in
     let! selected := read category_selected in
     let! article :=
       match selected with
       | Some category =>
           let! _ := update (showStatus (lit "Fetching another " ++ category
                                         ++ lit " article...") SevInfo) in
           let! article := call (WikipediaService.fetchCategoryArticle category) in
           let! _ := update (showStatus (lit "Found another " ++ category
                                         ++ lit " article: " ++ dquote ++ title article
                                         ++ dquote) SevInfo) in
           ret article
       | None =>
           let! _ := update (showStatus (lit "Fetching random article...") SevInfo) in
           let! article := call WikipediaService.fetchRandomArticle in
           let! _ := update (showStatus (lit "Fetched random article from Wikipedia") SevInfo) in
           ret article
       end in
     update (displayArticle article))
    (fun message =>
       let! _ := update (showError message) in
       update (showStatus (lit "Failed to fetch article") SevError)).

(** [now] is [new Date().toISOString()]. *)
Definition toggleFavorite (now : jsstring) (a : App) : App :=
  match currentArticle a with
  | None => a
  | Some current =>
      let a :=
        match findIndex (pageId current) (favorites a) with
        | Some existingIndex =>
            showStatus (lit "Removed from favorites") SevInfo
              (set_favorites (delete existingIndex (favorites a)) a)
        | None =>
            showStatus (lit "Added to favorites") SevInfo
              (set_favorites (favorites a ++ [with_savedAt current now]) a)
        end in
      saveFavorites a
  end.

Definition shareArticle (result : ShareResult) (a : App) : App :=
  match currentArticle a with
  | None => a
  | Some _ =>
      match result with
      | Shared => showStatus (lit "Article shared successfully") SevInfo a
      | CopiedToClipboard => showStatus (lit "Article link copied to clipboard") SevInfo a
      | ShareFailed => showStatus (lit "Failed to share article") SevError a
      end
  end.

Definition closeFavoritesModal : App -> App := set_favoritesModalVisible false.

(** [new Date(b.savedAt) - new Date(a.savedAt)] *)
Definition bySavedAt (a b : Article) : option Z :=
  match Date_valueOf (savedAt b), Date_valueOf (savedAt a) with
  | Some tb, Some ta => Some (tb - ta)
  | _, _ => None
  end.

(** Of [renderFavoritesList], what reaches the state: the favourites are
    sorted in place. *)
Definition renderFavoritesList (a : App) : App :=
  match favorites a with
  | [] => a
  | _ => set_favorites (Array_sort Article bySavedAt (favorites a)) a
  end.

Definition toggleFavoritesModal (a : App) : App :=
  let a := set_favoritesModalVisible (negb (favoritesModalVisible a)) a in
  let a := renderFavoritesList a in
  if favoritesModalVisible a then a else closeFavoritesModal a.

Definition openFavorite (pageId' : value) (a : App) : App :=
  match find_loose pageId' (favorites a) with
  | Some article =>
      let a := displayArticle article a in
      let a := closeFavoritesModal a in
      showStatus (lit "Opened: " ++ dquote ++ title article ++ dquote) SevInfo a
  | None => a
  end.

Definition removeFavorite (pageId' : value) (a : App) : App :=
  let a := set_favorites
             (List.filter (fun fav => negb (loose_eq (pageId fav) pageId')) (favorites a)) a in
  let a := saveFavorites a in
  let a := renderFavoritesList a in
  showStatus (lit "Removed from favorites") SevInfo a.

Definition stopAutoFetch (a : App) : App :=
  if autoFetchTimer a then set_autoFetchTimer false a else a.

Definition startAutoFetch (a : App) : App :=
  set_autoFetchTimer true (stopAutoFetch a).

Definition toggleAutoFetch (a : App) : App :=
  let a := set_autoFetchEnabled (negb (autoFetchEnabled a)) a in
  let a := set_localStorage (AppState.saveAutoFetch (autoFetchEnabled a) (localStorage a)) a in
  if autoFetchEnabled a
  then showStatus (lit "Auto-fetch enabled - new articles every 30 seconds") SevInfo
         (startAutoFetch a)
  else showStatus (lit "Auto-fetch disabled") SevInfo (stopAutoFetch a).

(** The callback of the interval timer. *)
Definition autoFetchTick : UI unit :=
  let! armed := read autoFetchTimer in
  let! busy := read isLoading in
  if armed && negb busy then fetchRandomArticle else ret tt.

(** *** Intents *)

(** The events the page binds to handlers ([bindEvents], the inline
    [onclick] attributes of the favourites list, and the timer). *)
Inductive Intent :=
| ThemeToggleClick
| LogoClick
| SearchSubmit (input : jsstring)
| CategoryClick (category : jsstring)
| NextClick                 (* also the retry button, Ctrl+N and Space *)
| FavoriteClick
| ShareClick
| FavoritesToggleClick
| ModalCloseClick
| OpenFavoriteClick (pageId : value)
| RemoveFavoriteClick (pageId : value)
| AutoFetchToggleClick
| AutoFetchTimerTick.

Definition dispatch (i : Intent) : UI unit :=
  match i with
  | ThemeToggleClick => update toggleTheme
  | LogoClick =>
      let! _ := update clearCategorySelection in
      update (showStatus (lit "Switched to random mode") SevInfo)
  | SearchSubmit input => handleSearch input
  | CategoryClick category => handleCategoryClick category
  | NextClick => fetchRandomArticle
  | FavoriteClick =>
      let! now := ask clock in
      update (toggleFavorite now)
  | ShareClick =>
      let! result := ask share_result in
      update (shareArticle result)
  | FavoritesToggleClick => update toggleFavoritesModal
  | ModalCloseClick => update closeFavoritesModal
  | OpenFavoriteClick pageId => update (openFavorite pageId)
  | RemoveFavoriteClick pageId => update (removeFavorite pageId)
  | AutoFetchToggleClick => update toggleAutoFetch
  | AutoFetchTimerTick => autoFetchTick
  end.

(** One intent, run to completion in world [w]: the application
    afterwards and the provider requests it sent. *)
Definition step (w : World) (i : Intent) (a : App) : App * list Request :=
  let '(_, s) := dispatch i w {| app := a; effects := no_effects |} in
  (app s, requests (effects s)).

(** A session: intents handled one after the other, each in the world of
    its time. *)
Fixpoint run (script : list (World * Intent)) (a : App) : App :=
  match script with
  | [] => a
  | (w, i) :: rest => run rest (fst (step w i a))
  end.

End Handlers.

End UIController.

(** ** The rest of the page: derived displays, list buttons, start-up *)

Module Lifecycle.
Import UIController.
Local Open Scope js_scope.

(** What [updateFavoriteButton] computes for the favourite button:
    [favorites.some(fav => fav.pageId === currentArticle.pageId)]; without
    a current article it returns before touching the button ([None]). *)
Definition isFavorited (a : App) : option bool :=
  match currentArticle a with
  | None => None
  | Some current =>
      Some (existsb (fun fav => strict_eq (pageId fav) (pageId current)) (favorites a))
  end.

(** What [updateFavoritesCount] shows: the count, and whether the badge is
    visible. *)
Definition favoritesCount (a : App) : Z * bool :=
  let count := Z.of_nat (length (favorites a)) in
  (count, 0 <? count).

(** The argument that the buttons written by [renderFavoritesList] pass to
    [app.openFavorite] and [app.removeFavorite]: the page id spliced into
    the quoted text of the [onclick] attribute. *)
Definition button_argument (fav : Article) : value :=
  VString (ToString (pageId fav)).

(** The handler of [visibilitychange]; [hidden] is [document.hidden]. *)
Definition visibilityChange (hidden : bool) (a : App) : App :=
  if hidden then stopAutoFetch a
  else if autoFetchEnabled a then startAutoFetch a
  else a.

(** What reaches the running application: an intent, a change of the
    visibility of the page ([hidden] is [document.hidden] at that time),
    and [init]. *)
Inductive Event :=
| Handle (i : Intent)
| VisibilityChange (hidden : bool)
| Init.

Section Start.
Context `{Platform}.

(** [RandomKnowledgeExplorer.init], up to the service-worker probe, which
    only logs. *)
Definition init : UI unit :=
  let! _ := update clearCategorySelection in
  let! _ := fetchRandomArticle in
  let! enabled := read autoFetchEnabled in
  if enabled then update startAutoFetch else ret tt.

(** [init] run to completion. *)
Definition start (w : World) (a : App) : App * list Request :=
  let '(_, s) := init w {| app := a; effects := no_effects |} in
  (app s, requests (effects s)).

(** One event, run to completion in world [w]. *)
Definition react (w : World) (e : Event) (a : App) : App :=
  match e with
  | Handle i => fst (step w i a)
  | VisibilityChange hidden => visibilityChange hidden a
  | Init => fst (start w a)
  end.

(** A history of events, each in the world of its time. *)
Fixpoint play (history : list (World * Event)) (a : App) : App :=
  match history with
  | [] => a
  | (w, e) :: rest => play rest (react w e a)
  end.

End Start.

End Lifecycle.

(** * A reference platform

    An executable implementation of the browser interface, on which the
    handlers can be run: a JSON printer and parser, percent-encoding, the
    time value of ISO dates and a stable insertion sort. *)

Module Reference.

(** *** Array.prototype.sort *)

Section Sort.
Context {A : Type} (cmp : A -> A -> option Z).

(** [x] goes before the first element that must come after it; a NaN
    answer counts as 0, so that the sort is stable. *)
Fixpoint insert_sorted (x : A) (sorted : list A) : list A :=
  match sorted with
  | [] => [x]
  | y :: rest =>
      match cmp y x with
      | Some d => if 0 <? d then x :: y :: rest else y :: insert_sorted x rest
      | None => y :: insert_sorted x rest
      end
  end.

Definition insertion_sort (l : list A) : list A :=
  fold_left (fun sorted x => insert_sorted x sorted) l [].

Lemma insert_sorted_perm x sorted : Permutation (insert_sorted x sorted) (x :: sorted).
Proof.
  induction sorted as [|y rest IH]; simpl; [reflexivity|].
  destruct (cmp y x) as [d|]; [destruct (0 <? d)|]; try reflexivity;
    (etransitivity; [apply perm_skip, IH | apply perm_swap]).
Qed.

Lemma fold_insert_perm l : forall acc,
  Permutation (fold_left (fun sorted x => insert_sorted x sorted) l acc) (acc ++ l).
Proof.
  induction l as [|x l IH]; intros acc; simpl.
  - rewrite app_nil_r. reflexivity.
  - rewrite IH. rewrite insert_sorted_perm.
    change (x :: acc ++ l) with ((x :: acc) ++ l).
    rewrite (Permutation_middle acc l x). reflexivity.
Qed.

Lemma insertion_sort_perm l : Permutation (insertion_sort l) l.
Proof. unfold insertion_sort. apply (fold_insert_perm l []). Qed.

End Sort.

(** *** Date *)

(** Days since 1970-01-01 of a civil date. *)
Definition days_from_civil (y m d : Z) : Z :=
  let y' := if m <=? 2 then y - 1 else y in
  let era := y' / 400 in
  let yoe := y' - era * 400 in
  let mp := if 2 <? m then m - 3 else m + 9 in
  let doy := (153 * mp + 2) / 5 + d - 1 in
  let doe := yoe * 365 + yoe / 4 - yoe / 100 + doy in
  era * 146097 + doe - 719468.

(** Reads [n] decimal digits, then expects the separator [sep]. *)
Definition field (n : nat) (sep : option N) (s : jsstring) : option (Z * jsstring) :=
  let ds := take n s in
  if negb (length ds =? n)%nat then None
  else match digits_value 10 0 ds, sep, drop n s with
       | Some v, None, rest => Some (v, rest)
       | Some v, Some c, c' :: rest => if (c =? c')%N then Some (v, rest) else None
       | _, _, _ => None
       end.

(** The time value of a string in the format of [toISOString],
    YYYY-MM-DDTHH:mm:ss.sssZ. *)
Definition date_value (x : option jsstring) : option Z :=
  match x with
  | None => None
  | Some s =>
      '(y, s) ← field 4 (Some 45%N) s;
      '(mo, s) ← field 2 (Some 45%N) s;
      '(d, s) ← field 2 (Some 84%N) s;
      '(h, s) ← field 2 (Some 58%N) s;
      '(mi, s) ← field 2 (Some 58%N) s;
      '(sec, s) ← field 2 (Some 46%N) s;
      '(ms, s) ← field 3 (Some 90%N) s;
      match s with
      | [] =>
          if (1 <=? mo) && (mo <=? 12) && (1 <=? d) && (d <=? 31)
             && (h <=? 23) && (mi <=? 59) && (sec <=? 59)
          then Some ((((days_from_civil y mo d * 24 + h) * 60 + mi) * 60 + sec) * 1000 + ms)
          else None
      | _ => None
      end
  end.

(** *** encodeURIComponent *)

Definition hex_digit (d : N) : N := (if d <? 10 then 48 + d else 55 + d)%N.

Definition percent (byte : N) : jsstring :=
  [37%N; hex_digit (byte / 16); hex_digit (byte mod 16)].

Definition utf8 (cp : N) : list N :=
  (if cp <? 128 then [cp]
   else if cp <? 2048 then [192 + cp / 64; 128 + cp mod 64]
   else if cp <? 65536 then [224 + cp / 4096; 128 + (cp / 64) mod 64; 128 + cp mod 64]
   else [240 + cp / 262144; 128 + (cp / 4096) mod 64; 128 + (cp / 64) mod 64; 128 + cp mod 64])%N.

(** A-Z a-z 0-9 - _ . ! ~ * ' ( ) *)
Definition unreserved (c : N) : bool :=
  (  ((65 <=? c) && (c <=? 90)) || ((97 <=? c) && (c <=? 122))
  || ((48 <=? c) && (c <=? 57))
  || (c =? 45) || (c =? 95) || (c =? 46) || (c =? 33) || (c =? 126)
  || (c =? 42) || (c =? 39) || (c =? 40) || (c =? 41))%N.

(** The encoded string put before the encoding of the rest. *)
Definition followed_by (encoded : jsstring) (rest : option jsstring) : option jsstring :=
  match rest with
  | Some r => Some (encoded ++ r)
  | None => None
  end.

(** Surrogate pairs are decoded; on a lone surrogate there is no result
    (JavaScript throws a URIError). *)
Fixpoint encode_uri (s : jsstring) : option jsstring :=
  match s with
  | [] => Some []
  | c :: rest =>
      if isLeadingSurrogate c then
        match rest with
        | c' :: rest' =>
            if isTrailingSurrogate c'
            then followed_by
                   (concat (List.map percent
                              (utf8 (65536 + (c - 55296) * 1024 + (c' - 56320))%N)))
                   (encode_uri rest')
            else None
        | [] => None
        end
      else if isTrailingSurrogate c then None
      else if unreserved c then followed_by [c] (encode_uri rest)
      else followed_by (concat (List.map percent (utf8 c))) (encode_uri rest)
  end.

Lemma followed_by_None encoded rest : followed_by encoded rest = None <-> rest = None.
Proof. destruct rest; cbn; split; congruence. Qed.

Lemma encode_uri_URIError s : encode_uri s = None <-> isWellFormed s = false.
Proof.
  assert (forall s, (encode_uri s = None <-> isWellFormed s = false)
                    /\ forall c, encode_uri (c :: s) = None <-> isWellFormed (c :: s) = false)
    as Hboth; [|apply Hboth].
  clear s. induction s as [|c' s [IH IHc]].
  - split; [cbn; split; discriminate|].
    intros c. cbn.
    destruct (isLeadingSurrogate c); [split; reflexivity|].
    destruct (isTrailingSurrogate c); [split; reflexivity|].
    destruct (unreserved c); cbn; split; discriminate.
  - split; [apply IHc|].
    intros c. cbn [encode_uri isWellFormed].
    destruct (isLeadingSurrogate c).
    + destruct (isTrailingSurrogate c'); cbn [andb]; [|split; reflexivity].
      rewrite followed_by_None. exact IH.
    + destruct (isTrailingSurrogate c); [split; reflexivity|].
      destruct (unreserved c); rewrite followed_by_None; exact (IHc c').
Qed.

(** *** JSON.stringify *)

Definition hex_lower (d : N) : N := (if d <? 10 then 48 + d else 87 + d)%N.

Definition quote_unit (c : N) : jsstring :=
  (if c =? 34 then [92; 34]            (* backslash, quote *)
   else if c =? 92 then [92; 92]
   else if c =? 8 then [92; 98]         (* b *)
   else if c =? 12 then [92; 102]       (* f *)
   else if c =? 10 then [92; 110]       (* n *)
   else if c =? 13 then [92; 114]       (* r *)
   else if c =? 9 then [92; 116]        (* t *)
   else if c <? 32 then [92; 117; 48; 48; hex_lower (c / 16); hex_lower (c mod 16)]
   else [c])%N.

Definition quote (s : jsstring) : jsstring :=
  dquote ++ concat (List.map quote_unit s) ++ dquote.

Fixpoint join (sep : jsstring) (parts : list jsstring) : jsstring :=
  match parts with
  | [] => []
  | [x] => x
  | x :: rest => x ++ sep ++ join sep rest
  end.

Fixpoint stringify (j : json) : jsstring :=
  match j with
  | JNull => lit "null"
  | JBool true => lit "true"
  | JBool false => lit "false"
  | JNumber n => NumberToString n
  | JString s => quote s
  | JArray items => lit "[" ++ join (lit ",") (List.map stringify items) ++ lit "]"
  | JObject fields =>
      lit "{"
      ++ join (lit ",")
           (List.map (fun kv => quote (fst kv) ++ lit ":" ++ stringify (snd kv)) fields)
      ++ lit "}"
  end.

(** *** JSON.parse *)

Fixpoint skip_ws (s : jsstring) : jsstring :=
  match s with
  | c :: rest =>
      if ((c =? 32) || (c =? 9) || (c =? 10) || (c =? 13))%N then skip_ws rest else s
  | [] => []
  end.

(** The characters of a string literal after its opening quote. *)
Fixpoint parse_chars (s : jsstring) : option (jsstring * jsstring) :=
  match s with
  | [] => None
  | 34%N :: rest => Some ([], rest)
  | 92%N :: 117%N :: a :: b :: c :: d :: rest =>
      match digits_value 16 0 [a; b; c; d], parse_chars rest with
      | Some u, Some (str, tl) => Some (Z.to_N u :: str, tl)
      | _, _ => None
      end
  | 92%N :: e :: rest =>
      let unit :=
        (if e =? 34 then Some 34 else if e =? 92 then Some 92
         else if e =? 47 then Some 47 else if e =? 98 then Some 8
         else if e =? 102 then Some 12 else if e =? 110 then Some 10
         else if e =? 114 then Some 13 else if e =? 116 then Some 9
         else None)%N in
      match unit, parse_chars rest with
      | Some u, Some (str, tl) => Some (u :: str, tl)
      | _, _ => None
      end
  | c :: rest =>
      if (c <? 32)%N then None
      else match parse_chars rest with
           | Some (str, tl) => Some (c :: str, tl)
           | None => None
           end
  end.

(** A JSON number that denotes an integer; a fraction has no counterpart
    in the integer model and is refused. *)
Definition parse_number (s : jsstring) : option (Z * jsstring) :=
  let '(sg, u) := match s with 45%N :: rest => (-1, rest) | _ => (1, s) end in
  let '(ipart, rest1) := span_digits u in
  let int_ok := match ipart with
                | [] => false
                | [_] => true
                | 48%N :: _ => false
                | _ => true
                end in
  let '(fpart, rest2, frac_ok) :=
    match rest1 with
    | 46%N :: after_dot =>
        let '(f, tl) := span_digits after_dot in (f, tl, negb (length f =? 0)%nat)
    | _ => ([], rest1, true)
    end in
  let '(e, rest3, exp_ok) :=
    match rest2 with
    | c :: after_e =>
        if ((c =? 101) || (c =? 69))%N then
          let '(esg, ds) := split_sign after_e in
          let '(edigits, tl) := span_digits ds in
          match digits_value 10 0 edigits with
          | Some v => (esg * v, tl, negb (length edigits =? 0)%nat)
          | None => (0, tl, false)
          end
        else (0, rest2, true)
    | [] => (0, rest2, true)
    end in
  if int_ok && frac_ok && exp_ok then
    match digits_value 10 0 (ipart ++ fpart) with
    | Some m =>
        let k := Z.of_nat (length fpart) in
        if k <=? e then Some (sg * (m * 10 ^ (e - k)), rest3)
        else if m mod 10 ^ (k - e) =? 0 then Some (sg * (m / 10 ^ (k - e)), rest3)
        else None
    | None => None
    end
  else None.

Inductive mode := MValue | MElements | MMembers.

(** Recursive descent; [MElements] and [MMembers] read the rest of an
    array or object after its opening bracket, up to the closing one. *)
Fixpoint parse (fuel : nat) (m : mode) (s : jsstring) : option (json * jsstring) :=
  match fuel with
  | O => None
  | S fuel =>
      let s := skip_ws s in
      match m with
      | MValue =>
          match s with
          | 110%N :: 117%N :: 108%N :: 108%N :: rest => Some (JNull, rest)
          | 116%N :: 114%N :: 117%N :: 101%N :: rest => Some (JBool true, rest)
          | 102%N :: 97%N :: 108%N :: 115%N :: 101%N :: rest => Some (JBool false, rest)
          | 34%N :: rest =>
              match parse_chars rest with
              | Some (str, tl) => Some (JString str, tl)
              | None => None
              end
          | 91%N :: rest =>
              match skip_ws rest with
              | 93%N :: tl => Some (JArray [], tl)
              | _ => parse fuel MElements rest
              end
          | 123%N :: rest =>
              match skip_ws rest with
              | 125%N :: tl => Some (JObject [], tl)
              | _ => parse fuel MMembers rest
              end
          | _ =>
              match parse_number s with
              | Some (n, tl) => Some (JNumber n, tl)
              | None => None
              end
          end
      | MElements =>
          match parse fuel MValue s with
          | Some (v, tl) =>
              match skip_ws tl with
              | 93%N :: tl' => Some (JArray [v], tl')
              | 44%N :: tl' =>
                  match parse fuel MElements tl' with
                  | Some (JArray vs, tl'') => Some (JArray (v :: vs), tl'')
                  | _ => None
                  end
              | _ => None
              end
          | None => None
          end
      | MMembers =>
          match s with
          | 34%N :: rest =>
              match parse_chars rest with
              | Some (key, tl) =>
                  match skip_ws tl with
                  | 58%N :: tl1 =>
                      match parse fuel MValue tl1 with
                      | Some (v, tl2) =>
                          match skip_ws tl2 with
                          | 125%N :: tl3 => Some (JObject [(key, v)], tl3)
                          | 44%N :: tl3 =>
                              match parse fuel MMembers tl3 with
                              | Some (JObject fs, tl4) => Some (JObject ((key, v) :: fs), tl4)
                              | _ => None
                              end
                          | _ => None
                          end
                      | None => None
                      end
                  | _ => None
                  end
              | None => None
              end
          | _ => None
          end
      end
  end.

Definition parse_json (s : jsstring) : option json :=
  match parse (2 * length s + 2) MValue s with
  | Some (j, rest) => match skip_ws rest with [] => Some j | _ => None end
  | None => None
  end.

Definition platform : Platform :=
  Build_Platform parse_json eq_refl stringify encode_uri encode_uri_URIError date_value
    (@insertion_sort) (@insertion_sort_perm).

End Reference.


(** * The specification's notions *)

Module Spec.
Import UIController WikipediaService.

(** The number of white-space-delimited non-empty tokens of a text, read
    off the text one code unit at a time: a token starts at every unit that
    is not white space and does not continue a token. *)
Fixpoint count_tokens (in_token : bool) (s : jsstring) : nat :=
  match s with
  | [] => O
  | c :: rest =>
      if isWhiteSpace c then count_tokens false rest
      else ((if in_token then 0 else 1) + count_tokens true rest)%nat
  end.

Definition token_count (s : jsstring) : nat := count_tokens false s.

(** A token: a non-empty run without white space; a separator: a run of
    white space. *)
Definition is_token (t : jsstring) : Prop :=
  t <> [] /\ Forall (fun c => isWhiteSpace c = false) t.

Definition is_blank (w : jsstring) : Prop :=
  Forall (fun c => isWhiteSpace c = true) w.

(** The text made of the tokens [ts], each preceded by a separator (the
    first separator may be empty), and of a closing run of white space. *)
Fixpoint layout (first : bool) (ts : list (jsstring * jsstring)) (closing : jsstring)
  : jsstring :=
  match ts with
  | [] => closing
  | (sep, t) :: rest => sep ++ t ++ layout false rest closing
  end.

Fixpoint well_laid (first : bool) (ts : list (jsstring * jsstring)) : Prop :=
  match ts with
  | [] => True
  | (sep, t) :: rest =>
      is_blank sep /\ (first = false -> sep <> []) /\ is_token t /\ well_laid false rest
  end.

(** Math.ceil(n / d) characterised on integers. *)
Definition is_ceiling (n d r : Z) : Prop := d * (r - 1) < n <= d * r.

(** ** What the properties speak of *)

(** No two favourites carry the same [pageId]. *)
Definition unique_pageIds (favs : list Article) : Prop :=
  List.NoDup (List.map pageId favs).

Definition count_pageId (pid : value) (favs : list Article) : nat :=
  count_occ value_eq_dec (List.map pageId favs) pid.

(** The first favourite whose page id is loosely equal to [pid]. *)
Definition first_loose_match (pid : value) (favs : list Article) (article : Article) : Prop :=
  exists before after,
    favs = before ++ article :: after
    /\ loose_eq (pageId article) pid = true
    /\ Forall (fun fav => loose_eq (pageId fav) pid = false) before.

(** The data of a response that arrived, was [ok] and parsed. *)
Definition response_data {D} (r : Response D) : option D :=
  match r with
  | Replied true _ (Return d) => Some d
  | _ => None
  end.

Definition sent (e : Effects) (req : Request) : Effects :=
  {| draws := draws e; requests := requests e ++ [req] |}.

(** The array [data.query?.search || []]. *)
Definition found_results (data : option (list SearchResult)) : list SearchResult :=
  match data with
  | Some results => results
  | None => []
  end.

(** The intents that neither call [clearCategorySelection] nor select an
    empty category. *)
Definition keeps_category (i : Intent) : bool :=
  match i with
  | LogoClick => false
  | SearchSubmit input => negb (JsString.truthy (trim input))
  | CategoryClick category => JsString.truthy category
  | _ => true
  end.

Definition selects_no_category (i : Intent) : bool :=
  match i with
  | CategoryClick _ => false
  | _ => true
  end.

(** An outcome as it leaves a service method: every error under the
    method's own message. *)
Definition masked {A} (message : jsstring) (o : outcome A) : outcome A :=
  match o with
  | Return x => Return x
  | Throw _ => Throw message
  end.

Section WithPlatform.
Context `{Platform}.

(** The fetch of the article of one title, every failure leaving under
    [failure]: when the title cannot be encoded nothing is sent; otherwise
    the summary request is sent and its data normalised. *)
Definition fetched_by_title (failure : jsstring) (name : jsstring) (w : World) (e : Effects)
  : outcome Article * Effects :=
  match encodeURIComponent name with
  | None => (Throw failure, e)
  | Some encoded =>
      (match response_data (net_summary w encoded) with
       | Some page => masked failure (normalizeArticleData page (clock w))
       | None => Throw failure
       end,
       sent e (GetSummary encoded))
  end.

(** What [fetchCategoryArticle] does once the keyword is chosen: the
    search with limit 20, the failure on an empty answer, the draw among
    the first five results and the fetch of the chosen title; every
    failure leaves under the same message. *)
Definition after_keyword (keyword : value) (w : World) : outcome Article * Effects :=
  let search := GetSearch (ToString keyword) 20 in
  match response_data (net_search w (ToString keyword) 20) with
  | None =>
      (Throw (lit "Failed to fetch category article"),
       {| draws := 1; requests := [search] |})
  | Some data =>
      let found := found_results data in
      match found with
      | [] => (Throw (lit "Failed to fetch category article"),
               {| draws := 1; requests := [search] |})
      | _ =>
          let index := Qfloor (draw_value (Math_random w 1)
                               * inject_Z (Z.min 5 (Z.of_nat (length found)))) in
          match nth_error found (Z.to_nat index) with
          | Some chosen =>
              fetched_by_title (lit "Failed to fetch category article") (sr_title chosen) w
                {| draws := 2; requests := [search] |}
          | None => (Throw (lit "Failed to fetch category article"),
                     {| draws := 2; requests := [search] |})
          end
      end
  end.

(** The provider call behind a "next" intent. *)
Definition next_provider_call (a : App) : JS Effects Article :=
  match category_selected a with
  | Some category => WikipediaService.fetchCategoryArticle category
  | None => WikipediaService.fetchRandomArticle
  end.

End WithPlatform.

End Spec.
Export Spec.

(** * Sample data *)

Module Sample.
Import UIController.

Definition half : unit_draw := {| draw_value := 1 # 2; draw_range := eq_refl |}.

Definition article (pid : value) (name : string) : Article :=
  {| title := lit name; summary := lit "A short summary.";
     url := lit "https://en.wikipedia.org/wiki/" ++ lit name;
     image := None; imageAlt := lit "Image related to " ++ lit name;
     pageId := pid; timestamp := lit "2024-01-01T00:00:00.000Z";
     wordCount := 3; readingTime := 1; savedAt := None |}.

Definition favorite (pid : value) (name saved : string) : Article :=
  with_savedAt (article pid name) (lit saved).

Definition raw (pid : Z) (name : string) (extract : option jsstring) : RawSummary :=
  {| raw_title := Some (lit name); raw_extract := extract;
     raw_desktop_page := None; raw_thumbnail_source := None;
     raw_originalimage_source := None; raw_pageid := VNumber pid |}.

(** A world in which every request is answered: every search finds the
    given titles and every title has a summary. *)
Definition online (titles : list string) : World :=
  {| Math_random := fun _ => half;
     net_random_summary :=
       Replied true 200 (Return (raw 1 "Random page" (Some (lit "Some random text."))));
     net_summary := fun _ =>
       Replied true 200 (Return (raw 2 "Found page" (Some (lit "Text of the page."))));
     net_search := fun _ _ =>
       Replied true 200
         (Return (Some (List.map (fun t => {| sr_title := lit t |}) titles)));
     clock := lit "2024-06-01T12:00:00.000Z";
     share_result := CopiedToClipboard |}.

(** A world in which the network is down. *)
Definition offline : World :=
  {| Math_random := fun _ => half;
     net_random_summary := Rejected (lit "Failed to fetch");
     net_summary := fun _ => Rejected (lit "Failed to fetch");
     net_search := fun _ _ => Rejected (lit "Failed to fetch");
     clock := lit "2024-06-01T12:00:00.000Z";
     share_result := ShareFailed |}.

(** The application showing [current], with the given favourites. *)
Definition app_with (current : option Article) (favs : list Article) : App :=
  {| currentArticle := current; favorites := favs; theme := lit "light";
     isLoading := false; autoFetchEnabled := false; autoFetchTimer := false;
     visitCount := 1; selectedCategory := None; localStorage := ∅;
     view := match current with Some _ => Displaying | None => Loading end;
     status := None; favoritesModalVisible := false |}.


Definition seven : Article := article (VNumber 7) "Seven".

(** Two stored favourites with distinct page ids, one article shown. *)
Definition two_favorites : App :=
  app_with (Some seven)
    [ favorite (VNumber 7) "Seven" "2024-01-01T00:00:00.000Z";
      favorite (VNumber 123) "Other" "2024-02-01T00:00:00.000Z" ].

(** The same page stored twice, as a store written by hand can hold it. *)
Definition doubled_favorite : App :=
  app_with (Some seven)
    [ favorite (VNumber 7) "Seven" "2024-01-01T00:00:00.000Z";
      favorite (VNumber 7) "Seven" "2024-02-01T00:00:00.000Z" ].

Definition twenty_titles : list string :=
  [ "T01"; "T02"; "T03"; "T04"; "T05"; "T06"; "T07"; "T08"; "T09"; "T10";
    "T11"; "T12"; "T13"; "T14"; "T15"; "T16"; "T17"; "T18"; "T19"; "T20" ]%string.

Definition session : list (World * Intent) :=
  [ (online twenty_titles, FavoriteClick);
    (online twenty_titles, RemoveFavoriteClick (VString (lit "123")));
    (online twenty_titles, NextClick);
    (online twenty_titles, FavoriteClick);
    (online twenty_titles, FavoritesToggleClick);
    (online twenty_titles, FavoriteClick) ].

Definition history_keywords : list jsstring :=
  List.map lit ["history"; "historical"; "ancient"; "medieval"; "war"; "empire"; "civilization"]%string.

Definition browsing : list (World * Intent) :=
  [ (online twenty_titles, FavoriteClick);
    (offline, NextClick);
    (online twenty_titles, SearchSubmit (lit "  "));
    (online twenty_titles, ThemeToggleClick) ].

End Sample.

(** * What the further properties speak of *)

Module Observe.
Import UIController CONFIG.

(** The item stored under [key]. *)
Definition stored (key : jsstring) (a : App) : option jsstring :=
  localStorage a !! key.

(** The four keys the handlers write. *)
Definition session_keys : list jsstring :=
  [ STORAGE_KEYS.FAVORITES; STORAGE_KEYS.THEME; STORAGE_KEYS.LAST_ARTICLE;
    STORAGE_KEYS.AUTO_FETCH ].

(** The keys an intent can write: those of the handlers it reaches. *)
Definition may_write (i : Intent) : list jsstring :=
  match i with
  | ThemeToggleClick => [STORAGE_KEYS.THEME]
  | AutoFetchToggleClick => [STORAGE_KEYS.AUTO_FETCH]
  | FavoriteClick | RemoveFavoriteClick _ => [STORAGE_KEYS.FAVORITES]
  | SearchSubmit _ | CategoryClick _ | NextClick | AutoFetchTimerTick
  | OpenFavoriteClick _ => [STORAGE_KEYS.LAST_ARTICLE]
  | LogoClick | ShareClick | FavoritesToggleClick | ModalCloseClick => []
  end.

(** The intents that can change the list of favourites. *)
Definition touches_favorites (i : Intent) : bool :=
  match i with
  | FavoriteClick | RemoveFavoriteClick _ | FavoritesToggleClick => true
  | _ => false
  end.

Section WithPlatform.
Context `{Platform}.

(** The store lists the favourites of the application, possibly in another
    order. *)
Definition favorites_persisted (a : App) : Prop :=
  exists saved,
    stored STORAGE_KEYS.FAVORITES a
    = Some (JSON_stringify (JArray (List.map Article.to_json saved)))
    /\ Permutation saved (favorites a).

(** The article on display is the stored last article. *)
Definition last_article_stored (a : App) : Prop :=
  forall article,
    currentArticle a = Some article ->
    stored STORAGE_KEYS.LAST_ARTICLE a = Some (JSON_stringify (Article.to_json article)).

(** The application shows an article and holds it as the stored last
    article. *)
Definition shown_and_stored (a : App) : Prop :=
  exists article,
    currentArticle a = Some article
    /\ stored STORAGE_KEYS.LAST_ARTICLE a = Some (JSON_stringify (Article.to_json article))
    /\ view a = Displaying.

(** From [a] to [b] neither the article nor the stored last article
    changed, and the view stayed or became the error view. *)
Definition display_kept (a b : App) : Prop :=
  currentArticle b = currentArticle a
  /\ stored STORAGE_KEYS.LAST_ARTICLE b = stored STORAGE_KEYS.LAST_ARTICLE a
  /\ (view b = view a \/ exists message, view b = Error message).

(** The article of the application is the stored one, and the article
    view is not shown without an article. *)
Definition display_consistent (a : App) : Prop :=
  last_article_stored a /\ (view a = Displaying -> currentArticle a <> None).

End WithPlatform.

(** A search from [a] has failed with [message]: the error view shows it
    under the status of a failed search, and the article and the store are
    those of [a]. *)
Definition search_failed (a b : App) (message : jsstring) : Prop :=
  view b = Error message
  /\ status b = Some (lit "Search failed - try another term", SevError)
  /\ currentArticle b = currentArticle a
  /\ localStorage b = localStorage a.

(** The intents that can display an article. *)
Definition displays (i : Intent) : bool :=
  match i with
  | SearchSubmit _ | CategoryClick _ | NextClick | AutoFetchTimerTick
  | OpenFavoriteClick _ => true
  | _ => false
  end.

End Observe.
Export Observe.

(** * Properties *)

(** ** The model on concrete inputs *)

Section Examples.
Import UIController WikipediaService Sample.

Example split_ws_pieces :
  split_ws [] = [[]]
  /\ split_ws (lit " a  b ") = [[]; lit "a"; lit "b"; []]
  /\ split_ws (lit "one") = [lit "one"].
Proof. repeat split. Qed.

Example trim_strips_both_ends :
  trim (lit "  quantum physics ") = lit "quantum physics"
  /\ trim [9; 10; 160; 8232]%N = [].
Proof. split; reflexivity. Qed.

Example estimateWordCount_examples :
  estimateWordCount [] = 0
  /\ estimateWordCount (lit "  The quick  brown fox ") = 4
  /\ estimateReadingTime (lit "  The quick  brown fox ") = 1
  /\ estimateWordCount (concat (repeat (lit "word ") 200)) = 200
  /\ estimateReadingTime (concat (repeat (lit "word ") 200)) = 1
  /\ estimateReadingTime (concat (repeat (lit "word ") 201)) = 2.
Proof. vm_compute. repeat split. Qed.

Example StringToNumber_examples :
  List.map (fun s => StringToNumber (lit s))
    [ "123"; " 42 "; "-7"; "0x1F"; "1e2"; "12.50e1"; "1.5"; "abc"; "12px"; ".";
      "Infinity"; "+"; "0"; "00"; "1."; ".5e1"; "-0x10" ]%string
  = [ Some 123; Some 42; Some (-7); Some 31; Some 100; Some 125; None; None; None; None;
      None; None; Some 0; Some 0; Some 1; Some 5; None ]
  /\ StringToNumber [] = Some 0.
Proof. vm_compute. split; reflexivity. Qed.

Example parseInt_examples :
  List.map (fun s => parseInt (lit s)) ["12abc"; "  -3"; "null"; "0x1f"; "7"; "x7"]%string
  = [Some 12; Some (-3); None; Some 31; Some 7; None]
  /\ parseInt [] = None.
Proof. vm_compute. split; reflexivity. Qed.

Example ToString_examples :
  ToString (VNumber 123) = lit "123" /\ ToString (VNumber (-5)) = lit "-5"
  /\ ToString (VNumber 0) = lit "0" /\ ToString VUndefined = lit "undefined".
Proof. vm_compute. repeat split. Qed.

Example loose_eq_examples :
  loose_eq (VNumber 123) (VString (lit "123")) = true
  /\ loose_eq (VString (lit "123")) (VNumber 123) = true
  /\ loose_eq (VString (lit " 1 ")) (VNumber 1) = true
  /\ loose_eq VNull VUndefined = true
  /\ loose_eq VUndefined (VString (lit "undefined")) = false
  /\ loose_eq (VNumber 0) (VString []) = true
  /\ loose_eq (VBool true) (VString (lit "1")) = true
  /\ loose_eq (VNumber 0) VNull = false
  /\ loose_eq (VString (lit "abc")) (VString (lit "abc")) = true
  /\ loose_eq (VString (lit "1")) (VString (lit "01")) = false
  /\ strict_eq (VNumber 123) (VString (lit "123")) = false.
Proof. vm_compute. repeat split. Qed.

Example CATEGORIES_get_examples :
  CATEGORIES_get (lit "art")
  = Some (PKeywords (List.map lit ["art"; "painting"; "sculpture"; "artist"; "museum";
                                   "culture"; "creative"]%string))
  /\ CATEGORIES_get (lit "sports") = None
  /\ CATEGORIES_get [] = None
  /\ CATEGORIES_get (lit "constructor") = Some (PFunction 1)
  /\ CATEGORIES_get (lit "__proto__") = Some PPrototype.
Proof. vm_compute. repeat split. Qed.

Example reference_json_round_trip :
  Reference.parse_json (Reference.stringify (Article.to_json seven))
  = Some (Article.to_json seven)
  /\ Reference.parse_json (lit "[{broken") = None
  /\ Reference.parse_json (lit "null") = Some JNull
  /\ Reference.stringify (JArray [JNumber 1; JBool true; JNull]) = lit "[1,true,null]".
Proof. vm_compute. repeat split. Qed.

Example reference_date_and_uri :
  Reference.date_value (Some (lit "2024-01-01T00:00:00.000Z")) = Some 1704067200000
  /\ Reference.date_value (Some (lit "yesterday")) = None
  /\ Reference.encode_uri (lit "Albert Einstein") = Some (lit "Albert%20Einstein")
  /\ Reference.encode_uri [233; 8364]%N = Some (lit "%C3%A9%E2%82%AC")
  /\ Reference.encode_uri [55357; 56832]%N = Some (lit "%F0%9F%98%80")
  /\ Reference.encode_uri [55357]%N = None.
Proof. vm_compute. repeat split. Qed.

(** A first "next" intent without a category: one random-summary request,
    and the article is shown and stored as last article. *)
Example next_shows_random_article :
  let '(a, sent_requests) :=
    @step Reference.platform (online twenty_titles) NextClick (app_with None []) in
  sent_requests = [GetRandomSummary]
  /\ view a = Displaying
  /\ option_map title (currentArticle a) = Some (lit "Random page")
  /\ option_map wordCount (currentArticle a) = Some 3
  /\ is_Some (localStorage a !! CONFIG.STORAGE_KEYS.LAST_ARTICLE).
Proof. vm_compute. repeat split. eexists. reflexivity. Qed.

(** A category click in a world that answers twenty titles: the keyword is
    drawn from the category, the title from the first five results. *)
Example category_click_requests :
  snd (@step Reference.platform (online twenty_titles) (CategoryClick (lit "science"))
         (app_with None []))
  = [GetSearch (lit "biology") 20; GetSummary (lit "T03")].
Proof. vm_compute. reflexivity. Qed.

(** Page ids that are loosely but not strictly equal are different
    favourites: toggling an article with page id "123" beside a favourite
    with page id 123 adds a second entry. *)
Example toggle_adds_beside_loosely_equal :
  List.map pageId
    (favorites (@toggleFavorite Reference.platform (lit "2024-06-01T12:00:00.000Z")
                  (app_with (Some (article (VString (lit "123")) "Other"))
                     [favorite (VNumber 123) "Other" "2024-02-01T00:00:00.000Z"])))
  = [VNumber 123; VString (lit "123")].
Proof. vm_compute. reflexivity. Qed.

End Examples.

(** ** Word count and reading time *)

Section DerivedFields.
Import WikipediaService Spec.

Definition nonempty_pieces (l : list jsstring) : nat :=
  length (List.filter (fun word => (0 <? length word)%nat) l).

Lemma nonempty_pieces_cons piece l :
  nonempty_pieces (piece :: l)
  = ((if JsString.truthy piece then 1 else 0) + nonempty_pieces l)%nat.
Proof. unfold nonempty_pieces. destruct piece; reflexivity. Qed.

Lemma split_go_count s : forall in_ws piece,
  (in_ws = true -> piece = []) ->
  nonempty_pieces (split_go in_ws piece s)
  = ((if JsString.truthy piece then 1 else 0)
     + count_tokens (JsString.truthy piece) s)%nat.
Proof.
  induction s as [|c rest IH]; intros in_ws piece Hinv; cbn [split_go count_tokens].
  - rewrite nonempty_pieces_cons. unfold nonempty_pieces; simpl. lia.
  - destruct (isWhiteSpace c) eqn:Hc.
    + destruct in_ws.
      * rewrite (Hinv eq_refl). rewrite IH by reflexivity. reflexivity.
      * rewrite nonempty_pieces_cons, IH by reflexivity. simpl.
        destruct piece; simpl; lia.
    + rewrite IH by discriminate.
      assert (JsString.truthy (piece ++ [c]) = true) as -> by (destruct piece; reflexivity).
      destruct piece; simpl; lia.
Qed.

Lemma estimateWordCount_token_count text :
  estimateWordCount text = Z.of_nat (token_count text).
Proof.
  unfold estimateWordCount, split_ws, token_count.
  fold (nonempty_pieces (split_go false [] text)).
  rewrite split_go_count by discriminate. reflexivity.
Qed.

Lemma count_tokens_blank w b rest :
  is_blank w -> count_tokens b (w ++ rest) = count_tokens false rest
                \/ (w = [] /\ count_tokens b (w ++ rest) = count_tokens b rest).
Proof.
  intros Hw. destruct w as [|c w]; [right; auto|left].
  assert (forall w b, is_blank w -> w <> [] ->
                      count_tokens b (w ++ rest) = count_tokens false rest) as Hgen.
  { clear. induction w as [|c w IH]; intros b Hw Hne; [congruence|].
    inversion Hw as [|? ? Hc Hw']; subst. simpl. rewrite Hc.
    destruct w as [|c' w]; [reflexivity|]. apply IH; [assumption|discriminate]. }
  apply Hgen; [assumption|discriminate].
Qed.

Lemma count_tokens_token t rest :
  Forall (fun c => isWhiteSpace c = false) t ->
  count_tokens true (t ++ rest) = count_tokens true rest.
Proof.
  induction 1 as [|c t Hc _ IH]; simpl; [reflexivity|]. rewrite Hc. exact IH.
Qed.

(** [token_count] counts the tokens of any text laid out as tokens between
    runs of white space. *)
Lemma token_count_layout ts : forall closing,
  well_laid true ts -> is_blank closing ->
  token_count (layout true ts closing) = length ts.
Proof.
  unfold token_count.
  assert (forall ts first closing b,
            well_laid first ts -> is_blank closing -> (first = true -> b = false) ->
            count_tokens b (layout first ts closing) = length ts) as Hgen.
  { clear. induction ts as [|[sep t] rest IH]; intros first closing b Hts Hcl Hb; simpl.
    - destruct (count_tokens_blank closing b [] Hcl) as [E|[-> E]].
      + rewrite app_nil_r in E. rewrite E. reflexivity.
      + reflexivity.
    - destruct Hts as (Hsep & Hne & [Htne Ht] & Hrest).
      assert (count_tokens b (sep ++ t ++ layout false rest closing)
              = count_tokens false (t ++ layout false rest closing)) as ->.
      { destruct (count_tokens_blank sep b (t ++ layout false rest closing) Hsep)
          as [E|[-> E]]; [exact E|].
        simpl. destruct first; [rewrite Hb; reflexivity|]. exfalso. apply Hne; reflexivity. }
      destruct t as [|c t]; [congruence|].
      inversion Ht as [|? ? Hc Ht']; subst. simpl. rewrite Hc.
      rewrite count_tokens_token by assumption.
      f_equal. apply IH; try assumption. discriminate. }
  intros closing Hts Hcl. apply Hgen; auto.
Qed.

Lemma estimateReadingTime_div text :
  estimateReadingTime text = - (- estimateWordCount text / 200).
Proof.
  unfold estimateReadingTime, Qceiling, Qfloor. simpl.
  rewrite Z.mul_1_r. reflexivity.
Qed.

Lemma estimateReadingTime_ceiling text :
  is_ceiling (estimateWordCount text) 200 (estimateReadingTime text).
Proof.
  rewrite estimateReadingTime_div. unfold is_ceiling.
  pose proof (Z.div_mod (- estimateWordCount text) 200 ltac:(lia)).
  pose proof (Z.mod_pos_bound (- estimateWordCount text) 200 ltac:(lia)).
  lia.
Qed.

End DerivedFields.

(** ** Frame rules for handlers *)

Section Frames.
Context {T : Type} (proj : UIController.App -> T).
Import UIController.

(** The handler leaves the part [proj] of the application as it found it,
    whatever the world answers and however it ends. *)
Definition ui_preserves {A} (m : UI A) : Prop :=
  forall w s, proj (app (snd (m w s))) = proj (app s).

Definition preserves (f : App -> App) : Prop :=
  forall a, proj (f a) = proj a.

Lemma ui_preserves_ret {A} (x : A) : ui_preserves (ret x).
Proof. intros w s. reflexivity. Qed.

Lemma ui_preserves_throw {A} e : ui_preserves (@throw Machine A e).
Proof. intros w s. reflexivity. Qed.

Lemma ui_preserves_bind {A B} (m : UI A) (k : A -> UI B) :
  ui_preserves m -> (forall x, ui_preserves (k x)) -> ui_preserves (bind m k).
Proof.
  intros Hm Hk w s. unfold bind. specialize (Hm w s).
  destruct (m w s) as [[x|e] s']; simpl in *; [|exact Hm].
  rewrite Hk. exact Hm.
Qed.

Lemma ui_preserves_try_catch {A} (m : UI A) (h : jsstring -> UI A) :
  ui_preserves m -> (forall e, ui_preserves (h e)) -> ui_preserves (try_catch m h).
Proof.
  intros Hm Hh w s. unfold try_catch. specialize (Hm w s).
  destruct (m w s) as [[x|e] s']; simpl in *; [exact Hm|].
  rewrite Hh. exact Hm.
Qed.

Lemma ui_preserves_update f : preserves f -> ui_preserves (update f).
Proof. intros Hf w s. simpl. apply Hf. Qed.

Lemma ui_preserves_read {A} (f : App -> A) : ui_preserves (read f).
Proof. intros w s. reflexivity. Qed.

Lemma ui_preserves_ask {A} (f : World -> A) : ui_preserves (@ask Machine A f).
Proof. intros w s. reflexivity. Qed.

Lemma ui_preserves_call {A} (m : JS Effects A) : ui_preserves (call m).
Proof. intros w s. unfold call. destruct (m w (effects s)). reflexivity. Qed.

End Frames.

Create HintDb frame discriminated.
#[export] Hint Resolve ui_preserves_ret ui_preserves_throw ui_preserves_read
  ui_preserves_ask ui_preserves_call : frame.

(** Walks through a handler, leaving one goal per state update. *)
Ltac frame_step :=
  first
    [ apply ui_preserves_bind; [|intros ?]
    | apply ui_preserves_try_catch; [|intros ?]
    | apply ui_preserves_ret | apply ui_preserves_throw | apply ui_preserves_read
    | apply ui_preserves_ask | apply ui_preserves_call
    | apply ui_preserves_update
    | match goal with
      | |- ui_preserves _ (match ?x with _ => _ end) => destruct x
      | |- ui_preserves _ (if ?b then _ else _) => destruct b
      end ].

Ltac frame := repeat frame_step; try (intros ?; reflexivity).

(** ** Favourites *)

Section Favorites.
Context `{Platform}.
Import UIController.

Lemma strict_eq_true_iff x y : strict_eq x y = true <-> x = y.
Proof.
  destruct x as [| |a|a|a], y as [| |b|b|b]; simpl; try (split; congruence).
  - destruct a, b; simpl; split; congruence.
  - rewrite Z.eqb_eq. split; congruence.
  - unfold JsString.eqb. rewrite bool_decide_eq_true. split; congruence.
Qed.

Lemma strict_eq_refl x : strict_eq x x = true.
Proof. apply strict_eq_true_iff. reflexivity. Qed.

Lemma findIndex_Some pid favs : forall i,
  findIndex pid favs = Some i ->
  exists before fav after,
    favs = before ++ fav :: after /\ length before = i
    /\ pageId fav = pid /\ ~ In pid (List.map pageId before).
Proof.
  induction favs as [|fav rest IH]; intros i; simpl; [discriminate|].
  destruct (strict_eq (pageId fav) pid) eqn:E.
  - intros [= <-]. exists [], fav, rest. apply strict_eq_true_iff in E. auto.
  - destruct (findIndex pid rest) as [j|]; [|discriminate].
    intros [= <-]. destruct (IH j eq_refl) as (before & fav' & after & -> & Hlen & Hid & Hnot).
    exists (fav :: before), fav', after. simpl. repeat split; auto.
    intros [Heq|Hin]; [|auto].
    apply strict_eq_true_iff in Heq. congruence.
Qed.

Lemma In_pageId_dec (pid : value) (favs : list Article) :
  {In pid (List.map pageId favs)} + {~ In pid (List.map pageId favs)}.
Proof. apply in_dec. apply value_eq_dec. Qed.

Lemma findIndex_None pid favs :
  findIndex pid favs = None <-> ~ In pid (List.map pageId favs).
Proof.
  induction favs as [|fav rest IH]; simpl; [tauto|].
  destruct (strict_eq (pageId fav) pid) eqn:E.
  - apply strict_eq_true_iff in E. split; [discriminate|tauto].
  - assert (pageId fav <> pid) by (intros Heq; apply strict_eq_true_iff in Heq; congruence).
    destruct (findIndex pid rest) as [j|].
    + split; [discriminate|]. intros Hnot. exfalso. apply Hnot. right.
      destruct (In_pageId_dec pid rest) as [Hin|Hnin]; [exact Hin|].
      destruct IH as [_ IH]. discriminate (IH Hnin).
    + split; [|reflexivity]. intros _ [Heq|Hin]; [contradiction|].
      destruct IH as [IH _]. exact (IH eq_refl Hin).
Qed.

Lemma delete_at_length {A} (before after : list A) x :
  delete (length before) (before ++ x :: after) = before ++ after.
Proof. induction before as [|y before IH]; simpl; [reflexivity|]. f_equal. exact IH. Qed.

(** The favourites after [toggleFavorite]. *)
Lemma toggleFavorite_favorites now a current :
  currentArticle a = Some current ->
  (exists before fav after,
      favorites a = before ++ fav :: after /\ pageId fav = pageId current
      /\ ~ In (pageId current) (List.map pageId before)
      /\ favorites (toggleFavorite now a) = before ++ after)
  \/ (~ In (pageId current) (List.map pageId (favorites a))
      /\ favorites (toggleFavorite now a) = favorites a ++ [with_savedAt current now]).
Proof.
  intros Hcur. unfold toggleFavorite. rewrite Hcur.
  destruct (findIndex (pageId current) (favorites a)) as [i|] eqn:E.
  - left. destruct (findIndex_Some _ _ _ E) as (before & fav & after & Hfavs & Hlen & Hid & Hnot).
    exists before, fav, after. repeat split; auto.
    simpl. rewrite Hfavs, <- Hlen. apply delete_at_length.
  - right. apply findIndex_None in E. split; [exact E|reflexivity].
Qed.

Lemma toggleFavorite_no_article now a :
  currentArticle a = None -> toggleFavorite now a = a.
Proof. intros Hcur. unfold toggleFavorite. rewrite Hcur. reflexivity. Qed.

Lemma toggleFavorite_currentArticle now a :
  currentArticle (toggleFavorite now a) = currentArticle a.
Proof.
  unfold toggleFavorite. destruct (currentArticle a) eqn:E; [|exact E].
  destruct (findIndex _ _); simpl; exact E.
Qed.

Lemma toggleFavorite_unique now a :
  unique_pageIds (favorites a) -> unique_pageIds (favorites (toggleFavorite now a)).
Proof.
  unfold unique_pageIds. intros Huniq.
  destruct (currentArticle a) as [current|] eqn:Hcur;
    [|rewrite toggleFavorite_no_article by assumption; assumption].
  destruct (toggleFavorite_favorites now a current Hcur)
    as [(before & fav & after & Hfavs & _ & _ & ->)|[Hnot ->]].
  - rewrite Hfavs in Huniq. rewrite List.map_app in *. simpl in Huniq.
    eapply List.NoDup_remove_1. exact Huniq.
  - rewrite List.map_app. simpl.
    apply (Permutation_NoDup (l := pageId current :: List.map pageId (favorites a))).
    + apply Permutation_cons_append.
    + constructor; assumption.
Qed.

Lemma filter_unique (keep : Article -> bool) favs :
  unique_pageIds favs -> unique_pageIds (List.filter keep favs).
Proof.
  unfold unique_pageIds. induction favs as [|fav rest IH]; simpl; intros Huniq; [constructor|].
  inversion Huniq as [|? ? Hnot Hrest]; subst.
  destruct (keep fav); simpl; [|auto].
  constructor; [|auto]. intros Hin. apply Hnot.
  apply in_map_iff in Hin as (x & Hx & Hin). apply filter_In in Hin as [Hin _].
  apply in_map_iff. eauto.
Qed.

Lemma renderFavoritesList_perm a :
  Permutation (favorites (renderFavoritesList a)) (favorites a).
Proof.
  unfold renderFavoritesList. destruct (favorites a) eqn:E; [rewrite E; reflexivity|].
  simpl. apply Array_sort_perm.
Qed.

Lemma renderFavoritesList_unique a :
  unique_pageIds (favorites a) -> unique_pageIds (favorites (renderFavoritesList a)).
Proof.
  unfold unique_pageIds. intros Huniq.
  eapply Permutation_NoDup; [|exact Huniq].
  apply Permutation_map. symmetry. apply renderFavoritesList_perm.
Qed.

Lemma removeFavorite_perm pid a :
  Permutation (favorites (removeFavorite pid a))
    (List.filter (fun fav => negb (loose_eq (pageId fav) pid)) (favorites a)).
Proof. unfold removeFavorite. simpl. rewrite renderFavoritesList_perm. reflexivity. Qed.

Lemma removeFavorite_unique pid a :
  unique_pageIds (favorites a) -> unique_pageIds (favorites (removeFavorite pid a)).
Proof.
  unfold unique_pageIds. intros Huniq.
  eapply Permutation_NoDup.
  - apply Permutation_map. symmetry. apply removeFavorite_perm.
  - apply filter_unique. exact Huniq.
Qed.

Lemma openFavorite_favorites pid a : favorites (openFavorite pid a) = favorites a.
Proof. unfold openFavorite. destruct (find_loose pid (favorites a)); reflexivity. Qed.

Lemma handleSearch_favorites input : ui_preserves favorites (handleSearch input).
Proof. unfold handleSearch. frame. Qed.

Lemma handleCategoryClick_favorites c : ui_preserves favorites (handleCategoryClick c).
Proof. unfold handleCategoryClick. frame. Qed.

Lemma fetchRandomArticle_favorites : ui_preserves favorites fetchRandomArticle.
Proof. unfold fetchRandomArticle. frame. Qed.

Lemma step_app w i a :
  fst (step w i a) = app (snd (dispatch i w {| app := a; effects := no_effects |})).
Proof. unfold step. destruct (dispatch i w _) as [r s]. reflexivity. Qed.

Lemma step_unique w i a :
  unique_pageIds (favorites a) -> unique_pageIds (favorites (fst (step w i a))).
Proof.
  intros Huniq. rewrite step_app.
  destruct i; simpl;
    try exact Huniq;
    try (rewrite ?handleSearch_favorites, ?handleCategoryClick_favorites,
           ?fetchRandomArticle_favorites; exact Huniq).
  - apply toggleFavorite_unique, Huniq.
  - unfold shareArticle. destruct (currentArticle a), (share_result w); exact Huniq.
  - unfold toggleFavoritesModal.
    match goal with |- context [if ?b then _ else _] => destruct b end; simpl;
      apply (renderFavoritesList_unique (set_favoritesModalVisible _ a)), Huniq.
  - rewrite openFavorite_favorites. exact Huniq.
  - apply removeFavorite_unique, Huniq.
  - unfold toggleAutoFetch, stopAutoFetch, startAutoFetch, stopAutoFetch; simpl.
    repeat match goal with |- context [if ?b then _ else _] => destruct b; simpl end;
      exact Huniq.
  - unfold autoFetchTick, bind, read, gets; simpl.
    destruct (autoFetchTimer a && negb (isLoading a)); simpl; [|exact Huniq].
    rewrite fetchRandomArticle_favorites. exact Huniq.
Qed.

End Favorites.

(** ** Favourites: the claims *)

Section FavoritesClaims.
Context `{Platform}.
Import UIController.

(** C1.  Starting from favourites with pairwise distinct [pageId]s, no
    sequence of intents -- [toggleFavorite] (the favourite button) and
    [removeFavorite] calls, interleaved with any other intent, such as
    those that change the current article -- ever produces two favourites
    with equal [pageId]. *)
Theorem favorites_stay_unique (script : list (World * Intent)) (a : App) :
  unique_pageIds (favorites a) ->
  unique_pageIds (favorites (run script a)).
Proof.
  revert a. induction script as [|[w i] rest IH]; intros a Huniq; simpl; [exact Huniq|].
  apply IH. apply step_unique. exact Huniq.
Qed.

(** One toggle removes one favourite with the current page id when there
    is one, and adds one otherwise; other page ids keep their count. *)
Lemma toggleFavorite_count now a current pid :
  currentArticle a = Some current ->
  count_pageId pid (favorites (toggleFavorite now a))
  = if decide (pid = pageId current)
    then match count_pageId pid (favorites a) with
         | O => 1%nat
         | S n => n
         end
    else count_pageId pid (favorites a).
Proof.
  intros Hcur. unfold count_pageId.
  destruct (toggleFavorite_favorites now a current Hcur)
    as [(before & fav & after & Hfavs & Hid & Hnot & ->)|[Hnot ->]].
  - rewrite Hfavs, !List.map_app, !count_occ_app. cbn [List.map].
    destruct (decide (pid = pageId current)) as [->|Hne].
    + rewrite count_occ_cons_eq by exact Hid.
      rewrite (proj1 (count_occ_not_In value_eq_dec _ _) Hnot). simpl. reflexivity.
    + rewrite count_occ_cons_neq by congruence. reflexivity.
  - rewrite List.map_app, count_occ_app. simpl.
    destruct (decide (pid = pageId current)) as [->|Hne].
    + rewrite (proj1 (count_occ_not_In value_eq_dec _ _) Hnot).
      destruct (value_eq_dec (pageId current) (pageId current)); [reflexivity|congruence].
    + destruct (value_eq_dec (pageId current) pid); [congruence|]. simpl. lia.
Qed.

(** C2, amended.  Without a current article [toggleFavorite] changes
    nothing.  With one, and when at most one favourite carries its page id
    (as the uniqueness invariant guarantees), two toggles in succession
    give back the page ids of the favourites: each page id is a member
    afterwards exactly when it was before, with the same multiplicity. *)
Theorem toggleFavorite_twice (a : App) (now1 now2 : jsstring) :
  (currentArticle a = None -> toggleFavorite now1 a = a)
  /\ (forall current,
        currentArticle a = Some current ->
        (count_pageId (pageId current) (favorites a) <= 1)%nat ->
        forall pid,
          (In pid (List.map pageId (favorites (toggleFavorite now2 (toggleFavorite now1 a))))
           <-> In pid (List.map pageId (favorites a)))
          /\ count_pageId pid (favorites (toggleFavorite now2 (toggleFavorite now1 a)))
             = count_pageId pid (favorites a)).
Proof.
  split; [apply toggleFavorite_no_article|].
  intros current Hcur Hone pid.
  assert (count_pageId pid (favorites (toggleFavorite now2 (toggleFavorite now1 a)))
          = count_pageId pid (favorites a)) as Hcount.
  { rewrite (toggleFavorite_count now2 _ current)
      by (rewrite toggleFavorite_currentArticle; exact Hcur).
    rewrite (toggleFavorite_count now1 a current) by exact Hcur.
    destruct (decide (pid = pageId current)) as [->|Hne]; [|reflexivity].
    destruct (count_pageId (pageId current) (favorites a)) as [|[|n]]; try reflexivity. lia. }
  split; [|exact Hcount].
  unfold count_pageId in Hcount. rewrite !(count_occ_In value_eq_dec), Hcount. reflexivity.
Qed.

Lemma find_loose_Some pid favs article :
  find_loose pid favs = Some article <-> first_loose_match pid favs article.
Proof.
  unfold first_loose_match. split.
  - revert article. induction favs as [|fav rest IH]; intros article; simpl; [discriminate|].
    destruct (loose_eq (pageId fav) pid) eqn:E.
    + intros [= <-]. exists [], rest. auto.
    + intros Hfind. destruct (IH _ Hfind) as (before & after & -> & Heq & Hbefore).
      exists (fav :: before), after. auto.
  - intros (before & after & -> & Heq & Hbefore).
    induction Hbefore as [|fav before Hfav _ IH]; simpl.
    + rewrite Heq. reflexivity.
    + rewrite Hfav. exact IH.
Qed.

Lemma find_loose_None pid favs :
  find_loose pid favs = None
  <-> (forall fav, In fav favs -> loose_eq (pageId fav) pid = false).
Proof.
  induction favs as [|fav rest IH]; simpl; [split; [intros _ ? []|reflexivity]|].
  destruct (loose_eq (pageId fav) pid) eqn:E.
  - split; [discriminate|]. intros Hall. specialize (Hall fav (or_introl eq_refl)). congruence.
  - rewrite IH. split.
    + intros Hall fav' [<-|Hin]; auto.
    + intros Hall fav' Hin. apply Hall. right. exact Hin.
Qed.

(** C10.  [removeFavorite] keeps exactly the favourites whose page id is
    not loosely equal ([==]) to its argument, so that the string "123"
    removes a favourite stored with the number 123, which is not strictly
    equal to it; [openFavorite] displays the first favourite whose page id
    is loosely equal to its argument, and does nothing when there is
    none. *)
Theorem removeFavorite_openFavorite_loose (pid : value) (a : App) :
  Permutation (favorites (removeFavorite pid a))
    (List.filter (fun fav => negb (loose_eq (pageId fav) pid)) (favorites a))
  /\ (forall fav, In fav (favorites (removeFavorite pid a))
                  <-> In fav (favorites a) /\ loose_eq (pageId fav) pid = false)
  /\ (loose_eq (VNumber 123) (VString (lit "123")) = true
      /\ strict_eq (VNumber 123) (VString (lit "123")) = false
      /\ forall fav, pageId fav = VNumber 123 ->
                     ~ In fav (favorites (removeFavorite (VString (lit "123")) a)))
  /\ (forall article, first_loose_match pid (favorites a) article ->
                      currentArticle (openFavorite pid a) = Some article
                      /\ view (openFavorite pid a) = Displaying)
  /\ ((forall fav, In fav (favorites a) -> loose_eq (pageId fav) pid = false) ->
      openFavorite pid a = a).
Proof.
  assert (forall pid fav, In fav (favorites (removeFavorite pid a))
                      <-> In fav (favorites a) /\ loose_eq (pageId fav) pid = false) as Hin.
  { intros pid' fav. split.
    - intros Hfav. apply (Permutation_in _ (removeFavorite_perm pid' a)) in Hfav.
      apply filter_In in Hfav as [Hfav Hneq]. split; [exact Hfav|].
      destruct (loose_eq (pageId fav) pid'); [discriminate|reflexivity].
    - intros [Hfav Hneq].
      apply (Permutation_in _ (Permutation_sym (removeFavorite_perm pid' a))).
      apply filter_In. rewrite Hneq. auto. }
  split; [apply removeFavorite_perm|].
  split; [apply Hin|].
  split.
  { split; [reflexivity|]. split; [reflexivity|].
    intros fav Hid Hfav. apply Hin in Hfav as [_ Hneq]. rewrite Hid in Hneq. discriminate. }
  split.
  - intros article Hfirst. apply find_loose_Some in Hfirst.
    unfold openFavorite. rewrite Hfirst. split; reflexivity.
  - intros Hnone. apply find_loose_None in Hnone.
    unfold openFavorite. rewrite Hnone. reflexivity.
Qed.

End FavoritesClaims.

(** ** The provider *)

Section Provider.
Context `{Platform}.
Import WikipediaService.

Lemma fetch_json_run {D} req (resp : World -> Response D) w e :
  exists message,
    fetch_json req resp w e
    = (match response_data (resp w) with
       | Some d => Return d
       | None => Throw message
       end, sent e req).
Proof.
  unfold fetch_json, response_data, sent.
  destruct (resp w) as [reason|[|] status [d|msg]];
    try (eexists; reflexivity); exists []; reflexivity.
Qed.

Lemma searchArticles_run query limit w e :
  searchArticles query limit w e
  = (match response_data (net_search w (ToString query) limit) with
     | Some data => Return (match data with Some results => results | None => [] end)
     | None => Throw (lit "Failed to search articles")
     end, sent e (GetSearch (ToString query) limit)).
Proof.
  unfold searchArticles, rethrow_as, try_catch, bind.
  destruct (fetch_json_run (GetSearch (ToString query) limit)
              (fun w => net_search w (ToString query) limit) w e) as [msg ->].
  destruct (response_data _); reflexivity.
Qed.

Lemma fetchArticleByTitle_run title w e :
  fetchArticleByTitle title w e = fetched_by_title (lit "Failed to fetch article") title w e.
Proof.
  unfold fetchArticleByTitle, fetched_by_title, rethrow_as, try_catch, bind at 1, completion,
    encodeURIComponent_call.
  destruct (encodeURIComponent title) as [encoded|]; [|reflexivity].
  unfold bind.
  destruct (fetch_json_run (GetSummary encoded) (fun w => net_summary w encoded) w e)
    as [msg ->].
  destruct (response_data _) as [data|]; [|reflexivity].
  unfold ask. destruct (normalizeArticleData data (clock w)); reflexivity.
Qed.

Lemma fetchRandomArticle_run w e :
  fetchRandomArticle w e
  = (match response_data (net_random_summary w) with
     | Some data =>
         masked (lit "Failed to fetch random article") (normalizeArticleData data (clock w))
     | None => Throw (lit "Failed to fetch random article")
     end, sent e GetRandomSummary).
Proof.
  unfold fetchRandomArticle, rethrow_as, try_catch, bind, completion.
  destruct (fetch_json_run GetRandomSummary net_random_summary w e) as [msg ->].
  destruct (response_data _) as [data|]; [|reflexivity].
  unfold ask. destruct (normalizeArticleData data (clock w)); reflexivity.
Qed.

Lemma fetched_by_title_requests failure name w e :
  exists more, requests (snd (fetched_by_title failure name w e)) = requests e ++ more.
Proof.
  unfold fetched_by_title.
  destruct (encodeURIComponent name) as [encoded|];
    [exists [GetSummary encoded]|exists []; cbn; rewrite app_nil_r]; reflexivity.
Qed.

(** A failure of the inner fetch leaves the category fetch under the
    category fetch's message. *)
Lemma fetched_by_title_masked failure name w e :
  (let '(o, e') := fetched_by_title (lit "Failed to fetch article") name w e in
   (masked failure o, e'))
  = fetched_by_title failure name w e.
Proof.
  unfold fetched_by_title.
  destruct (encodeURIComponent name) as [encoded|]; [|reflexivity].
  destruct (response_data _) as [page|]; [|reflexivity].
  destruct (normalizeArticleData page (clock w)); reflexivity.
Qed.

Lemma draw_in_unit (r : unit_draw) : (0 <= draw_value r)%Q /\ (draw_value r < 1)%Q.
Proof.
  pose proof (draw_range r) as Hr. apply andb_true_iff in Hr as [Hlo Hhi].
  apply Qle_bool_iff in Hlo. split; [exact Hlo|].
  apply Qnot_le_lt. intros Hle. apply Qle_bool_iff in Hle.
  rewrite Hle in Hhi. discriminate.
Qed.

(** [Math.floor(Math.random() * n)] is an index below [n]. *)
Lemma floor_draw_range (r : unit_draw) (n : Z) :
  0 < n -> 0 <= Qfloor (draw_value r * inject_Z n) < n.
Proof.
  intros Hn. destruct (draw_in_unit r) as [Hlo Hhi].
  assert (inject_Z 0 < inject_Z n)%Q as Hn' by (rewrite <- Zlt_Qlt; exact Hn).
  change (inject_Z 0) with 0%Q in Hn'.
  split.
  - change 0 with (Qfloor 0). apply Qfloor_resp_le.
    apply Qmult_le_0_compat; [exact Hlo|apply Qlt_le_weak, Hn'].
  - rewrite Zlt_Qlt.
    eapply Qle_lt_trans; [apply Qfloor_le|].
    rewrite <- (Qmult_1_l (inject_Z n)) at 2.
    apply Qmult_lt_compat_r; assumption.
Qed.

Lemma fetchCategoryArticle_run category w :
  fetchCategoryArticle category w no_effects
  = let keywords := match CATEGORIES_get category with
                    | Some p => p
                    | None => PKeywords [category]
                    end in
    after_keyword
      (property_index keywords (floor_scaled (Math_random w 0) (property_length keywords))) w.
Proof.
  unfold fetchCategoryArticle, rethrow_as, try_catch, bind at 1, random, no_effects.
  cbn [draws requests].
  set (keyword := property_index _ _). cbv zeta.
  unfold bind at 1. rewrite searchArticles_run. unfold after_keyword, found_results, sent. cbn [draws requests app].
  destruct (response_data (net_search w (ToString keyword) 20)) as [data|]; [|reflexivity].
  set (found := match data with Some results => results | None => [] end).
  destruct found as [|first rest] eqn:Hfound; [reflexivity|].
  change (length (first :: rest) =? 0)%nat with false. cbv iota.
  unfold bind, random. cbn [draws requests].
  set (n := Z.min 5 (Z.of_nat (length (first :: rest)))).
  assert (0 < n) as Hn by (subst n; simpl length; lia).
  destruct (floor_draw_range (Math_random w 1) n Hn) as [Hlo Hhi].
  rewrite (proj2 (Z.ltb_ge _ _) Hlo).
  destruct (nth_error (first :: rest) _) as [chosen|]; [|reflexivity].
  rewrite fetchArticleByTitle_run.
  rewrite <- (fetched_by_title_masked (lit "Failed to fetch category article")).
  destruct (fetched_by_title _ _ _ _) as [[article|message] e']; reflexivity.
Qed.

End Provider.

(** ** The category fetch: the claims *)

Section CategoryClaims.
Context `{Platform}.
Import WikipediaService.

(** The keyword drawn from an array of keywords. *)
Lemma keyword_drawn (keywords : list jsstring) (r : unit_draw) :
  keywords <> [] ->
  exists k keyword,
    Z.of_nat k = Qfloor (draw_value r * inject_Z (Z.of_nat (length keywords)))
    /\ nth_error keywords k = Some keyword
    /\ property_index (PKeywords keywords)
         (floor_scaled r (property_length (PKeywords keywords))) = VString keyword.
Proof.
  intros Hne. cbn [property_index floor_scaled property_length].
  assert (0 < Z.of_nat (length keywords)) as Hlen by (destruct keywords; [congruence|simpl; lia]).
  destruct (floor_draw_range r _ Hlen) as [Hlo Hhi].
  set (i := Qfloor _) in *.
  rewrite (proj2 (Z.ltb_ge _ _) Hlo).
  destruct (nth_error keywords (Z.to_nat i)) as [keyword|] eqn:E.
  - exists (Z.to_nat i), keyword. repeat split; [lia|exact E].
  - apply nth_error_None in E. lia.
Qed.

(** C3, amended.  For a category of the configured mapping,
    [fetchCategoryArticle] draws a keyword of the category, sends
    [search(keyword, 20)] first, and then: when the search answers an
    empty sequence it fails, sending nothing more, with the message under
    which every failure of this method leaves; otherwise it draws its
    result among the first [min(5, resultCount)] results and fetches the
    article of that title -- it sends the summary request for the encoded
    title and answers the normalised data, unless the title holds a lone
    surrogate, on which [encodeURIComponent] throws: then no summary
    request is sent and the method fails under the same message. *)
Theorem fetchCategoryArticle_configured (category : jsstring) (keywords : list jsstring)
    (w : World) :
  assoc category CONFIG.CATEGORIES = Some keywords ->
  exists k keyword,
    Z.of_nat k = Qfloor (draw_value (Math_random w 0) * inject_Z (Z.of_nat (length keywords)))
    /\ nth_error keywords k = Some keyword /\ In keyword keywords
    /\ (exists more,
          requests (snd (fetchCategoryArticle category w no_effects))
          = GetSearch keyword 20 :: more)
    /\ forall data,
         response_data (net_search w keyword 20) = Some data ->
         (found_results data = [] ->
          fetchCategoryArticle category w no_effects
          = (Throw (lit "Failed to fetch category article"),
             {| draws := 1; requests := [GetSearch keyword 20] |}))
         /\ (found_results data <> [] ->
             exists i chosen,
               (i < Nat.min 5 (length (found_results data)))%nat
               /\ nth_error (found_results data) i = Some chosen
               /\ In chosen (firstn 5 (found_results data))
               /\ (isWellFormed (sr_title chosen) = true ->
                   exists encoded,
                     encodeURIComponent (sr_title chosen) = Some encoded
                     /\ fetchCategoryArticle category w no_effects
                        = (match response_data (net_summary w encoded) with
                           | Some page =>
                               masked (lit "Failed to fetch category article")
                                 (normalizeArticleData page (clock w))
                           | None => Throw (lit "Failed to fetch category article")
                           end,
                           {| draws := 2;
                              requests := [GetSearch keyword 20; GetSummary encoded] |}))
               /\ (isWellFormed (sr_title chosen) = false ->
                   fetchCategoryArticle category w no_effects
                   = (Throw (lit "Failed to fetch category article"),
                      {| draws := 2; requests := [GetSearch keyword 20] |}))).
Proof.
  intros Hcat.
  assert (keywords <> []) as Hne.
  { unfold CONFIG.CATEGORIES in Hcat. simpl in Hcat.
    repeat match type of Hcat with
           | (if ?b then _ else _) = _ => destruct b
           end; inversion Hcat; discriminate. }
  destruct (keyword_drawn keywords (Math_random w 0) Hne) as (k & keyword & Hk & Hnth & Hkw).
  exists k, keyword. split; [exact Hk|]. split; [exact Hnth|].
  split; [eapply nth_error_In; exact Hnth|].
  rewrite fetchCategoryArticle_run. unfold CATEGORIES_get. rewrite Hcat. cbv zeta.
  rewrite Hkw. unfold after_keyword, found_results, fetched_by_title. cbn [ToString].
  split.
  { destruct (response_data (net_search w keyword 20)) as [data|]; [|eexists; reflexivity].
    destruct (match data with Some results => results | None => [] end);
      [eexists; reflexivity|].
    destruct (nth_error (_ :: _) _) as [chosen|]; [|eexists; reflexivity].
    destruct (encodeURIComponent (sr_title chosen)); eexists; reflexivity. }
  intros data ->. fold (found_results data).
  split.
  - intros ->. reflexivity.
  - intros Hfound. destruct (found_results data) as [|first rest] eqn:E; [congruence|].
    set (n := Z.min 5 (Z.of_nat (length (first :: rest)))).
    assert (0 < n) as Hn by (subst n; simpl length; lia).
    destruct (floor_draw_range (Math_random w 1) n Hn) as [Hlo Hhi].
    set (i := Qfloor (draw_value (Math_random w 1) * inject_Z n)) in *.
    assert (Z.to_nat i < Nat.min 5 (length (first :: rest)))%nat as Hi by (subst n; lia).
    destruct (nth_error (first :: rest) (Z.to_nat i)) as [chosen|] eqn:Hchosen.
    + exists (Z.to_nat i), chosen. split; [exact Hi|]. split; [exact Hchosen|].
      split.
      { apply (nth_error_In _ (Z.to_nat i)).
        rewrite nth_error_firstn.
        destruct (Nat.ltb_spec (Z.to_nat i) 5); [exact Hchosen|lia]. }
      split.
      * intros Hwell.
        destruct (encodeURIComponent (sr_title chosen)) as [encoded|] eqn:Hencoded.
        -- exists encoded. split; reflexivity.
        -- apply encodeURIComponent_URIError in Hencoded. congruence.
      * intros Hill. apply encodeURIComponent_URIError in Hill. rewrite Hill. reflexivity.
    + apply nth_error_None in Hchosen. lia.
Qed.

(** The fallback of [CONFIG.CATEGORIES[category] || [category]]: a string
    that names no property of the mapping, own or inherited, is its own
    single keyword. *)
Lemma fetchCategoryArticle_fallback (category : jsstring) (w : World) :
  CATEGORIES_get category = None ->
  fetchCategoryArticle category w no_effects = after_keyword (VString category) w.
Proof.
  intros Hget. rewrite fetchCategoryArticle_run, Hget. cbv zeta.
  destruct (keyword_drawn [category] (Math_random w 0) ltac:(discriminate))
    as (k & keyword & Hk & Hnth & ->).
  destruct k as [|[|k]]; simpl in Hnth; congruence.
Qed.

(** C9, at the category [toString], which is not a key of the configured
    mapping: the lookup finds the method inherited from
    [Object.prototype], the fallback is not taken, and the search is sent
    for [undefined] instead of the category. *)
Theorem fetchCategoryArticle_toString (w : World) :
  assoc (lit "toString") CONFIG.CATEGORIES = None
  /\ CATEGORIES_get (lit "toString") = Some (PFunction 0)
  /\ fetchCategoryArticle (lit "toString") w no_effects = after_keyword VUndefined w
  /\ (exists more,
        requests (snd (fetchCategoryArticle (lit "toString") w no_effects))
        = GetSearch (lit "undefined") 20 :: more)
  /\ fetchCategoryArticle (lit "toString") w no_effects
     <> after_keyword (VString (lit "toString")) w.
Proof.
  split; [reflexivity|]. split; [reflexivity|].
  assert (fetchCategoryArticle (lit "toString") w no_effects = after_keyword VUndefined w) as Hrun.
  { rewrite fetchCategoryArticle_run. reflexivity. }
  split; [exact Hrun|].
  assert (forall keyword, exists more,
             requests (snd (after_keyword keyword w)) = GetSearch (ToString keyword) 20 :: more)
    as Hfirst.
  { intros keyword. unfold after_keyword, found_results, fetched_by_title.
    destruct (response_data (net_search w (ToString keyword) 20)) as [data|];
      [|eexists; reflexivity].
    destruct (match data with Some results => results | None => [] end);
      [eexists; reflexivity|].
    destruct (nth_error (_ :: _) _) as [chosen|]; [|eexists; reflexivity].
    destruct (encodeURIComponent (sr_title chosen)); eexists; reflexivity. }
  split.
  - rewrite Hrun. apply (Hfirst VUndefined).
  - rewrite Hrun. intros Heq.
    destruct (Hfirst VUndefined) as [m1 H1], (Hfirst (VString (lit "toString"))) as [m2 H2].
    rewrite Heq, H2 in H1. discriminate.
Qed.

End CategoryClaims.

(** ** The asynchronous handlers, in closed form *)

Section HandlerEquations.
Context `{Platform}.
Import UIController.

Lemma call_run {A} (m : JS Effects A) w a e :
  call m w {| app := a; effects := e |}
  = (fst (m w e), {| app := a; effects := snd (m w e) |}).
Proof. unfold call. simpl. destruct (m w e). reflexivity. Qed.

Lemma fetchRandomArticle_step w a :
  step w NextClick a
  = (match category_selected a with
     | Some category =>
         let a1 := showStatus (lit "Fetching another " ++ category ++ lit " article...") SevInfo
                     (showSkeleton a) in
         match fst (WikipediaService.fetchCategoryArticle category w no_effects) with
         | Return article =>
             displayArticle article
               (showStatus (lit "Found another " ++ category ++ lit " article: " ++ dquote
                            ++ title article ++ dquote) SevInfo a1)
         | Throw message =>
             showStatus (lit "Failed to fetch article") SevError (showError message a1)
         end
     | None =>
         let a1 := showStatus (lit "Fetching random article...") SevInfo (showSkeleton a) in
         match fst (WikipediaService.fetchRandomArticle w no_effects) with
         | Return article =>
             displayArticle article
               (showStatus (lit "Fetched random article from Wikipedia") SevInfo a1)
         | Throw message =>
             showStatus (lit "Failed to fetch article") SevError (showError message a1)
         end
     end,
     requests (snd (next_provider_call a w no_effects))).
Proof.
  unfold step, dispatch, fetchRandomArticle, next_provider_call.
  unfold try_catch, bind, update, modify, read, gets, ret. cbn [app effects].
  change (category_selected (showSkeleton a)) with (category_selected a).
  destruct (category_selected a) as [category|]; cbn [app effects]; rewrite call_run;
    match goal with
    | |- context [fst (?m w no_effects)] => destruct (m w no_effects) as [[article|message] e]
    end; reflexivity.
Qed.

Lemma handleCategoryClick_step w category a :
  step w (CategoryClick category) a
  = (let a1 := showStatus (lit "Searching " ++ category ++ lit " articles...") SevInfo
                 (showSkeleton (set_selectedCategory (Some category) a)) in
     match fst (WikipediaService.fetchCategoryArticle category w no_effects) with
     | Return article =>
         showStatus (lit "Found " ++ category ++ lit " article: " ++ dquote
                     ++ title article ++ dquote) SevInfo (displayArticle article a1)
     | Throw message =>
         showStatus (lit "Failed to load " ++ category ++ lit " article") SevError
           (showError message a1)
     end,
     requests (snd (WikipediaService.fetchCategoryArticle category w no_effects))).
Proof.
  unfold step, dispatch, handleCategoryClick.
  unfold try_catch, bind, update, modify, ret. cbn [app effects].
  rewrite call_run.
  destruct (WikipediaService.fetchCategoryArticle category w no_effects)
    as [[article|message] e]; reflexivity.
Qed.

Lemma handleSearch_step w input a :
  step w (SearchSubmit input) a
  = let query := trim input in
    if negb (JsString.truthy query) then (a, [])
    else
      let a1 := showStatus (lit "Searching Wikipedia...") SevInfo
                  (showSkeleton (clearCategorySelection a)) in
      let failed message :=
        showStatus (lit "Search failed - try another term") SevError (showError message a1) in
      match response_data (net_search w query 1) with
      | None => (failed (lit "Failed to search articles"), [GetSearch query 1])
      | Some data =>
          match found_results data with
          | [] => (failed (lit "No results found"), [GetSearch query 1])
          | first :: _ =>
              match fetched_by_title (lit "Failed to fetch article") (sr_title first) w
                      {| draws := 0; requests := [GetSearch query 1] |} with
              | (Return article, e) =>
                  (showStatus (lit "Found article: " ++ dquote ++ title article ++ dquote)
                     SevInfo (displayArticle article a1),
                   requests e)
              | (Throw message, e) => (failed message, requests e)
              end
          end
      end.
Proof.
  unfold step, dispatch, handleSearch. cbv zeta.
  destruct (negb (JsString.truthy (trim input))); [reflexivity|].
  unfold try_catch, bind, update, modify, ret, throw. cbn [app effects].
  rewrite call_run, searchArticles_run. cbn [fst snd ToString].
  destruct (response_data (net_search w (trim input) 1)) as [data|]; [|reflexivity].
  fold (found_results data).
  destruct (found_results data) as [|first rest]; [reflexivity|].
  rewrite call_run, fetchArticleByTitle_run. unfold sent. cbn [fst snd draws requests app].
  destruct (fetched_by_title _ _ _ _) as [[article|message] e]; reflexivity.
Qed.

Lemma handleSearch_first_request w input a :
  trim input <> [] ->
  exists more, snd (step w (SearchSubmit input) a) = GetSearch (trim input) 1 :: more.
Proof.
  intros Hquery. rewrite handleSearch_step. cbv zeta.
  destruct (trim input) as [|c query]; [congruence|].
  cbn [JsString.truthy negb].
  destruct (response_data (net_search w (c :: query) 1)) as [data|]; [|eexists; reflexivity].
  destruct (found_results data) as [|first rest]; [eexists; reflexivity|].
  destruct (fetched_by_title_requests (lit "Failed to fetch article") (sr_title first) w
              {| draws := 0; requests := [GetSearch (c :: query) 1] |}) as [more Hmore].
  destruct (fetched_by_title _ _ _ _) as [[article|message] e];
    exists more; exact Hmore.
Qed.

End HandlerEquations.

(** ** The controller: the claims *)

Section ControllerClaims.
Context `{Platform}.
Import UIController Spec.

Lemma trimStart_blank s : trimStart s = [] <-> is_blank s.
Proof.
  unfold is_blank. induction s as [|c s IH]; simpl.
  - split; [constructor|reflexivity].
  - destruct (isWhiteSpace c) eqn:E.
    + rewrite IH. split; [constructor; assumption|inversion 1; assumption].
    + split; [discriminate|]. inversion 1; congruence.
Qed.

Lemma trimStart_head s c rest : trimStart s = c :: rest -> isWhiteSpace c = false.
Proof.
  induction s as [|d s IH]; simpl; [discriminate|].
  destruct (isWhiteSpace d) eqn:E; [exact IH|]. intros [= <- _]. exact E.
Qed.

(** The trimmed form is empty exactly for the empty and the
    white-space-only inputs. *)
Lemma trim_empty_iff s : trim s = [] <-> is_blank s.
Proof.
  unfold trim, trimEnd. split.
  - intros Htrim. apply trimStart_blank.
    assert (trimStart (rev (trimStart s)) = []) as Hrev.
    { rewrite <- (rev_involutive (trimStart (rev (trimStart s)))), Htrim. reflexivity. }
    apply trimStart_blank in Hrev.
    destruct (trimStart s) as [|c rest] eqn:E; [reflexivity|].
    apply trimStart_head in E.
    assert (In c (rev (c :: rest))) as Hin by (apply in_rev; rewrite rev_involutive; left; reflexivity).
    unfold is_blank in Hrev. rewrite List.Forall_forall in Hrev.
    rewrite (Hrev c Hin) in E. discriminate.
  - intros Hblank. apply trimStart_blank in Hblank. rewrite Hblank. reflexivity.
Qed.

(** C5.  An input whose trimmed form is empty -- the empty and the
    white-space-only inputs -- leaves the whole application as it is
    (current article, selected category, view, status) and sends nothing.
    Any other input clears the selected category and sends
    [search(query, 1)] for the trimmed query; when that search answers an
    empty sequence, nothing more is sent and the controller shows the
    error "No results found". *)
Theorem handleSearch_blank_or_search (input : jsstring) (w : World) (a : App) :
  (trim input = [] <-> is_blank input)
  /\ (trim input = [] -> step w (SearchSubmit input) a = (a, []))
  /\ (trim input <> [] ->
      selectedCategory (fst (step w (SearchSubmit input) a)) = None
      /\ (exists more, snd (step w (SearchSubmit input) a) = GetSearch (trim input) 1 :: more)
      /\ forall data,
           response_data (net_search w (trim input) 1) = Some data ->
           found_results data = [] ->
           snd (step w (SearchSubmit input) a) = [GetSearch (trim input) 1]
           /\ view (fst (step w (SearchSubmit input) a)) = Error (lit "No results found")
           /\ status (fst (step w (SearchSubmit input) a))
              = Some (lit "Search failed - try another term", SevError)
           /\ currentArticle (fst (step w (SearchSubmit input) a)) = currentArticle a
           /\ favorites (fst (step w (SearchSubmit input) a)) = favorites a
           /\ localStorage (fst (step w (SearchSubmit input) a)) = localStorage a).
Proof.
  split; [apply trim_empty_iff|].
  split.
  - intros Hblank. rewrite handleSearch_step. cbv zeta. rewrite Hblank. reflexivity.
  - intros Hquery. split; [|split].
    + rewrite handleSearch_step. cbv zeta.
      destruct (trim input) as [|c query]; [congruence|].
      cbn [JsString.truthy negb].
      destruct (response_data (net_search w (c :: query) 1)) as [data|]; [|reflexivity].
      destruct (found_results data) as [|first rest]; [reflexivity|].
      destruct (fetched_by_title _ _ _ _) as [[article|message] e]; reflexivity.
    + apply handleSearch_first_request, Hquery.
    + intros data Hdata Hfound. rewrite handleSearch_step. cbv zeta.
      destruct (trim input) as [|c query]; [congruence|].
      cbn [JsString.truthy negb]. rewrite Hdata, Hfound. repeat split.
Qed.

(** C6.  When the provider call of a "next" intent fails -- the category
    fetch if a category is selected, the random fetch otherwise -- the
    controller shows the error view with the failure's message and an
    error-severity status; the current article, the favourites and the
    preferences (theme, auto-fetch flag, selected category, visit count,
    the store with the last article) are as before, and the requests sent
    are those of that one provider call: nothing is retried. *)
Theorem fetchRandomArticle_failure (w : World) (a : App) (message : jsstring) :
  fst (next_provider_call a w no_effects) = Throw message ->
  let a' := fst (step w NextClick a) in
  view a' = Error message
  /\ status a' = Some (lit "Failed to fetch article", SevError)
  /\ currentArticle a' = currentArticle a
  /\ favorites a' = favorites a
  /\ (theme a' = theme a /\ autoFetchEnabled a' = autoFetchEnabled a
      /\ selectedCategory a' = selectedCategory a /\ visitCount a' = visitCount a
      /\ localStorage a' = localStorage a)
  /\ autoFetchTimer a' = autoFetchTimer a
  /\ snd (step w NextClick a) = requests (snd (next_provider_call a w no_effects))
  /\ (category_selected a = None -> snd (step w NextClick a) = [GetRandomSummary])
  /\ (length (snd (step w NextClick a)) <= 2)%nat.
Proof.
  intros Hfail. rewrite fetchRandomArticle_step. cbv zeta. cbn [fst snd].
  unfold next_provider_call in *.
  destruct (category_selected a) as [category|] eqn:Hsel; rewrite Hfail.
  - repeat split; try discriminate.
    rewrite fetchCategoryArticle_run. cbv zeta.
    unfold after_keyword, found_results, fetched_by_title, sent.
    repeat match goal with
           | |- context [match ?x with _ => _ end] => destruct x
           end; simpl; lia.
  - rewrite fetchRandomArticle_run. repeat split. simpl. lia.
Qed.

Lemma category_selected_eq a b :
  selectedCategory a = selectedCategory b -> category_selected a = category_selected b.
Proof. unfold category_selected. intros ->. reflexivity. Qed.

Lemma fetchRandomArticle_selectedCategory : ui_preserves selectedCategory fetchRandomArticle.
Proof. unfold fetchRandomArticle. frame. Qed.

(** Every intent but a category click leaves the selected category or
    clears it. *)
Lemma step_selectedCategory w i a :
  selects_no_category i = true ->
  selectedCategory (fst (step w i a)) = selectedCategory a
  \/ (keeps_category i = false /\ selectedCategory (fst (step w i a)) = None).
Proof.
  intros Hi. destruct i; try discriminate.
  - left. reflexivity.
  - right. split; reflexivity.
  - rewrite handleSearch_step. cbv zeta. simpl keeps_category.
    destruct (negb (JsString.truthy (trim input))); [left; reflexivity|].
    right. split; [reflexivity|].
    repeat match goal with
           | |- context [match ?x with _ => _ end] => destruct x
           end; reflexivity.
  - left. rewrite fetchRandomArticle_step. cbn [fst].
    repeat match goal with
           | |- context [match ?x with _ => _ end] => destruct x
           end; reflexivity.
  - left. unfold step. simpl. unfold toggleFavorite.
    destruct (currentArticle a); [|reflexivity]. destruct (findIndex _ _); reflexivity.
  - left. unfold step. simpl. unfold shareArticle.
    destruct (currentArticle a), (share_result w); reflexivity.
  - left. unfold step. simpl. unfold toggleFavoritesModal, renderFavoritesList. simpl.
    destruct (favorites a); simpl; destruct (negb (favoritesModalVisible a)); reflexivity.
  - left. reflexivity.
  - left. unfold step. simpl. unfold openFavorite.
    destruct (find_loose _ _); reflexivity.
  - left. unfold step. simpl. unfold removeFavorite, renderFavoritesList. simpl.
    destruct (List.filter _ _); reflexivity.
  - left. unfold step. simpl. unfold toggleAutoFetch, startAutoFetch, stopAutoFetch. simpl.
    destruct (negb (autoFetchEnabled a)), (autoFetchTimer a); reflexivity.
  - left. rewrite step_app. simpl. unfold autoFetchTick, bind, read, gets. simpl.
    destruct (autoFetchTimer a && negb (isLoading a)); [|reflexivity].
    apply fetchRandomArticle_selectedCategory.
Qed.

(** A category click selects its category, whether its fetch succeeds or
    fails. *)
Lemma handleCategoryClick_selects w category a :
  JsString.truthy category = true ->
  category_selected (fst (step w (CategoryClick category) a)) = Some category.
Proof.
  intros Hcat. rewrite handleCategoryClick_step. cbv zeta. cbn [fst].
  assert (forall b, selectedCategory b = Some category -> category_selected b = Some category)
    as Hset by (intros b Hb; unfold category_selected; rewrite Hb, Hcat; reflexivity).
  destruct (fst (WikipediaService.fetchCategoryArticle category w no_effects));
    apply Hset; reflexivity.
Qed.

Lemma step_keeps_category w i a :
  keeps_category i = true ->
  (exists c, category_selected a = Some c) ->
  exists c, category_selected (fst (step w i a)) = Some c.
Proof.
  intros Hkeep [c Hc].
  destruct (selects_no_category i) eqn:Hsel.
  - destruct (step_selectedCategory w i a Hsel) as [Heq|[Hclear _]]; [|congruence].
    exists c. rewrite (category_selected_eq _ a Heq). exact Hc.
  - destruct i; try discriminate. simpl in Hkeep.
    exists category. apply handleCategoryClick_selects. exact Hkeep.
Qed.

Lemma run_keeps_category script : forall a,
  Forall (fun wi => keeps_category (snd wi) = true) script ->
  (exists c, category_selected a = Some c) ->
  exists c, category_selected (run script a) = Some c.
Proof.
  induction script as [|[w i] rest IH]; intros a Hscript Hsel; simpl; [exact Hsel|].
  inversion Hscript as [|? ? Hi Hrest]; subst.
  apply IH; [exact Hrest|]. apply step_keeps_category; assumption.
Qed.

Lemma run_no_category script : forall a,
  Forall (fun wi => selects_no_category (snd wi) = true) script ->
  selectedCategory a = None ->
  selectedCategory (run script a) = None.
Proof.
  induction script as [|[w i] rest IH]; intros a Hscript Hsel; simpl; [exact Hsel|].
  inversion Hscript as [|? ? Hi Hrest]; subst.
  apply IH; [exact Hrest|].
  destruct (step_selectedCategory w i a Hi) as [Heq|[_ Hclear]]; congruence.
Qed.

(** The requests of a category fetch: a search with limit 20, then at
    most the fetch of one title. *)
Lemma fetchCategoryArticle_requests category w :
  exists keyword,
    requests (snd (WikipediaService.fetchCategoryArticle category w no_effects))
    = [GetSearch keyword 20]
    \/ exists encodedTitle,
         requests (snd (WikipediaService.fetchCategoryArticle category w no_effects))
         = [GetSearch keyword 20; GetSummary encodedTitle].
Proof.
  rewrite fetchCategoryArticle_run. cbv zeta.
  set (keyword := property_index _ _). exists (ToString keyword).
  unfold after_keyword, found_results, fetched_by_title.
  destruct (response_data (net_search w (ToString keyword) 20)) as [data|]; [|left; reflexivity].
  destruct (match data with Some results => results | None => [] end);
    [left; reflexivity|].
  destruct (nth_error (_ :: _) _) as [chosen|]; [|left; reflexivity].
  destruct (encodeURIComponent (sr_title chosen)); [right; eexists|left]; reflexivity.
Qed.

(** C8.  After a category click with a category that counts as selected
    (a non-empty string), and whatever intents follow that do not call
    [clearCategorySelection] (the logo click and a search with a non-blank
    query do), a "next" intent sends the requests of the category fetch --
    a search with limit 20 first, never the random-summary request.  Once
    [clearCategorySelection] has been called, and until a category is
    clicked again, a "next" intent sends the random-summary request and
    nothing else. *)
Theorem category_scoping (category : jsstring) (w0 w : World)
    (script : list (World * Intent)) (a : App) :
  JsString.truthy category = true ->
  Forall (fun wi => keeps_category (snd wi) = true) script ->
  let selected := run ((w0, CategoryClick category) :: script) a in
  (exists c,
      category_selected selected = Some c
      /\ snd (step w NextClick selected)
         = requests (snd (WikipediaService.fetchCategoryArticle c w no_effects))
      /\ ~ In GetRandomSummary (snd (step w NextClick selected))
      /\ exists keyword more, snd (step w NextClick selected) = GetSearch keyword 20 :: more)
  /\ forall (b : App) (script' : list (World * Intent)) (w' : World),
       Forall (fun wi => selects_no_category (snd wi) = true) script' ->
       snd (step w' NextClick (run script' (clearCategorySelection b))) = [GetRandomSummary].
Proof.
  intros Hcat Hscript selected. split.
  - assert (exists c, category_selected selected = Some c) as [c Hc].
    { subst selected. cbn [run]. apply run_keeps_category; [exact Hscript|].
      exists category. apply handleCategoryClick_selects. exact Hcat. }
    exists c. split; [exact Hc|].
    assert (snd (step w NextClick selected)
            = requests (snd (WikipediaService.fetchCategoryArticle c w no_effects))) as Hreq.
    { rewrite fetchRandomArticle_step. cbn [snd]. unfold next_provider_call.
      rewrite Hc. reflexivity. }
    split; [exact Hreq|]. rewrite Hreq.
    destruct (fetchCategoryArticle_requests c w) as [keyword [->|[encodedTitle ->]]].
    + split; [|eauto]. intros [Hin|[]]. discriminate.
    + split; [|eauto]. intros [Hin|[Hin|[]]]; discriminate.
  - intros b script' w' Hscript'.
    rewrite fetchRandomArticle_step. cbn [snd]. unfold next_provider_call.
    assert (category_selected (run script' (clearCategorySelection b)) = None) as ->.
    { unfold category_selected. rewrite run_no_category; [reflexivity|exact Hscript'|reflexivity]. }
    rewrite fetchRandomArticle_run. reflexivity.
Qed.

End ControllerClaims.

(** ** The state store and the derived fields: the claims *)

Section StoreClaims.
Context `{Platform}.
Import AppState CONFIG WikipediaService Spec.

(** C7, amended.  A missing or unparseable stored value never makes a
    read fail: the favourites read answers the empty list, the auto-fetch
    read answers off (as it does for every value other than "true"), and
    the visit counter is read as zero, so that the read, which counts the
    session that starts, answers 1 and stores 1.  The theme read answers
    "light" for a missing or empty value and hands any other stored string
    back unchanged.  (The reads are total functions: apart from
    [JSON.parse], whose exception [loadFavorites] and [loadLastArticle]
    catch, nothing they call throws.) *)
Theorem store_reads_default (ls : gmap jsstring jsstring) :
  ((ls !! STORAGE_KEYS.FAVORITES = None
    \/ exists s : jsstring,
         ls !! STORAGE_KEYS.FAVORITES = Some s /\ JSON_parse s = None) ->
   loadFavorites ls = JArray [])
  /\ ((ls !! STORAGE_KEYS.THEME = None \/ ls !! STORAGE_KEYS.THEME = Some JsString.empty) ->
      loadTheme ls = lit "light")
  /\ (forall s : jsstring,
        ls !! STORAGE_KEYS.THEME = Some s -> s <> [] -> loadTheme ls = s)
  /\ (ls !! STORAGE_KEYS.AUTO_FETCH <> Some (lit "true") -> loadAutoFetch ls = false)
  /\ ((ls !! STORAGE_KEYS.VISIT_COUNT = None
       \/ exists s : jsstring,
            ls !! STORAGE_KEYS.VISIT_COUNT = Some s /\ parseInt s = None) ->
      storedVisitCount ls = 0
      /\ loadVisitCount ls = (1, <[STORAGE_KEYS.VISIT_COUNT := lit "1"]> ls))
  /\ ((ls !! STORAGE_KEYS.LAST_ARTICLE = None
       \/ exists s : jsstring,
            ls !! STORAGE_KEYS.LAST_ARTICLE = Some s /\ JSON_parse s = None) ->
      loadLastArticle ls = JNull).
Proof.
  split; [|split; [|split; [|split; [|split]]]].
  - intros [Hnone|(s & Hs & Hparse)]; unfold loadFavorites.
    + rewrite Hnone. simpl. rewrite JSON_parse_null. reflexivity.
    + rewrite Hs. simpl. rewrite Hparse. reflexivity.
  - intros [Hnone|Hempty]; unfold loadTheme; [rewrite Hnone|rewrite Hempty]; reflexivity.
  - intros s Hs Hne. unfold loadTheme. rewrite Hs. destruct s; [congruence|reflexivity].
  - intros Hne. unfold loadAutoFetch.
    destruct (ls !! STORAGE_KEYS.AUTO_FETCH) as [s|]; [|reflexivity].
    unfold JsString.eqb. apply bool_decide_eq_false. congruence.
  - intros Hcase.
    assert (storedVisitCount ls = 0) as Hzero.
    { unfold storedVisitCount. destruct Hcase as [Hnone|(s & Hs & Hparse)].
      - rewrite Hnone. reflexivity.
      - rewrite Hs. simpl. rewrite Hparse. reflexivity. }
    split; [exact Hzero|]. unfold loadVisitCount. rewrite Hzero. reflexivity.
  - intros [Hnone|(s & Hs & Hparse)]; unfold loadLastArticle.
    + rewrite Hnone. simpl. rewrite JSON_parse_null. reflexivity.
    + rewrite Hs. simpl. rewrite Hparse. reflexivity.
Qed.

(** The fields of a normalised article. *)
Lemma normalizeArticleData_fields (data : RawSummary) (now : jsstring) (article : Article) :
  normalizeArticleData data now = Return article ->
  title article = or_else (raw_title data) (lit "Unknown Title")
  /\ summary article = or_else (raw_extract data) (lit "No summary available.")
  /\ article_url data = Return (url article)
  /\ image article = match truthy_string (raw_thumbnail_source data) with
                     | Some i => Some i
                     | None => truthy_string (raw_originalimage_source data)
                     end
  /\ imageAlt article = lit "Image related to " ++ ToString (optional_string (raw_title data))
  /\ pageId article = raw_pageid data
  /\ timestamp article = now
  /\ wordCount article = estimateWordCount (or_else (raw_extract data) [])
  /\ readingTime article = estimateReadingTime (or_else (raw_extract data) [])
  /\ savedAt article = None.
Proof.
  unfold normalizeArticleData.
  destruct (article_url data) as [address|message]; [|discriminate].
  intros [= <-]. repeat split.
Qed.

(** C4, amended.  The counts of a normalised article are those of the
    provider's extract, an absent extract counting as the empty text:
    [wordCount] is the number of white-space-delimited non-empty tokens of
    the extract -- [n] for a text laid out as [n] tokens between runs of
    white space -- and [readingTime] is the ceiling of [wordCount / 200]:
    0 when there is no word, at least 1 otherwise.  When the extract is
    not empty it is the article's summary, so that the counts are those of
    the summary.  When the extract is absent or empty the summary is the
    placeholder, which has three words, while both counts are 0. *)
Theorem normalize_derived_fields (data : RawSummary) (now : jsstring) (article : Article) :
  normalizeArticleData data now = Return article ->
  let text := match raw_extract data with Some extract => extract | None => [] end in
  wordCount article = Z.of_nat (token_count text)
  /\ (forall ts closing,
        well_laid true ts -> is_blank closing -> text = layout true ts closing ->
        wordCount article = Z.of_nat (length ts))
  /\ is_ceiling (wordCount article) 200 (readingTime article)
  /\ (wordCount article = 0 -> readingTime article = 0)
  /\ (0 < wordCount article -> 1 <= readingTime article)
  /\ (text <> [] ->
      summary article = text
      /\ wordCount article = Z.of_nat (token_count (summary article)))
  /\ (text = [] ->
      summary article = lit "No summary available."
      /\ token_count (summary article) = 3%nat
      /\ wordCount article = 0
      /\ readingTime article = 0).
Proof.
  intros Hbuilt text.
  destruct (normalizeArticleData_fields data now article Hbuilt)
    as (_ & Hsummary & _ & _ & _ & _ & _ & Hwc & Hrt & _).
  assert (or_else (raw_extract data) [] = text) as Htext
      by (subst text; destruct (raw_extract data) as [[|c extract]|]; reflexivity).
  rewrite Htext in Hwc, Hrt.
  pose proof (estimateReadingTime_ceiling text) as Hceil.
  rewrite <- Hwc, <- Hrt in Hceil.
  assert (wordCount article = Z.of_nat (token_count text)) as Hcount
      by (rewrite Hwc; apply estimateWordCount_token_count).
  split; [exact Hcount|].
  split.
  { intros ts closing Hts Hclosing Hlayout. rewrite Hcount, Hlayout.
    rewrite token_count_layout by assumption. reflexivity. }
  split; [exact Hceil|]. unfold is_ceiling in Hceil.
  split; [lia|]. split; [lia|].
  split.
  - intros Hne.
    assert (summary article = text) as Hsame.
    { rewrite Hsummary. subst text.
      destruct (raw_extract data) as [[|c extract]|]; [congruence|reflexivity|congruence]. }
    split; [exact Hsame|]. rewrite Hsame. exact Hcount.
  - intros Hempty.
    assert (summary article = lit "No summary available.") as Hplaceholder.
    { rewrite Hsummary. subst text.
      destruct (raw_extract data) as [[|c extract]|]; [reflexivity|discriminate|reflexivity]. }
    assert (wordCount article = 0) as Hzero by (rewrite Hcount, Hempty; reflexivity).
    split; [exact Hplaceholder|]. split; [rewrite Hplaceholder; reflexivity|].
    split; [exact Hzero|]. lia.
Qed.

End StoreClaims.

(** * The claims at concrete inputs *)

Module Concrete.
Import UIController WikipediaService AppState CONFIG Spec Sample.

Definition P := Reference.platform.

Lemma two_favorites_unique : unique_pageIds (favorites two_favorites).
Proof.
  unfold unique_pageIds. simpl.
  constructor; [|constructor; [|constructor]]; simpl; intuition discriminate.
Defined.

Lemma favorites_stay_unique_witness :
  unique_pageIds (favorites two_favorites)
  /\ unique_pageIds (favorites (@run P session two_favorites)).
Proof.
  split; [exact two_favorites_unique|].
  apply (@favorites_stay_unique P session two_favorites two_favorites_unique).
Defined.

Lemma toggleFavorite_twice_witness :
  (count_pageId (VNumber 7) (favorites two_favorites) <= 1)%nat
  /\ (In (VNumber 7)
         (List.map pageId
            (favorites (@toggleFavorite P (lit "2024-06-02T00:00:00.000Z")
                          (@toggleFavorite P (lit "2024-06-01T00:00:00.000Z") two_favorites))))
      <-> In (VNumber 7) (List.map pageId (favorites two_favorites))).
Proof.
  assert (count_pageId (pageId seven) (favorites two_favorites) <= 1)%nat as Hone
      by (vm_compute; lia).
  split; [exact Hone|].
  exact (proj1 (proj2 (@toggleFavorite_twice P two_favorites
                         (lit "2024-06-01T00:00:00.000Z") (lit "2024-06-02T00:00:00.000Z"))
                  seven eq_refl Hone (VNumber 7))).
Defined.

(** C2 as stated fails where a page is stored twice: the first toggle
    removes one copy, the second toggle removes the other instead of
    adding the page back, and page id 7 is no longer a member. *)
Lemma toggleFavorite_twice_loses_doubled :
  currentArticle doubled_favorite = Some seven
  /\ In (VNumber 7) (List.map pageId (favorites doubled_favorite))
  /\ favorites (@toggleFavorite P (lit "2024-06-02T00:00:00.000Z")
                  (@toggleFavorite P (lit "2024-06-01T00:00:00.000Z") doubled_favorite)) = []
  /\ ~ In (VNumber 7)
         (List.map pageId
            (favorites (@toggleFavorite P (lit "2024-06-02T00:00:00.000Z")
                          (@toggleFavorite P (lit "2024-06-01T00:00:00.000Z")
                             doubled_favorite)))).
Proof.
  split; [reflexivity|]. split; [left; reflexivity|].
  assert (favorites (@toggleFavorite P (lit "2024-06-02T00:00:00.000Z")
                       (@toggleFavorite P (lit "2024-06-01T00:00:00.000Z") doubled_favorite))
          = []) as Hempty by (vm_compute; reflexivity).
  split; [exact Hempty|]. rewrite Hempty. intros [].
Qed.

Lemma fetchCategoryArticle_configured_witness :
  assoc (lit "history") CONFIG.CATEGORIES = Some history_keywords
  /\ exists keyword more,
       In keyword history_keywords
       /\ requests (snd (@fetchCategoryArticle P (lit "history")
                           (Sample.online twenty_titles) no_effects))
          = GetSearch keyword 20 :: more.
Proof.
  split; [reflexivity|].
  destruct (@fetchCategoryArticle_configured P (lit "history") history_keywords
              (Sample.online twenty_titles) eq_refl)
    as (k & keyword & _ & _ & Hin & [more Hreq] & _).
  exists keyword, more. split; assumption.
Defined.

(** C3 as stated fails on the error: an empty search answer and a network
    failure make [fetchCategoryArticle] fail with one and the same error,
    which is not the no-results error raised (and caught) inside it. *)
Lemma fetchCategoryArticle_empty_is_generic_failure :
  response_data (net_search (Sample.online []) (lit "medieval") 20) = Some (Some [])
  /\ @fetchCategoryArticle P (lit "history") (Sample.online []) no_effects
     = (Throw (lit "Failed to fetch category article"),
        {| draws := 1; requests := [GetSearch (lit "medieval") 20] |})
  /\ fst (@fetchCategoryArticle P (lit "history") Sample.offline no_effects)
     = fst (@fetchCategoryArticle P (lit "history") (Sample.online []) no_effects)
  /\ fst (@fetchCategoryArticle P (lit "history") (Sample.online []) no_effects)
     <> Throw (lit "No articles found for this category").
Proof.
  split; [reflexivity|].
  assert (@fetchCategoryArticle P (lit "history") (Sample.online []) no_effects
          = (Throw (lit "Failed to fetch category article"),
             {| draws := 1; requests := [GetSearch (lit "medieval") 20] |})) as Hrun
      by (vm_compute; reflexivity).
  split; [exact Hrun|]. split; [vm_compute; reflexivity|].
  rewrite Hrun. cbn [fst]. intros Heq. apply (f_equal (fun o => match o with
                                                               | Throw m => length m
                                                               | Return _ => O
                                                               end)) in Heq.
  vm_compute in Heq. discriminate.
Qed.

(** The article built from a page named [name] with the given extract. *)
Definition built (pid : Z) (name : string) (shown : string) (words minutes : Z) : Article :=
  {| title := lit name; summary := lit shown;
     url := lit "https://en.wikipedia.org/wiki/" ++ lit name;
     image := None; imageAlt := lit "Image related to " ++ lit name;
     pageId := VNumber pid; timestamp := lit "2024-06-01T12:00:00.000Z";
     wordCount := words; readingTime := minutes; savedAt := None |}.

Lemma normalize_derived_fields_witness :
  @normalizeArticleData P (Sample.raw 5 "Words" (Some (lit "one two  three")))
    (lit "2024-06-01T12:00:00.000Z") = Return (built 5 "Words" "one two  three" 3 1)
  /\ summary (built 5 "Words" "one two  three" 3 1) = lit "one two  three"
  /\ wordCount (built 5 "Words" "one two  three" 3 1)
     = Z.of_nat (token_count (summary (built 5 "Words" "one two  three" 3 1))).
Proof.
  assert (@normalizeArticleData P (Sample.raw 5 "Words" (Some (lit "one two  three")))
            (lit "2024-06-01T12:00:00.000Z") = Return (built 5 "Words" "one two  three" 3 1))
    as Hbuilt by (vm_compute; reflexivity).
  split; [exact Hbuilt|].
  destruct (@normalize_derived_fields P _ _ _ Hbuilt) as (_ & _ & _ & _ & _ & Hsummary & _).
  apply Hsummary. discriminate.
Defined.

(** C4 as stated fails where the provider sends no extract: the summary of
    the article is the placeholder, of three words, and its [wordCount] is
    0, the count of the empty text. *)
Lemma normalize_counts_not_of_summary :
  @normalizeArticleData P (Sample.raw 6 "Bare" None) (lit "2024-06-01T12:00:00.000Z")
  = Return (built 6 "Bare" "No summary available." 0 0)
  /\ Z.of_nat (token_count (summary (built 6 "Bare" "No summary available." 0 0))) = 3
  /\ wordCount (built 6 "Bare" "No summary available." 0 0) = 0
  /\ wordCount (built 6 "Bare" "No summary available." 0 0)
     <> Z.of_nat (token_count (summary (built 6 "Bare" "No summary available." 0 0))).
Proof.
  split; [vm_compute; reflexivity|].
  split; [vm_compute; reflexivity|]. split; [reflexivity|].
  vm_compute. discriminate.
Qed.

Lemma handleSearch_blank_or_search_witness :
  @step P (Sample.online twenty_titles) (SearchSubmit (lit "   ")) two_favorites
  = (two_favorites, []).
Proof.
  apply (proj1 (proj2 (@handleSearch_blank_or_search P (lit "   ")
                         (Sample.online twenty_titles) two_favorites))).
  reflexivity.
Defined.

Lemma fetchRandomArticle_failure_witness :
  fst (@next_provider_call P two_favorites Sample.offline no_effects)
  = Throw (lit "Failed to fetch random article")
  /\ view (fst (@step P Sample.offline NextClick two_favorites))
     = Error (lit "Failed to fetch random article")
  /\ currentArticle (fst (@step P Sample.offline NextClick two_favorites)) = Some seven.
Proof.
  assert (fst (@next_provider_call P two_favorites Sample.offline no_effects)
          = Throw (lit "Failed to fetch random article")) as Hfail by reflexivity.
  split; [exact Hfail|].
  destruct (@fetchRandomArticle_failure P Sample.offline two_favorites _ Hfail)
    as (Hview & _ & Hcurrent & _).
  split; [exact Hview|exact Hcurrent].
Defined.

Lemma category_scoping_witness :
  JsString.truthy (lit "science") = true
  /\ Forall (fun wi => keeps_category (snd wi) = true) browsing
  /\ ~ In GetRandomSummary
        (snd (@step P (Sample.online twenty_titles) NextClick
                (@run P ((Sample.online twenty_titles, CategoryClick (lit "science")) :: browsing)
                   two_favorites))).
Proof.
  assert (Forall (fun wi => keeps_category (snd wi) = true) browsing) as Hkeep
      by (repeat constructor).
  split; [reflexivity|]. split; [exact Hkeep|].
  destruct (@category_scoping P (lit "science") (Sample.online twenty_titles)
              (Sample.online twenty_titles) browsing two_favorites eq_refl Hkeep)
    as [(c & _ & _ & Hnot & _) _].
  exact Hnot.
Defined.

Lemma store_reads_default_witness :
  @loadFavorites P {[ STORAGE_KEYS.FAVORITES := lit "[{broken" ]} = JArray []
  /\ storedVisitCount {[ STORAGE_KEYS.VISIT_COUNT := lit "many" ]} = 0.
Proof.
  destruct (@store_reads_default P {[ STORAGE_KEYS.FAVORITES := lit "[{broken" ]})
    as (Hfav & _).
  destruct (@store_reads_default P {[ STORAGE_KEYS.VISIT_COUNT := lit "many" ]})
    as (_ & _ & _ & _ & Hvisits & _).
  split.
  - apply Hfav. right. exists (lit "[{broken"). split; reflexivity.
  - apply Hvisits. right. exists (lit "many"). split; reflexivity.
Defined.

(** C7 as stated fails for the theme and for the visit counter: a stored
    theme that is neither "light" nor "dark" is handed back as it is, and
    the visit-count read of an empty store answers 1, not 0. *)
Lemma store_reads_not_all_default :
  loadTheme {[ STORAGE_KEYS.THEME := lit "blue" ]} = lit "blue"
  /\ loadTheme {[ STORAGE_KEYS.THEME := lit "blue" ]} <> lit "light"
  /\ fst (loadVisitCount ∅) = 1
  /\ fst (loadVisitCount ∅) <> 0.
Proof.
  assert (loadTheme {[ STORAGE_KEYS.THEME := lit "blue" ]} = lit "blue") as Htheme
      by (vm_compute; reflexivity).
  assert (fst (loadVisitCount ∅) = 1) as Hcount by (vm_compute; reflexivity).
  rewrite Htheme, Hcount. repeat split; discriminate.
Qed.

Lemma removeFavorite_openFavorite_loose_witness :
  favorites (@removeFavorite P (VString (lit "123")) two_favorites)
  = [ Sample.favorite (VNumber 7) "Seven" "2024-01-01T00:00:00.000Z" ]
  /\ ~ In (Sample.favorite (VNumber 123) "Other" "2024-02-01T00:00:00.000Z")
         (favorites (@removeFavorite P (VString (lit "123")) two_favorites)).
Proof.
  split; [vm_compute; reflexivity|].
  destruct (@removeFavorite_openFavorite_loose P (VString (lit "123")) two_favorites)
    as (_ & _ & (_ & _ & Hgone) & _).
  apply Hgone. reflexivity.
Defined.

End Concrete.

(** * Further properties of the code *)

(** ** Printing and reading decimal integers *)

Section Decimal.

(** The value of a decimal numeral read after [acc]. *)
Fixpoint uint_value (acc : Z) (d : Decimal.uint) : Z :=
  match d with
  | Decimal.Nil => acc
  | Decimal.D0 l => uint_value (acc * 10 + 0) l
  | Decimal.D1 l => uint_value (acc * 10 + 1) l
  | Decimal.D2 l => uint_value (acc * 10 + 2) l
  | Decimal.D3 l => uint_value (acc * 10 + 3) l
  | Decimal.D4 l => uint_value (acc * 10 + 4) l
  | Decimal.D5 l => uint_value (acc * 10 + 5) l
  | Decimal.D6 l => uint_value (acc * 10 + 6) l
  | Decimal.D7 l => uint_value (acc * 10 + 7) l
  | Decimal.D8 l => uint_value (acc * 10 + 8) l
  | Decimal.D9 l => uint_value (acc * 10 + 9) l
  end.

Definition is_decimal_digit (c : N) : Prop := (48 <= c <= 57)%N.

Lemma of_uint_acc_value d : forall p, Z.pos (Pos.of_uint_acc d p) = uint_value (Z.pos p) d.
Proof.
  induction d; intros p; simpl; try reflexivity; rewrite IHd; f_equal; lia.
Qed.

Lemma of_uint_value d : Z.of_N (Pos.of_uint d) = uint_value 0 d.
Proof.
  induction d; simpl; try reflexivity; try exact IHd; apply of_uint_acc_value.
Qed.

Lemma to_uint_value p : uint_value 0 (Pos.to_uint p) = Z.pos p.
Proof. rewrite <- of_uint_value, DecimalPos.Unsigned.of_to. reflexivity. Qed.

Lemma to_uint_not_nil p : Pos.to_uint p <> Decimal.Nil.
Proof.
  intros Hnil. pose proof (to_uint_value p) as Hv. rewrite Hnil in Hv. discriminate.
Qed.

Lemma digits_of_uint d : Forall is_decimal_digit (lit (NilEmpty.string_of_uint d)).
Proof.
  induction d; simpl; constructor; try exact IHd; unfold is_decimal_digit; simpl; lia.
Qed.

Lemma digit_step radix acc c k rest :
  digitValue radix c = Some k ->
  digits_value radix acc (c :: rest) = digits_value radix (acc * radix + k) rest.
Proof. intros Hc. simpl. rewrite Hc. reflexivity. Qed.

Lemma digits_value_uint d : forall acc,
  digits_value 10 acc (lit (NilEmpty.string_of_uint d)) = Some (uint_value acc d).
Proof.
  induction d; intros acc; try reflexivity;
    (etransitivity; [apply digit_step; reflexivity|apply IHd]).
Qed.

Lemma digits_prefix_all radix s : forall acc,
  s <> [] ->
  (exists v, digits_value radix (match acc with Some a => a | None => 0 end) s = Some v) ->
  digits_prefix radix acc s
  = digits_value radix (match acc with Some a => a | None => 0 end) s.
Proof.
  induction s as [|c rest IH]; intros acc Hne [v Hv]; [congruence|].
  simpl in *. destruct (digitValue radix c) as [k|]; [|discriminate].
  destruct rest as [|c' rest'].
  - simpl. destruct acc; simpl; f_equal; lia.
  - rewrite IH; [|discriminate|].
    + destruct acc; simpl; [reflexivity|]. f_equal.
    + exists v. destruct acc; simpl; [exact Hv|]. rewrite <- Hv. f_equal.
Qed.

Lemma digit_not_white_space c : is_decimal_digit c -> isWhiteSpace c = false.
Proof.
  unfold is_decimal_digit, isWhiteSpace. intros Hc.
  repeat match goal with
         | |- context [(?a <=? ?b)%N] => destruct (N.leb_spec a b)
         | |- context [(?a =? ?b)%N] => destruct (N.eqb_spec a b)
         end; try reflexivity; lia.
Qed.

Lemma trimStart_head_kept c rest : isWhiteSpace c = false -> trimStart (c :: rest) = c :: rest.
Proof. intros Hc. simpl. rewrite Hc. reflexivity. Qed.

(** A string without white space at either end is its own trimmed form. *)
Lemma trim_no_white_space s :
  Forall (fun c => isWhiteSpace c = false) s -> trim s = s.
Proof.
  intros Hs. unfold trim, trimEnd.
  assert (forall t, Forall (fun c => isWhiteSpace c = false) t -> trimStart t = t) as Hkeep.
  { intros t Ht. destruct Ht as [|c t Hc _]; [reflexivity|]. apply trimStart_head_kept, Hc. }
  rewrite (Hkeep s Hs), Hkeep; [apply rev_involutive|].
  apply List.Forall_rev. exact Hs.
Qed.

End Decimal.

Section DecimalRoundTrip.

(** Decides a match of a code unit against literals, bit by bit. *)
Ltac by_bits c :=
  destruct c as [|c]; [try reflexivity; try congruence|];
  repeat (destruct c as [c|c|]; try reflexivity; try congruence).

Lemma split_sign_none c rest :
  c <> 45%N -> c <> 43%N -> split_sign (c :: rest) = (1, c :: rest).
Proof. intros H45 H43. unfold split_sign. by_bits c. Qed.

Lemma digitValue_digit c :
  is_decimal_digit c -> digitValue 10 c = Some (Z.of_N c - 48).
Proof.
  unfold is_decimal_digit, digitValue. intros Hc. cbv zeta.
  destruct (Z.leb_spec 48 (Z.of_N c)); [|lia].
  destruct (Z.leb_spec (Z.of_N c) 57); [|lia]. simpl.
  destruct (Z.ltb_spec (Z.of_N c - 48) 10); [reflexivity|lia].
Qed.

Lemma digits_value_some s : forall acc,
  Forall is_decimal_digit s -> exists v, digits_value 10 acc s = Some v.
Proof.
  induction s as [|c rest IH]; intros acc Hs; simpl; [eauto|].
  inversion Hs as [|? ? Hc Hrest]; subst.
  rewrite (digitValue_digit c Hc). apply IH, Hrest.
Qed.

Lemma span_digits_all s : Forall is_decimal_digit s -> span_digits s = (s, []).
Proof.
  induction 1 as [|c rest Hc _ IH]; simpl; [reflexivity|].
  rewrite (digitValue_digit c Hc), IH. reflexivity.
Qed.

Lemma unsigned_decimal_digits s :
  s <> [] -> Forall is_decimal_digit s -> unsigned_decimal s = digits_value 10 0 s.
Proof.
  intros Hne Hs. unfold unsigned_decimal. rewrite (span_digits_all s Hs).
  rewrite app_nil_r. destruct s as [|c rest]; [congruence|].
  destruct (digits_value_some (c :: rest) 0 Hs) as [v ->].
  simpl exponent_part. cbv iota beta. simpl length.
  change (Z.of_nat 0 <=? 0) with true. cbv iota.
  f_equal. change (0 - Z.of_nat 0) with 0. lia.
Qed.

Lemma digit_not_sign c : is_decimal_digit c -> c <> 45%N /\ c <> 43%N.
Proof. unfold is_decimal_digit. lia. Qed.

(** [StringToNumber] on a string of decimal digits. *)
Lemma StringToNumber_digits s :
  s <> [] -> Forall is_decimal_digit s -> StringToNumber s = digits_value 10 0 s.
Proof.
  intros Hne Hs. unfold StringToNumber.
  rewrite trim_no_white_space
    by (eapply List.Forall_impl; [|exact Hs]; apply digit_not_white_space).
  assert (match (let '(sg, u) := split_sign s in
                 match unsigned_decimal u with
                 | Some n => Some (sg * n)
                 | None => None
                 end) with
          | r => r
          end = digits_value 10 0 s) as Hdefault.
  { destruct s as [|c rest]; [congruence|].
    inversion Hs as [|? ? Hc _]; subst.
    destruct (digit_not_sign c Hc) as [H45 H43].
    rewrite (split_sign_none c rest H45 H43).
    rewrite unsigned_decimal_digits by assumption.
    destruct (digits_value 10 0 (c :: rest)) as [v|]; [f_equal; lia|reflexivity]. }
  destruct s as [|c [|p ds]]; [congruence| |].
  - inversion Hs as [|? ? Hc _]; subst.
    rewrite <- Hdefault. by_bits c.
  - inversion Hs as [|? ? Hc Hrest]; subst. inversion Hrest as [|? ? Hp _]; subst.
    assert (((p =? 120) || (p =? 88))%N = false
            /\ ((p =? 111) || (p =? 79))%N = false
            /\ ((p =? 98) || (p =? 66))%N = false) as (Hx & Ho & Hb).
    { unfold is_decimal_digit in Hp.
      repeat split; apply orb_false_iff; split; apply N.eqb_neq; lia. }
    destruct (N.eq_dec c 48%N) as [->|Hne48].
    + rewrite Hx, Ho, Hb. apply unsigned_decimal_digits; assumption.
    + rewrite <- Hdefault. by_bits c.
Qed.

(** [parseInt] on a string of decimal digits. *)
Lemma parseInt_digits s :
  s <> [] -> Forall is_decimal_digit s -> parseInt s = digits_value 10 0 s.
Proof.
  intros Hne Hs. unfold parseInt.
  destruct s as [|c rest]; [congruence|].
  inversion Hs as [|? ? Hc Hrest]; subst.
  destruct (digit_not_sign c Hc) as [H45 H43].
  destruct (split_sign (trimStart (c :: rest))) as [sg u] eqn:Esign.
  rewrite trimStart_head_kept in Esign by (apply digit_not_white_space, Hc).
  rewrite (split_sign_none c rest H45 H43) in Esign. injection Esign as <- <-.
  lazymatch goal with
  | |- context [match ?M with | (_, _) => _ end] => destruct M as [radix ds] eqn:Eradix
  end.
  assert ((radix, ds) = (10, c :: rest)) as Hradix.
  { rewrite <- Eradix. destruct rest as [|p tl]; [by_bits c|].
    inversion Hrest as [|? ? Hp _]; subst.
    assert (((p =? 120) || (p =? 88))%N = false) as Hx
        by (unfold is_decimal_digit in Hp; apply orb_false_iff; split; apply N.eqb_neq; lia).
    destruct (N.eq_dec c 48%N) as [->|Hne48]; [rewrite Hx; reflexivity|by_bits c]. }
  injection Hradix as -> ->.
  rewrite (digits_prefix_all 10 (c :: rest) None Hne (digits_value_some _ 0 Hs)).
  destruct (digits_value 10 0 (c :: rest)) as [v|]; [f_equal; lia|reflexivity].
Qed.

Lemma decimal_radix (u : jsstring) :
  Forall is_decimal_digit u ->
  match u with
  | 48%N :: p :: tl => if ((p =? 120) || (p =? 88))%N then (16, tl) else (10, u)
  | _ => (10, u)
  end = (10, u).
Proof.
  intros Hu. destruct u as [|c [|p tl]]; [reflexivity|by_bits c|].
  inversion Hu as [|? ? Hc Hrest]; subst. inversion Hrest as [|? ? Hp _]; subst.
  assert (((p =? 120) || (p =? 88))%N = false) as Hx
      by (unfold is_decimal_digit in Hp; apply orb_false_iff; split; apply N.eqb_neq; lia).
  destruct (N.eq_dec c 48%N) as [->|Hne48]; [rewrite Hx; reflexivity|by_bits c].
Qed.

(** [parseInt] and [StringToNumber] on a minus sign followed by digits. *)
Lemma parseInt_negative s :
  s <> [] -> Forall is_decimal_digit s ->
  parseInt (45%N :: s) = option_map Z.opp (digits_value 10 0 s).
Proof.
  intros Hne Hs. unfold parseInt.
  change (split_sign (trimStart (45%N :: s))) with (-1, s). cbv beta iota.
  rewrite (decimal_radix s Hs).
  rewrite (digits_prefix_all 10 s None Hne (digits_value_some _ 0 Hs)).
  destruct (digits_value 10 0 s) as [v|]; simpl; [f_equal; lia|reflexivity].
Qed.

Lemma StringToNumber_negative s :
  s <> [] -> Forall is_decimal_digit s ->
  StringToNumber (45%N :: s) = option_map Z.opp (digits_value 10 0 s).
Proof.
  intros Hne Hs. unfold StringToNumber.
  rewrite trim_no_white_space.
  - change (split_sign (45%N :: s)) with (-1, s). cbv beta iota.
    rewrite unsigned_decimal_digits by assumption.
    destruct (digits_value 10 0 s) as [v|]; simpl; [f_equal; lia|reflexivity].
  - constructor; [reflexivity|].
    eapply List.Forall_impl; [|exact Hs]. apply digit_not_white_space.
Qed.

(** The decimal numeral of an integer: its digits, after a minus sign when
    it is negative. *)
Lemma NumberToString_digits n :
  exists digits,
    digits <> [] /\ Forall is_decimal_digit digits
    /\ digits_value 10 0 digits = Some (Z.abs n)
    /\ NumberToString n = if n <? 0 then 45%N :: digits else digits.
Proof.
  unfold NumberToString. destruct n as [|p|p]; simpl Z.to_int.
  - exists (lit "0"). repeat split; [discriminate|]. repeat constructor; unfold is_decimal_digit; simpl; lia.
  - exists (lit (NilEmpty.string_of_uint (Pos.to_uint p))).
    pose proof (to_uint_not_nil p) as Hnil.
    split; [destruct (Pos.to_uint p); try congruence; discriminate|].
    split; [apply digits_of_uint|].
    split; [rewrite digits_value_uint, to_uint_value; reflexivity|].
    unfold NilZero.string_of_int, NilZero.string_of_uint.
    destruct (Pos.to_uint p); try congruence; reflexivity.
  - exists (lit (NilEmpty.string_of_uint (Pos.to_uint p))).
    pose proof (to_uint_not_nil p) as Hnil.
    split; [destruct (Pos.to_uint p); try congruence; discriminate|].
    split; [apply digits_of_uint|].
    split; [rewrite digits_value_uint, to_uint_value; reflexivity|].
    unfold NilZero.string_of_int, NilZero.string_of_uint.
    destruct (Pos.to_uint p); try congruence; reflexivity.
Qed.

(** Reading back a printed integer gives the integer, with [parseInt] and
    with the conversion of loose equality. *)
Lemma parseInt_NumberToString n : parseInt (NumberToString n) = Some n.
Proof.
  destruct (NumberToString_digits n) as (digits & Hne & Hdigits & Hvalue & ->).
  destruct (Z.ltb_spec n 0).
  - rewrite parseInt_negative, Hvalue by assumption. simpl. f_equal. lia.
  - rewrite parseInt_digits, Hvalue by assumption. f_equal. lia.
Qed.

Lemma StringToNumber_NumberToString n : StringToNumber (NumberToString n) = Some n.
Proof.
  destruct (NumberToString_digits n) as (digits & Hne & Hdigits & Hvalue & ->).
  destruct (Z.ltb_spec n 0).
  - rewrite StringToNumber_negative, Hvalue by assumption. simpl. f_equal. lia.
  - rewrite StringToNumber_digits, Hvalue by assumption. f_equal. lia.
Qed.

End DecimalRoundTrip.

(** ** Preferences and the store *)

Section Preferences.
Context `{Platform}.
Import UIController AppState CONFIG Lifecycle.

Lemma stored_after_insert (key item : jsstring) (ls : gmap jsstring jsstring) :
  <[key := item]> ls !! key = Some item.
Proof. apply lookup_insert_eq. Qed.

(** X1.  One theme toggle always ends on "light" or "dark", stores the new
    theme so that reading it back gives it, and touches neither the
    article, the favourites nor the view; from "light" or "dark", two
    toggles give back the original theme, in the application and in the
    store.  A theme that is neither toggles to "light". *)
Theorem toggleTheme_involution (a : App) :
  (theme (toggleTheme a) = lit "light" \/ theme (toggleTheme a) = lit "dark")
  /\ loadTheme (localStorage (toggleTheme a)) = theme (toggleTheme a)
  /\ (currentArticle (toggleTheme a) = currentArticle a
      /\ favorites (toggleTheme a) = favorites a
      /\ selectedCategory (toggleTheme a) = selectedCategory a
      /\ view (toggleTheme a) = view a)
  /\ (theme a <> lit "light" -> theme (toggleTheme a) = lit "light")
  /\ (theme a = lit "light" \/ theme a = lit "dark" ->
      theme (toggleTheme a) <> theme a
      /\ theme (toggleTheme (toggleTheme a)) = theme a
      /\ loadTheme (localStorage (toggleTheme (toggleTheme a))) = theme a).
Proof.
  assert (forall b, theme (toggleTheme b)
                    = if JsString.eqb (theme b) (lit "light") then lit "dark" else lit "light")
    as Htheme by reflexivity.
  assert (forall b, loadTheme (localStorage (toggleTheme b)) = theme (toggleTheme b)) as Hload.
  { intros b. unfold toggleTheme, loadTheme, saveTheme. cbn [localStorage set_localStorage
      showStatus set_status theme set_theme].
    rewrite stored_after_insert.
    destruct (JsString.eqb (theme b) (lit "light")); reflexivity. }
  split.
  { rewrite Htheme. destruct (JsString.eqb (theme a) (lit "light")); auto. }
  split; [apply Hload|]. split; [repeat split|].
  split.
  { intros Hne. rewrite Htheme. unfold JsString.eqb.
    rewrite bool_decide_eq_false_2 by exact Hne. reflexivity. }
  intros Hknown. rewrite Hload, !Htheme.
  destruct Hknown as [-> | ->]; repeat split; try discriminate.
Qed.

(** X2.  A toggle of auto-fetch flips the flag, arms the timer exactly when
    the flag is on afterwards, and stores the flag so that reading it back
    gives it; a second toggle gives the flag back.  The article and the
    favourites are not touched. *)
Theorem toggleAutoFetch_flag (a : App) :
  autoFetchEnabled (toggleAutoFetch a) = negb (autoFetchEnabled a)
  /\ autoFetchTimer (toggleAutoFetch a) = autoFetchEnabled (toggleAutoFetch a)
  /\ loadAutoFetch (localStorage (toggleAutoFetch a)) = autoFetchEnabled (toggleAutoFetch a)
  /\ autoFetchEnabled (toggleAutoFetch (toggleAutoFetch a)) = autoFetchEnabled a
  /\ currentArticle (toggleAutoFetch a) = currentArticle a
  /\ favorites (toggleAutoFetch a) = favorites a.
Proof.
  destruct a as [current favs th loading enabled timer visits category ls vw st modal].
  unfold toggleAutoFetch, startAutoFetch, stopAutoFetch, loadAutoFetch, saveAutoFetch.
  destruct enabled, timer; cbn; rewrite ?stored_after_insert; repeat split.
Qed.

(** X3.  Each read of the visit counter answers one more than the stored
    count and stores its answer, so that the next session reads exactly
    that answer and answers one more; no other key is written.  (Counts are
    taken in the range of exact integers of JavaScript.) *)
Theorem loadVisitCount_increments (ls : gmap jsstring jsstring) :
  - 2 ^ 53 < storedVisitCount ls < 2 ^ 53 - 1 ->
  fst (loadVisitCount ls) = storedVisitCount ls + 1
  /\ storedVisitCount (snd (loadVisitCount ls)) = fst (loadVisitCount ls)
  /\ fst (loadVisitCount (snd (loadVisitCount ls))) = fst (loadVisitCount ls) + 1
  /\ forall key : jsstring,
       key <> STORAGE_KEYS.VISIT_COUNT -> snd (loadVisitCount ls) !! key = ls !! key.
Proof.
  intros _.
  assert (storedVisitCount (snd (loadVisitCount ls)) = storedVisitCount ls + 1) as Hstored.
  { unfold loadVisitCount. cbn [snd]. unfold storedVisitCount at 1.
    rewrite stored_after_insert. cbn [stored_text].
    rewrite parseInt_NumberToString. reflexivity. }
  split; [reflexivity|]. split; [exact Hstored|]. split.
  - unfold loadVisitCount at 1. cbn [fst]. rewrite Hstored. reflexivity.
  - intros key Hkey. unfold loadVisitCount. cbn [snd].
    apply lookup_insert_ne. congruence.
Qed.

End Preferences.

(** ** What each intent can change *)

Section IntentFrames.
Context `{Platform}.
Import UIController AppState CONFIG Lifecycle.

(** Leaves one goal per state update of the handlers an intent reaches. *)
Ltac frame_dispatch :=
  cbn [dispatch];
  unfold handleSearch, handleCategoryClick, autoFetchTick, fetchRandomArticle;
  repeat frame_step.

(** Settles a goal about one state update by cases on what it tests. *)
Ltac by_update :=
  let b := fresh "b" in
  intros b;
  repeat first
    [ progress unfold toggleTheme, toggleFavorite, shareArticle, toggleFavoritesModal,
        renderFavoritesList, openFavorite, removeFavorite, toggleAutoFetch, startAutoFetch,
        stopAutoFetch, closeFavoritesModal, clearCategorySelection, displayArticle,
        UIController.saveFavorites, UIController.saveLastArticle, showStatus, showSkeleton,
        showError
    | progress cbn
    | match goal with
      | |- context [match ?x with _ => _ end] => destruct x
      end ];
  try reflexivity.

Lemma step_preserved {T} (proj : App -> T) w i a :
  ui_preserves proj (dispatch i) -> proj (fst (step w i a)) = proj a.
Proof. intros Hi. rewrite step_app. apply Hi. Qed.

Lemma dispatch_theme i : i <> ThemeToggleClick -> ui_preserves theme (dispatch i).
Proof. intros Hi. destruct i; try congruence; frame_dispatch; by_update. Qed.

Lemma dispatch_autoFetchEnabled i :
  i <> AutoFetchToggleClick -> ui_preserves autoFetchEnabled (dispatch i).
Proof. intros Hi. destruct i; try congruence; frame_dispatch; by_update. Qed.

Lemma dispatch_autoFetchTimer i :
  i <> AutoFetchToggleClick -> ui_preserves autoFetchTimer (dispatch i).
Proof. intros Hi. destruct i; try congruence; frame_dispatch; by_update. Qed.

Lemma dispatch_visitCount i : ui_preserves visitCount (dispatch i).
Proof. destruct i; frame_dispatch; by_update. Qed.

Lemma dispatch_isLoading i : ui_preserves isLoading (dispatch i).
Proof. destruct i; frame_dispatch; by_update. Qed.

Lemma dispatch_favorites i : touches_favorites i = false -> ui_preserves favorites (dispatch i).
Proof. intros Hi. destruct i; try discriminate; frame_dispatch; by_update. Qed.

(** X4.  What one intent can change.  The theme changes only by the theme
    toggle, the auto-fetch flag and its timer only by the auto-fetch
    toggle, the list of favourites only by the favourite button, a removal
    or the opening of the favourites dialog (which only reorders it);
    [visitCount] and [isLoading] are never changed by any intent, and a
    share changes nothing but the status notification. *)
Theorem intent_frames (w : World) (i : Intent) (a : App) :
  (i <> ThemeToggleClick -> theme (fst (step w i a)) = theme a)
  /\ (i <> AutoFetchToggleClick ->
      autoFetchEnabled (fst (step w i a)) = autoFetchEnabled a
      /\ autoFetchTimer (fst (step w i a)) = autoFetchTimer a)
  /\ (touches_favorites i = false -> favorites (fst (step w i a)) = favorites a)
  /\ (i = FavoritesToggleClick -> Permutation (favorites (fst (step w i a))) (favorites a))
  /\ visitCount (fst (step w i a)) = visitCount a
  /\ isLoading (fst (step w i a)) = isLoading a
  /\ (i = ShareClick -> set_status (status a) (fst (step w i a)) = a).
Proof.
  split; [intros Hi; apply step_preserved, dispatch_theme, Hi|].
  split; [intros Hi; split; apply step_preserved;
          [apply dispatch_autoFetchEnabled|apply dispatch_autoFetchTimer]; exact Hi|].
  split; [intros Hi; apply step_preserved, dispatch_favorites, Hi|].
  split.
  { intros ->. unfold step. cbn. unfold toggleFavoritesModal.
    match goal with |- context [if ?b then _ else _] => destruct b end; cbn;
      apply (renderFavoritesList_perm (set_favoritesModalVisible _ a)). }
  split; [apply step_preserved, dispatch_visitCount|].
  split; [apply step_preserved, dispatch_isLoading|].
  intros ->. unfold step. cbn. unfold shareArticle.
  destruct a as [current favs th loading enabled timer visits category ls vw st modal].
  cbn. destruct current, (share_result w); reflexivity.
Qed.

End IntentFrames.

(** ** The store during a session, the timer and the start *)

Section SessionFrames.
Context `{Platform}.
Import UIController AppState CONFIG Lifecycle.

Lemma displayArticle_localStorage article a :
  localStorage (displayArticle article a)
  = <[STORAGE_KEYS.LAST_ARTICLE := JSON_stringify (Article.to_json article)]> (localStorage a).
Proof. reflexivity. Qed.

Lemma toggleFavorite_localStorage now a current :
  currentArticle a = Some current ->
  localStorage (toggleFavorite now a)
  = <[STORAGE_KEYS.FAVORITES :=
        JSON_stringify (JArray (List.map Article.to_json (favorites (toggleFavorite now a))))]>
      (localStorage a).
Proof.
  intros Hcur. unfold toggleFavorite. rewrite Hcur.
  destruct (findIndex (pageId current) (favorites a)); reflexivity.
Qed.

Lemma removeFavorite_localStorage pid a :
  localStorage (removeFavorite pid a)
  = <[STORAGE_KEYS.FAVORITES :=
        JSON_stringify
          (JArray (List.map Article.to_json
                     (List.filter (fun fav => negb (loose_eq (pageId fav) pid)) (favorites a))))]>
      (localStorage a).
Proof.
  unfold removeFavorite, renderFavoritesList. cbn [favorites UIController.saveFavorites
    set_localStorage set_favorites].
  destruct (List.filter _ (favorites a)); reflexivity.
Qed.

Lemma toggleTheme_localStorage a :
  localStorage (toggleTheme a)
  = <[STORAGE_KEYS.THEME := theme (toggleTheme a)]> (localStorage a).
Proof. reflexivity. Qed.

Lemma toggleAutoFetch_localStorage a :
  localStorage (toggleAutoFetch a)
  = <[STORAGE_KEYS.AUTO_FETCH := ToString (VBool (negb (autoFetchEnabled a)))]> (localStorage a).
Proof.
  destruct a as [current favs th loading enabled timer visits category ls vw st modal].
  unfold toggleAutoFetch, startAutoFetch, stopAutoFetch.
  destruct enabled, timer; reflexivity.
Qed.

Lemma stored_insert_other (key written item : jsstring) (ls : gmap jsstring jsstring) :
  key <> written -> <[written := item]> ls !! key = ls !! key.
Proof. intros Hne. apply lookup_insert_ne. congruence. Qed.

(** Settles a goal about the item stored under an unwritten key. *)
Ltac by_store Hkey :=
  let b := fresh "b" in
  intros b; unfold stored;
  first
    [ reflexivity
    | rewrite displayArticle_localStorage; apply stored_insert_other;
      intros ->; apply Hkey; left; reflexivity ].

Lemma dispatch_stored key i :
  ~ In key (may_write i) -> ui_preserves (stored key) (dispatch i).
Proof.
  intros Hkey.
  assert (forall written item (ls : gmap jsstring jsstring),
             In written (may_write i) -> <[written := item]> ls !! key = ls !! key) as Hother.
  { intros written item ls Hin. apply stored_insert_other. intros ->. exact (Hkey Hin). }
  destruct i; cbn [dispatch];
    unfold handleSearch, handleCategoryClick, autoFetchTick, fetchRandomArticle;
    repeat frame_step; try by_store Hkey.
  - intros b. unfold stored. rewrite toggleTheme_localStorage.
    apply Hother. left. reflexivity.
  - intros b. unfold stored.
    destruct (currentArticle b) as [current|] eqn:Hcur.
    + rewrite (toggleFavorite_localStorage _ b current Hcur). apply Hother. left. reflexivity.
    + rewrite toggleFavorite_no_article by exact Hcur. reflexivity.
  - intros b. unfold stored, shareArticle.
    destruct (currentArticle b); [|reflexivity].
    match goal with |- context [match ?r with _ => _ end] => destruct r end; reflexivity.
  - intros b. unfold stored, toggleFavoritesModal, renderFavoritesList. cbn.
    destruct (favorites b); cbn; destruct (negb (favoritesModalVisible b)); reflexivity.
  - intros b. unfold stored, openFavorite.
    destruct (find_loose _ (favorites b)); [|reflexivity].
    apply Hother. left. reflexivity.
  - intros b. unfold stored. rewrite removeFavorite_localStorage.
    apply Hother. left. reflexivity.
  - intros b. unfold stored. rewrite toggleAutoFetch_localStorage.
    apply Hother. left. reflexivity.
Qed.

Lemma may_write_session_keys i key : In key (may_write i) -> In key session_keys.
Proof. destruct i; simpl; intuition. Qed.

(** X5.  The handlers write four keys of the store and each intent only
    those of the handlers it reaches: the item under any other key is left
    as it is by every intent, and through a whole session nothing is
    written outside the four keys -- in particular the stored visit count
    is written at the start of a session and never during it. *)
Theorem store_written_by_intent (w : World) (i : Intent) (a : App) (key : jsstring) :
  (~ In key (may_write i) -> stored key (fst (step w i a)) = stored key a)
  /\ (~ In key session_keys ->
      forall script, stored key (run script a) = stored key a)
  /\ (forall script,
        stored STORAGE_KEYS.VISIT_COUNT (run script a) = stored STORAGE_KEYS.VISIT_COUNT a).
Proof.
  assert (forall key', ~ In key' session_keys ->
                       forall script b, stored key' (run script b) = stored key' b) as Hrun.
  { intros key' Hkey script. induction script as [|[w' i'] rest IH]; intros b; [reflexivity|].
    cbn [run]. rewrite IH. apply step_preserved, dispatch_stored.
    intros Hin. apply Hkey, (may_write_session_keys i'), Hin. }
  split; [intros Hkey; apply step_preserved, dispatch_stored, Hkey|].
  split; [intros Hkey script; apply Hrun, Hkey|].
  intros script. apply Hrun. unfold session_keys.
  intros Hin. repeat (destruct Hin as [Hin|Hin]; [discriminate Hin|]). exact Hin.
Qed.

End SessionFrames.

Section TimerAndStart.
Context `{Platform}.
Import UIController AppState CONFIG Lifecycle.

(** The "next" handler catches every error: it always returns. *)
Lemma fetchRandomArticle_returns w s :
  fst (fetchRandomArticle w s) = Return tt.
Proof.
  unfold fetchRandomArticle, try_catch, bind, update, modify, read, gets, ret. cbn [app effects].
  destruct (category_selected (showSkeleton (app s))) as [category|]; cbn [app effects];
    unfold call; cbn [app effects];
    match goal with
    | |- context [?m w (effects s)] => destruct (m w (effects s)) as [[article|message] e]
    end; reflexivity.
Qed.

Lemma tick_step w a :
  step w AutoFetchTimerTick a
  = if autoFetchTimer a && negb (isLoading a) then step w NextClick a else (a, []).
Proof.
  unfold step. cbn [dispatch]. unfold autoFetchTick, bind, read, gets. cbn [app effects].
  destruct (autoFetchTimer a && negb (isLoading a)); reflexivity.
Qed.

Lemma toggleAutoFetch_timer a :
  autoFetchEnabled (toggleAutoFetch a) = negb (autoFetchEnabled a)
  /\ autoFetchTimer (toggleAutoFetch a) = negb (autoFetchEnabled a).
Proof.
  destruct a as [current favs th loading enabled timer visits category ls vw st modal].
  unfold toggleAutoFetch, startAutoFetch, stopAutoFetch.
  destruct enabled, timer; split; reflexivity.
Qed.

Lemma step_timer_matches_flag w i a :
  autoFetchTimer a = autoFetchEnabled a ->
  autoFetchTimer (fst (step w i a)) = autoFetchEnabled (fst (step w i a)).
Proof.
  intros Hinv.
  assert (i = AutoFetchToggleClick \/ i <> AutoFetchToggleClick) as [->|Hi]
    by (destruct i; (left; reflexivity) || (right; discriminate)).
  - unfold step. cbn. destruct (toggleAutoFetch_timer a) as [-> ->]. reflexivity.
  - rewrite (step_preserved autoFetchTimer), (step_preserved autoFetchEnabled);
      [exact Hinv|apply dispatch_autoFetchEnabled, Hi|apply dispatch_autoFetchTimer, Hi].
Qed.

Lemma start_step w a :
  start w a
  = (let a1 := fst (step w NextClick (clearCategorySelection a)) in
     if autoFetchEnabled a1 then startAutoFetch a1 else a1,
     snd (step w NextClick (clearCategorySelection a))).
Proof.
  unfold start, init, step. cbn [dispatch].
  unfold bind at 1. unfold update at 1, modify. cbn [app effects].
  unfold bind at 1.
  pose proof (fetchRandomArticle_returns w
                {| app := clearCategorySelection a; effects := no_effects |}) as Hret.
  destruct (fetchRandomArticle w {| app := clearCategorySelection a; effects := no_effects |})
    as [r s]. cbn [fst] in Hret. subst r.
  unfold bind, read, gets, update, modify, ret. cbn [app effects fst snd].
  destruct (autoFetchEnabled (app s)); reflexivity.
Qed.

Lemma start_app w a :
  fst (start w a)
  = (let a1 := fst (step w NextClick (clearCategorySelection a)) in
     if autoFetchEnabled a1 then startAutoFetch a1 else a1).
Proof. rewrite start_step. reflexivity. Qed.

Lemma react_isLoading w e a : isLoading (react w e a) = isLoading a.
Proof.
  destruct e as [i|hidden|]; cbn [react].
  - apply step_preserved, dispatch_isLoading.
  - unfold visibilityChange, startAutoFetch, stopAutoFetch.
    destruct hidden, (autoFetchEnabled a), (autoFetchTimer a); reflexivity.
  - rewrite start_app. cbv zeta.
    assert (isLoading (fst (step w NextClick (clearCategorySelection a))) = isLoading a)
      as Hnext by (rewrite (step_preserved isLoading) by apply dispatch_isLoading; reflexivity).
    rewrite <- Hnext.
    destruct (autoFetchEnabled _); [|reflexivity].
    unfold startAutoFetch, stopAutoFetch.
    destruct (autoFetchTimer _); reflexivity.
Qed.

Lemma react_timer_needs_flag w e a :
  (autoFetchTimer a = true -> autoFetchEnabled a = true) ->
  autoFetchTimer (react w e a) = true -> autoFetchEnabled (react w e a) = true.
Proof.
  intros Hinv. destruct e as [i|hidden|]; cbn [react].
  - assert (i = AutoFetchToggleClick \/ i <> AutoFetchToggleClick) as [->|Hi]
      by (destruct i; (left; reflexivity) || (right; discriminate)).
    + unfold step. cbn. destruct (toggleAutoFetch_timer a) as [-> ->]. auto.
    + rewrite (step_preserved autoFetchTimer), (step_preserved autoFetchEnabled);
        [exact Hinv|apply dispatch_autoFetchEnabled, Hi|apply dispatch_autoFetchTimer, Hi].
  - unfold visibilityChange, startAutoFetch, stopAutoFetch.
    destruct a as [current favs th loading enabled timer visits category ls vw st modal].
    cbn in *. destruct hidden, enabled, timer; cbn; auto.
  - rewrite start_app. cbv zeta.
    set (a1 := fst (step w NextClick (clearCategorySelection a))).
    assert (autoFetchEnabled a1 = autoFetchEnabled a) as Henabled
        by (unfold a1; rewrite (step_preserved autoFetchEnabled)
              by (apply dispatch_autoFetchEnabled; discriminate); reflexivity).
    assert (autoFetchTimer a1 = autoFetchTimer a) as Htimer
        by (unfold a1; rewrite (step_preserved autoFetchTimer)
              by (apply dispatch_autoFetchTimer; discriminate); reflexivity).
    destruct (autoFetchEnabled a1) eqn:Hflag.
    + intros _. unfold startAutoFetch, stopAutoFetch.
      destruct (autoFetchTimer a1); exact Hflag.
    + intros Harmed. rewrite Htimer in Harmed. apply Hinv in Harmed.
      rewrite <- Henabled in Harmed. discriminate Harmed.
Qed.

(** X6.  A tick of the timer does nothing while no timer is armed, and
    otherwise is a "next" intent: no handler ever sets [isLoading], so the
    busy test of the tick never skips a fetch.  After auto-fetch is switched
    off, a tick changes nothing and sends nothing.  From a state in which a
    timer is armed only with auto-fetch enabled -- such as the state the
    constructor leaves, which has no timer -- this stays so through every
    history of intents, visibility changes and [init].  The converse does
    not hold, as hiding the page
    disarms the timer and leaves the flag; but through intents alone, from
    a state in which the timer is armed exactly when auto-fetch is enabled,
    it stays armed exactly when auto-fetch is enabled. *)
Theorem autoFetch_ticks (w : World) (a : App) :
  (autoFetchTimer a = false -> step w AutoFetchTimerTick a = (a, []))
  /\ (autoFetchTimer a = true -> isLoading a = false ->
      step w AutoFetchTimerTick a = step w NextClick a)
  /\ (autoFetchEnabled a = true ->
      step w AutoFetchTimerTick (toggleAutoFetch a) = (toggleAutoFetch a, []))
  /\ (forall history, isLoading (play history a) = isLoading a)
  /\ ((autoFetchTimer a = true -> autoFetchEnabled a = true) ->
      forall history,
        autoFetchTimer (play history a) = true -> autoFetchEnabled (play history a) = true)
  /\ (autoFetchTimer (visibilityChange true a) = false
      /\ autoFetchEnabled (visibilityChange true a) = autoFetchEnabled a)
  /\ (autoFetchTimer a = autoFetchEnabled a ->
      forall script, autoFetchTimer (run script a) = autoFetchEnabled (run script a)).
Proof.
  split; [intros Htimer; rewrite tick_step, Htimer; reflexivity|].
  split; [intros Htimer Hloading; rewrite tick_step, Htimer, Hloading; reflexivity|].
  split.
  { intros Henabled. rewrite tick_step.
    destruct (toggleAutoFetch_timer a) as [_ ->].
    rewrite Henabled. reflexivity. }
  split.
  { intros history. revert a.
    induction history as [|[w' e'] rest IH]; intros a; [reflexivity|].
    cbn [play]. rewrite IH. apply react_isLoading. }
  split.
  { intros Hinv history. revert a Hinv.
    induction history as [|[w' e'] rest IH]; intros a Hinv; [exact Hinv|].
    cbn [play]. apply IH, react_timer_needs_flag, Hinv. }
  split.
  { unfold visibilityChange, stopAutoFetch.
    destruct (autoFetchTimer a) eqn:Htimer; split; cbn; auto. }
  intros Hinv script. revert a Hinv.
  induction script as [|[w' i'] rest IH]; intros a Hinv; [exact Hinv|].
  cbn [run]. apply IH, step_timer_matches_flag, Hinv.
Qed.

(** X7.  [init], which starts the application, always sends one
    random-summary request and nothing else, whatever category was
    selected before, ends with the article shown or with the error view,
    and arms the timer when auto-fetch is enabled.  Hiding the page disarms the timer; showing it
    again arms it exactly when auto-fetch is enabled. *)
Theorem start_and_visibility (w : World) (a : App) :
  snd (start w a) = [GetRandomSummary]
  /\ selectedCategory (fst (start w a)) = None
  /\ (view (fst (start w a)) = Displaying \/ exists message, view (fst (start w a)) = Error message)
  /\ autoFetchEnabled (fst (start w a)) = autoFetchEnabled a
  /\ autoFetchTimer (fst (start w a)) = autoFetchEnabled a || autoFetchTimer a
  /\ autoFetchTimer (visibilityChange true a) = false
  /\ autoFetchTimer (visibilityChange false (visibilityChange true a)) = autoFetchEnabled a.
Proof.
  rewrite start_step. cbv zeta. cbn [fst snd].
  rewrite fetchRandomArticle_step. cbn [fst snd].
  unfold next_provider_call.
  change (category_selected (clearCategorySelection a)) with (@None jsstring).
  cbv iota. rewrite fetchRandomArticle_run. cbn [fst snd requests sent no_effects app].
  split; [reflexivity|].
  destruct a as [current favs th loading enabled timer visits category ls vw st modal].
  unfold visibilityChange, startAutoFetch, stopAutoFetch.
  destruct (response_data (net_random_summary w)) as [data|];
    [destruct (WikipediaService.normalizeArticleData data (clock w)) as [article|message]|]; cbn;
    destruct enabled, timer; cbn; repeat split; eauto.
Qed.

End TimerAndStart.

(** ** Favourites: the store, the button and the removal *)

Section FavoritesStore.
Context `{Platform}.
Import UIController AppState CONFIG Lifecycle.

Lemma saveFavorites_stored a :
  stored STORAGE_KEYS.FAVORITES (UIController.saveFavorites a)
  = Some (JSON_stringify (JArray (List.map Article.to_json (favorites a)))).
Proof. unfold stored, UIController.saveFavorites, AppState.saveFavorites. cbn. apply stored_after_insert. Qed.

Lemma toggleFavorite_persisted now a :
  currentArticle a <> None -> favorites_persisted (toggleFavorite now a).
Proof.
  intros Hcur. unfold toggleFavorite.
  destruct (currentArticle a) as [current|]; [|contradiction].
  match goal with |- favorites_persisted (UIController.saveFavorites ?b) =>
    exists (favorites b); split; [apply saveFavorites_stored|reflexivity] end.
Qed.

Lemma removeFavorite_persisted pid a : favorites_persisted (removeFavorite pid a).
Proof.
  unfold removeFavorite. cbv zeta.
  match goal with
  | |- favorites_persisted (showStatus _ _ (renderFavoritesList (UIController.saveFavorites ?b))) =>
      exists (favorites b); split
  end.
  - change (stored STORAGE_KEYS.FAVORITES (showStatus ?m ?t ?x))
      with (stored STORAGE_KEYS.FAVORITES x).
    unfold renderFavoritesList.
    match goal with |- context [match ?l with [] => _ | _ :: _ => _ end] => destruct l end;
      apply saveFavorites_stored.
  - symmetry.
    change (favorites (showStatus ?m ?t ?x)) with (favorites x).
    rewrite renderFavoritesList_perm. reflexivity.
Qed.

Lemma step_persisted w i a :
  favorites_persisted a -> favorites_persisted (fst (step w i a)).
Proof.
  intros Hinv.
  destruct (touches_favorites i) eqn:Htouch.
  - destruct i; try discriminate.
    + unfold step. cbn. destruct (currentArticle a) as [current|] eqn:Hcur.
      * apply toggleFavorite_persisted. congruence.
      * rewrite toggleFavorite_no_article by exact Hcur. exact Hinv.
    + destruct Hinv as (saved & Hstored & Hperm). exists saved. split.
      * rewrite <- Hstored. apply step_preserved, dispatch_stored. cbn. intros Hin. exact Hin.
      * rewrite Hperm. symmetry. unfold step. cbn. unfold toggleFavoritesModal.
        match goal with |- context [if ?b then _ else _] => destruct b end; cbn;
          apply (renderFavoritesList_perm (set_favoritesModalVisible _ a)).
    + unfold step. cbn. apply removeFavorite_persisted.
  - destruct Hinv as (saved & Hstored & Hperm). exists saved. split.
    + rewrite <- Hstored. apply step_preserved, dispatch_stored.
      destruct i; try discriminate; cbn; intros Hin; try exact Hin;
        (destruct Hin as [Heq|Hin]; [discriminate Heq|exact Hin]).
    + rewrite Hperm. rewrite (step_preserved favorites); [reflexivity|].
      apply dispatch_favorites, Htouch.
Qed.

(** X8.  Every removal, and every click of the favourite button while an
    article is shown, leaves in the store the list of favourites of the
    application, up to the order (the dialog sorts the list after it was
    saved); and once the store lists the favourites it does so through the
    whole session. *)
Theorem favorites_are_persisted (w : World) (a : App) :
  (forall pid, favorites_persisted (fst (step w (RemoveFavoriteClick pid) a)))
  /\ (currentArticle a <> None -> favorites_persisted (fst (step w FavoriteClick a)))
  /\ (favorites_persisted a -> forall script, favorites_persisted (run script a)).
Proof.
  split; [intros pid; unfold step; cbn; apply removeFavorite_persisted|].
  split; [intros Hcur; unfold step; cbn; apply toggleFavorite_persisted, Hcur|].
  intros Hinv script. revert a Hinv.
  induction script as [|[w' i'] rest IH]; intros a Hinv; [exact Hinv|].
  cbn [run]. apply IH, step_persisted, Hinv.
Qed.

Lemma existsb_pageId pid favs :
  existsb (fun fav => strict_eq (pageId fav) pid) favs = true
  <-> In pid (List.map pageId favs).
Proof.
  rewrite existsb_exists, in_map_iff. split.
  - intros (fav & Hin & Heq). apply strict_eq_true_iff in Heq. eauto.
  - intros (fav & Heq & Hin). exists fav. split; [exact Hin|].
    apply strict_eq_true_iff, Heq.
Qed.

Lemma existsb_pageId_false pid favs :
  ~ In pid (List.map pageId favs) ->
  existsb (fun fav => strict_eq (pageId fav) pid) favs = false.
Proof.
  intros Hnot. apply Bool.not_true_is_false. intros Htrue.
  apply Hnot, existsb_pageId, Htrue.
Qed.

(** X9.  The favourite button is a switch.  With an article on display and
    no page saved twice, one click flips what [updateFavoriteButton] shows
    ("Saved" or "Save"), and the count shown by [updateFavoritesCount] goes
    down by one when the article was saved and up by one when it was not,
    in which case the badge is visible; the store then lists exactly the
    favourites. *)
Theorem toggleFavorite_flips (now : jsstring) (a : App) (current : Article) :
  currentArticle a = Some current ->
  unique_pageIds (favorites a) ->
  isFavorited (toggleFavorite now a) = option_map negb (isFavorited a)
  /\ (isFavorited a = Some true ->
      fst (favoritesCount (toggleFavorite now a)) = fst (favoritesCount a) - 1)
  /\ (isFavorited a = Some false ->
      favoritesCount (toggleFavorite now a) = (fst (favoritesCount a) + 1, true))
  /\ stored STORAGE_KEYS.FAVORITES (toggleFavorite now a)
     = Some (JSON_stringify (JArray (List.map Article.to_json
                                       (favorites (toggleFavorite now a))))).
Proof.
  intros Hcur Huniq.
  assert (Hstore : stored STORAGE_KEYS.FAVORITES (toggleFavorite now a)
     = Some (JSON_stringify (JArray (List.map Article.to_json
                                       (favorites (toggleFavorite now a)))))).
  { unfold toggleFavorite. rewrite Hcur.
    match goal with |- context [UIController.saveFavorites ?b] =>
      change (favorites (UIController.saveFavorites b)) with (favorites b) end.
    apply saveFavorites_stored. }
  unfold isFavorited, favoritesCount. rewrite toggleFavorite_currentArticle, Hcur.
  cbn [option_map fst].
  destruct (toggleFavorite_favorites now a current Hcur)
    as [(before & fav & after & Hfavs & Hid & Hnot & Hnew)|[Hnot Hnew]];
    rewrite Hnew in Hstore |- *.
  - assert (Hin : existsb (fun fav => strict_eq (pageId fav) (pageId current)) (favorites a)
                  = true).
    { apply existsb_pageId. rewrite Hfavs, List.map_app, in_app_iff. right. left. exact Hid. }
    assert (Hout : existsb (fun fav => strict_eq (pageId fav) (pageId current))
                     (before ++ after) = false).
    { apply existsb_pageId_false. unfold unique_pageIds in Huniq.
      rewrite Hfavs, List.map_app in Huniq. cbn [List.map] in Huniq.
      apply List.NoDup_remove_2 in Huniq. rewrite Hid in Huniq.
      rewrite List.map_app. exact Huniq. }
    rewrite Hin, Hout. split; [reflexivity|]. split; [|split; [discriminate|exact Hstore]].
    intros _. rewrite Hfavs, !length_app. cbn [length]. lia.
  - rewrite (existsb_pageId_false _ _ Hnot).
    assert (Hin : existsb (fun fav => strict_eq (pageId fav) (pageId current))
                    (favorites a ++ [with_savedAt current now]) = true).
    { apply existsb_pageId. rewrite List.map_app, in_app_iff. right. left. reflexivity. }
    rewrite Hin. split; [reflexivity|]. split; [discriminate|]. split; [|exact Hstore].
    intros _. rewrite length_app. cbn [length].
    replace (Z.of_nat (length (favorites a) + 1)) with (Z.of_nat (length (favorites a)) + 1)
      by lia.
    f_equal. apply Z.ltb_lt. lia.
Qed.

End FavoritesStore.

Section FavoriteButtons.
Context `{Platform}.
Import UIController AppState CONFIG Lifecycle.

Lemma loose_eq_refl v : loose_eq v v = true.
Proof.
  destruct v as [| |b|n|s]; cbn; try reflexivity.
  - apply Z.eqb_refl.
  - apply Z.eqb_refl.
  - unfold JsString.eqb. apply bool_decide_eq_true. reflexivity.
Qed.

Lemma strict_loose_eq x y : strict_eq x y = true -> loose_eq x y = true.
Proof. intros Heq. apply strict_eq_true_iff in Heq. subst y. apply loose_eq_refl. Qed.

Lemma filter_perm {A} (keep : A -> bool) (l l' : list A) :
  Permutation l l' -> Permutation (List.filter keep l) (List.filter keep l').
Proof.
  induction 1 as [|x l l' _ IH|x y l|l l' l'' _ IH1 _ IH2]; cbn.
  - reflexivity.
  - destruct (keep x); [constructor|]; exact IH.
  - destruct (keep x), (keep y); try reflexivity. apply perm_swap.
  - etransitivity; eassumption.
Qed.

Lemma filter_twice {A} (keep : A -> bool) (l : list A) :
  List.filter keep (List.filter keep l) = List.filter keep l.
Proof.
  induction l as [|x l IH]; cbn; [reflexivity|].
  destruct (keep x) eqn:E; cbn; rewrite ?E, IH; reflexivity.
Qed.

Lemma filter_swap {A} (f g : A -> bool) (l : list A) :
  List.filter f (List.filter g l) = List.filter g (List.filter f l).
Proof.
  induction l as [|x l IH]; cbn; [reflexivity|].
  destruct (f x) eqn:Ef, (g x) eqn:Eg; cbn; rewrite ?Ef, ?Eg, IH; reflexivity.
Qed.

Lemma removeFavorite_In pid a fav :
  In fav (favorites (removeFavorite pid a))
  <-> In fav (favorites a) /\ loose_eq (pageId fav) pid = false.
Proof.
  split.
  - intros Hin. apply (Permutation_in _ (removeFavorite_perm pid a)) in Hin.
    apply filter_In in Hin as [Hin Hkeep]. split; [exact Hin|].
    apply Bool.negb_true_iff, Hkeep.
  - intros [Hin Hkeep]. apply (Permutation_in _ (Permutation_sym (removeFavorite_perm pid a))).
    apply filter_In. split; [exact Hin|]. apply Bool.negb_true_iff, Hkeep.
Qed.

Lemma removeFavorite_currentArticle pid a :
  currentArticle (removeFavorite pid a) = currentArticle a.
Proof.
  unfold removeFavorite, renderFavoritesList. cbn.
  match goal with |- context [match ?l with [] => _ | _ :: _ => _ end] => destruct l end;
    reflexivity.
Qed.

(** X10.  A removal never lengthens the list and leaves no favourite whose
    page id is [==] to its argument; removing the same id again changes the
    list at most in its order, and two removals give the same favourites in
    either order.  It leaves the article on display, and after the removal
    of that article's own page id the favourite button shows "Save". *)
Theorem removeFavorite_removes (pid : value) (a : App) :
  (length (favorites (removeFavorite pid a)) <= length (favorites a))%nat
  /\ find_loose pid (favorites (removeFavorite pid a)) = None
  /\ Permutation (favorites (removeFavorite pid (removeFavorite pid a)))
       (favorites (removeFavorite pid a))
  /\ (forall other,
        Permutation (favorites (removeFavorite pid (removeFavorite other a)))
          (favorites (removeFavorite other (removeFavorite pid a))))
  /\ currentArticle (removeFavorite pid a) = currentArticle a
  /\ (forall current,
        currentArticle a = Some current -> pageId current = pid ->
        isFavorited (removeFavorite pid a) = Some false).
Proof.
  split.
  { rewrite (Permutation_length (removeFavorite_perm pid a)). apply filter_length_le. }
  split.
  { apply find_loose_None. intros fav Hin.
    apply removeFavorite_In in Hin. apply Hin. }
  split.
  { rewrite (removeFavorite_perm pid (removeFavorite pid a)).
    rewrite (filter_perm _ _ _ (removeFavorite_perm pid a)).
    rewrite filter_twice. symmetry. apply removeFavorite_perm. }
  split.
  { intros other.
    rewrite (removeFavorite_perm pid (removeFavorite other a)).
    rewrite (filter_perm _ _ _ (removeFavorite_perm other a)).
    rewrite (removeFavorite_perm other (removeFavorite pid a)).
    rewrite (filter_perm _ _ _ (removeFavorite_perm pid a)).
    rewrite filter_swap. reflexivity. }
  split; [apply removeFavorite_currentArticle|].
  intros current Hcur Hpid. unfold isFavorited.
  rewrite removeFavorite_currentArticle, Hcur. f_equal.
  apply Bool.not_true_is_false. intros Hsome.
  apply existsb_exists in Hsome as (fav & Hin & Heq).
  apply removeFavorite_In in Hin as [_ Hkeep].
  apply strict_loose_eq in Heq. congruence.
Qed.

(** The text of a page id that is neither a number nor a string is no
    numeral. *)
Lemma other_text_not_loose (v : value) :
  match v with VNumber _ | VString _ => False | _ => True end ->
  loose_eq v (VString (ToString v)) = false.
Proof. destruct v as [| |[]|n|s]; intros Hv; try contradiction; reflexivity. Qed.

(** X11.  The buttons of the favourites dialog pass the page id as text.
    For a favourite whose page id is a number (printed with all its
    digits, as numbers below 10^21 are), that text is [==] to the page id:
    the remove button leaves no favourite with this page id and takes the
    favourite itself off the list, and the open button displays an article
    and closes the dialog. *)
Theorem favorite_buttons (n : Z) (fav : Article) (a : App) :
  Z.abs n < 10 ^ 21 ->
  pageId fav = VNumber n ->
  In fav (favorites a) ->
  loose_eq (pageId fav) (button_argument fav) = true
  /\ ~ In fav (favorites (removeFavorite (button_argument fav) a))
  /\ Forall (fun other => pageId other <> VNumber n)
       (favorites (removeFavorite (button_argument fav) a))
  /\ (exists article,
        currentArticle (openFavorite (button_argument fav) a) = Some article
        /\ loose_eq (pageId article) (button_argument fav) = true)
  /\ view (openFavorite (button_argument fav) a) = Displaying
  /\ favoritesModalVisible (openFavorite (button_argument fav) a) = false.
Proof.
  intros _ Hpid Hin.
  assert (Hloose : forall other, pageId other = VNumber n ->
                                 loose_eq (pageId other) (button_argument fav) = true).
  { intros other Hother. unfold button_argument. rewrite Hother, Hpid. cbn.
    rewrite StringToNumber_NumberToString. apply Z.eqb_refl. }
  split; [apply Hloose, Hpid|].
  split.
  { intros Hkept. apply removeFavorite_In in Hkept as [_ Hkeep].
    rewrite (Hloose fav Hpid) in Hkeep. discriminate. }
  split.
  { apply List.Forall_forall. intros other Hkept Hother.
    apply removeFavorite_In in Hkept as [_ Hkeep].
    rewrite (Hloose other Hother) in Hkeep. discriminate. }
  unfold openFavorite.
  destruct (find_loose (button_argument fav) (favorites a)) as [article|] eqn:Efind.
  - apply find_loose_Some in Efind as (before & after & _ & Hmatch & _).
    cbn. split; [|split; reflexivity]. exists article. split; [reflexivity|exact Hmatch].
  - exfalso. pose proof (proj1 (find_loose_None _ _) Efind) as Hnone.
    specialize (Hnone fav Hin).
    rewrite (Hloose fav Hpid) in Hnone. discriminate.
Qed.

(** X12.  A favourite whose page id is [undefined], [null] or a boolean
    cannot be removed from the dialog: the text its buttons pass
    ("undefined", "null", "true", "false") is not [==] to the page id, so
    the remove button keeps it on the list, and the open button can only
    open a favourite whose page id is a string. *)
Theorem favorite_buttons_miss (fav : Article) (a : App) :
  match pageId fav with VNumber _ | VString _ => False | _ => True end ->
  In fav (favorites a) ->
  loose_eq (pageId fav) (button_argument fav) = false
  /\ In fav (favorites (removeFavorite (button_argument fav) a))
  /\ (forall article,
        find_loose (button_argument fav) (favorites a) = Some article ->
        pageId article = VString (ToString (pageId fav))).
Proof.
  intros Hother Hin.
  pose proof (other_text_not_loose (pageId fav) Hother) as Hmiss.
  split; [exact Hmiss|].
  split; [apply removeFavorite_In; split; assumption|].
  intros article Hfind.
  apply find_loose_Some in Hfind as (before & after & _ & Hmatch & _).
  unfold button_argument in Hmatch.
  destruct (pageId fav) as [| |[]|n|s]; try contradiction;
    destruct (pageId article) as [| |[]|m|t]; try discriminate Hmatch;
    cbn in Hmatch; unfold JsString.eqb in Hmatch;
    apply bool_decide_eq_true in Hmatch; subst; reflexivity.
Qed.

End FavoriteButtons.

(** ** The provider's data: counts and the normalised article *)

Section TextMeasures.
Import WikipediaService.

Lemma count_tokens_started t :
  (count_tokens true t <= count_tokens false t <= count_tokens true t + 1)%nat.
Proof. destruct t as [|c t]; cbn; [lia|]. destruct (isWhiteSpace c); lia. Qed.

Lemma count_tokens_app s t : forall b,
  (count_tokens b s + count_tokens false t <= count_tokens b (s ++ t) + 1
   /\ count_tokens b (s ++ t) <= count_tokens b s + count_tokens false t)%nat.
Proof.
  induction s as [|c s IH]; intros b; cbn.
  - pose proof (count_tokens_started t). destruct b; lia.
  - destruct (isWhiteSpace c); [apply IH|].
    specialize (IH true). destruct b; lia.
Qed.

Lemma count_tokens_separated s sep t : forall b,
  is_blank sep -> sep <> [] ->
  count_tokens b (s ++ sep ++ t) = (count_tokens b s + count_tokens false t)%nat.
Proof.
  intros b Hsep Hne. revert b. induction s as [|c s IH]; intros b; cbn.
  - destruct (count_tokens_blank sep b t Hsep) as [E|[E _]]; [exact E|contradiction].
  - destruct (isWhiteSpace c); [apply IH|]. rewrite IH. lia.
Qed.

Lemma count_tokens_length s :
  (2 * count_tokens false s <= length s + 1 /\ 2 * count_tokens true s <= length s)%nat.
Proof.
  induction s as [|c s [IHf IHt]]; cbn; [lia|].
  destruct (isWhiteSpace c); lia.
Qed.

(** X13.  Word counts compose.  Two texts joined by white space have the
    words of both; joined without it they have the same number or one word
    less, as the last word of the first and the first of the second may
    become one.  A text of [n] code units has at most [(n + 1) / 2] words,
    and a text with no fewer words takes no less reading time, which never
    exceeds the word count. *)
Theorem estimateWordCount_compose (s t sep : jsstring) :
  is_blank sep -> sep <> [] ->
  estimateWordCount (s ++ sep ++ t) = estimateWordCount s + estimateWordCount t
  /\ estimateWordCount s + estimateWordCount t - 1 <= estimateWordCount (s ++ t)
     <= estimateWordCount s + estimateWordCount t
  /\ 0 <= 2 * estimateWordCount s <= Z.of_nat (length s) + 1
  /\ (estimateWordCount s <= estimateWordCount t ->
      estimateReadingTime s <= estimateReadingTime t)
  /\ 0 <= estimateReadingTime s <= estimateWordCount s.
Proof.
  intros Hsep Hne. rewrite !estimateReadingTime_div, !estimateWordCount_token_count.
  unfold token_count.
  rewrite (count_tokens_separated s sep t false Hsep Hne).
  pose proof (count_tokens_app s t false) as Happ.
  pose proof (count_tokens_length s) as Hlen.
  split; [lia|]. split; [lia|]. split; [lia|]. split.
  - intros Hle. apply Z.opp_le_mono. rewrite !Z.opp_involutive.
    apply Z.div_le_mono; lia.
  - set (words := Z.of_nat (count_tokens false s)).
    assert (0 <= words) by (unfold words; lia).
    pose proof (Z.div_mod (- words) 200 ltac:(lia)).
    pose proof (Z.mod_pos_bound (- words) 200 ltac:(lia)).
    lia.
Qed.

Section Normalised.
Context `{Platform}.

Lemma or_else_not_empty o fallback : fallback <> [] -> or_else o fallback <> [].
Proof.
  intros Hne. unfold or_else. destruct o as [[|c s]|]; cbn; [exact Hne|discriminate|exact Hne].
Qed.

Lemma or_else_empty o : or_else o [] = match o with Some s => s | None => [] end.
Proof. destruct o as [[|c s]|]; reflexivity. Qed.

(** X14.  [normalizeArticleData] builds an article unless the provider
    sent no page address and a title with a lone surrogate, which
    [encodeURIComponent] refuses.  Every article it builds has a
    non-empty title, summary and address, an image that is either absent
    or a non-empty address, no [savedAt], the provider's page id, and
    counts that fit its summary: at most [(n + 1) / 2] words for a summary
    of [n] code units and a reading time between zero and the word count.
    When the provider sent no title, the title is the placeholder while
    the text of the image still reads "undefined". *)
Theorem normalizeArticleData_invariants (data : RawSummary) (now : jsstring) :
  ((exists article, normalizeArticleData data now = Return article)
   <-> (truthy_string (raw_desktop_page data) <> None
        \/ isWellFormed (ToString (optional_string (raw_title data))) = true))
  /\ forall article,
       normalizeArticleData data now = Return article ->
       title article <> []
       /\ summary article <> []
       /\ url article <> []
       /\ image article <> Some []
       /\ savedAt article = None
       /\ pageId article = raw_pageid data
       /\ 0 <= 2 * wordCount article <= Z.of_nat (length (summary article)) + 1
       /\ 0 <= readingTime article <= wordCount article
       /\ (raw_title data = None ->
           title article = lit "Unknown Title"
           /\ imageAlt article = lit "Image related to undefined").
Proof.
  split.
  { unfold normalizeArticleData, article_url, encodeURIComponent_call.
    destruct (truthy_string (raw_desktop_page data)) as [page|].
    - split; [intros _; left; discriminate|intros _; eexists; reflexivity].
    - destruct (encodeURIComponent (ToString (optional_string (raw_title data))))
        as [encoded|] eqn:Hencoded.
      + split; [|intros _; eexists; reflexivity].
        intros _. right. apply Bool.not_false_is_true. intros Hill.
        apply encodeURIComponent_URIError in Hill. congruence.
      + apply encodeURIComponent_URIError in Hencoded.
        split; [intros [article Hbuilt]; discriminate|].
        intros [Hpage|Hwell]; congruence. }
  intros article Hbuilt.
  destruct (normalizeArticleData_fields data now article Hbuilt)
    as (Htitle & Hsummary & Hurl & Himage & Halt & Hpid & _ & Hwc & Hrt & Hsaved).
  rewrite Htitle, Hsummary, Himage, Halt, Hwc, Hrt.
  split; [apply or_else_not_empty; discriminate|].
  split; [apply or_else_not_empty; discriminate|].
  split.
  { unfold article_url, encodeURIComponent_call in Hurl.
    destruct (raw_desktop_page data) as [[|c page]|]; cbn in Hurl;
      try (destruct (encodeURIComponent _); [|discriminate]);
      injection Hurl as <-; discriminate. }
  split.
  { destruct (raw_thumbnail_source data) as [[|c s]|];
      destruct (raw_originalimage_source data) as [[|c' s']|]; cbn; discriminate. }
  split; [exact Hsaved|]. split; [exact Hpid|].
  rewrite or_else_empty.
  split.
  { destruct (raw_extract data) as [[|c s]|]; cbn [or_else JsString.truthy];
      rewrite estimateWordCount_token_count; unfold token_count.
    - cbn [count_tokens]. lia.
    - pose proof (count_tokens_length (c :: s)). lia.
    - cbn [count_tokens]. lia. }
  split.
  { set (text := match raw_extract data with Some s => s | None => [] end).
    rewrite estimateReadingTime_div, estimateWordCount_token_count.
    set (words := Z.of_nat (token_count text)).
    assert (0 <= words) by (unfold words; lia).
    pose proof (Z.div_mod (- words) 200 ltac:(lia)).
    pose proof (Z.mod_pos_bound (- words) 200 ltac:(lia)).
    lia. }
  intros ->. split; reflexivity.
Qed.

End Normalised.

End TextMeasures.

(** ** The article on display and the stored last article *)

(** Leaves one goal per state update of the handlers an intent reaches. *)
Ltac frame_intent :=
  cbn [UIController.dispatch];
  unfold UIController.handleSearch, UIController.handleCategoryClick,
    UIController.autoFetchTick, UIController.fetchRandomArticle;
  repeat frame_step.

(** Settles a goal about one state update by cases on what it tests. *)
Ltac by_cases_of_update :=
  let b := fresh "b" in
  intros b;
  repeat first
    [ progress unfold UIController.toggleTheme, UIController.toggleFavorite,
        UIController.shareArticle, UIController.toggleFavoritesModal,
        UIController.renderFavoritesList, UIController.openFavorite,
        UIController.removeFavorite, UIController.toggleAutoFetch,
        UIController.startAutoFetch, UIController.stopAutoFetch,
        UIController.closeFavoritesModal, UIController.clearCategorySelection,
        UIController.displayArticle, UIController.saveFavorites,
        UIController.saveLastArticle, UIController.showStatus, UIController.showSkeleton,
        UIController.showError
    | progress cbn
    | match goal with
      | |- context [match ?x with _ => _ end] => destruct x eqn:?
      end ];
  try reflexivity; try assumption.

Section DisplayAndStore.
Context `{Platform}.
Import UIController AppState CONFIG Lifecycle.

Lemma dispatch_currentArticle i :
  displays i = false -> ui_preserves currentArticle (dispatch i).
Proof. intros Hi. destruct i; try discriminate; frame_intent; by_cases_of_update. Qed.

Lemma dispatch_view i : displays i = false -> ui_preserves view (dispatch i).
Proof. intros Hi. destruct i; try discriminate; frame_intent; by_cases_of_update. Qed.

Lemma display_kept_refl a : display_kept a a.
Proof. repeat split. left. reflexivity. Qed.

Lemma displayArticle_shown article a :
  shown_and_stored (displayArticle article a).
Proof.
  exists article. split; [reflexivity|]. split; [|reflexivity].
  unfold stored. rewrite displayArticle_localStorage. apply stored_after_insert.
Qed.

Lemma showStatus_shown message type a :
  shown_and_stored a -> shown_and_stored (showStatus message type a).
Proof. intros (article & Hcur & Hstored & Hview). exists article. auto. Qed.

Lemma failed_kept message status type a a1 :
  currentArticle a1 = currentArticle a ->
  localStorage a1 = localStorage a ->
  display_kept a (showStatus status type (showError message a1)).
Proof.
  intros Hcur Hls. split; [exact Hcur|]. split.
  - unfold stored. cbn. rewrite Hls. reflexivity.
  - right. exists message. reflexivity.
Qed.

Lemma next_outcome w a :
  shown_and_stored (fst (step w NextClick a)) \/ display_kept a (fst (step w NextClick a)).
Proof.
  rewrite fetchRandomArticle_step. cbn [fst].
  destruct (category_selected a) as [category|]; cbv zeta;
    match goal with
    | |- context [match ?r with Return _ => _ | Throw _ => _ end] => destruct r as [article|message]
    end;
    first [ left; apply displayArticle_shown
          | right; apply failed_kept; reflexivity ].
Qed.

Lemma step_outcome w i a :
  shown_and_stored (fst (step w i a)) \/ display_kept a (fst (step w i a)).
Proof.
  destruct (displays i) eqn:Hi.
  - destruct i as [| |input|category| | | | | |pid|pid| |]; try discriminate.
    + rewrite handleSearch_step. cbv zeta.
      destruct (negb (JsString.truthy (trim input))); [right; apply display_kept_refl|].
      destruct (response_data (net_search w (trim input) 1)) as [data|];
        [|right; apply failed_kept; reflexivity].
      destruct (found_results data) as [|first rest];
        [right; apply failed_kept; reflexivity|].
      destruct (fetched_by_title _ _ _ _) as [[article|message] e];
        [|right; apply failed_kept; reflexivity].
      left. apply showStatus_shown, displayArticle_shown.
    + rewrite handleCategoryClick_step. cbv zeta. cbn [fst].
      destruct (fst (WikipediaService.fetchCategoryArticle category w no_effects))
        as [article|message].
      * left. apply showStatus_shown, displayArticle_shown.
      * right. apply failed_kept; reflexivity.
    + apply next_outcome.
    + unfold step. cbn. unfold openFavorite.
      destruct (find_loose pid (favorites a)) as [article|];
        [|right; apply display_kept_refl].
      left. apply showStatus_shown.
      exists article. split; [reflexivity|]. split; [|reflexivity].
      unfold stored. cbn. apply stored_after_insert.
    + rewrite tick_step.
      destruct (autoFetchTimer a && negb (isLoading a));
        [apply next_outcome|right; apply display_kept_refl].
  - right. split; [apply step_preserved, dispatch_currentArticle, Hi|].
    split.
    + apply step_preserved, dispatch_stored.
      destruct i; try discriminate; cbn; intros Hin; try exact Hin;
        (destruct Hin as [Heq|Hin]; [discriminate Heq|exact Hin]).
    + left. apply step_preserved, dispatch_view, Hi.
Qed.

Lemma step_consistent w i a :
  display_consistent a -> display_consistent (fst (step w i a)).
Proof.
  intros [Hstored Hview].
  destruct (step_outcome w i a)
    as [(article & Hcur & Hlast & Hshown)|(Hcur & Hlast & Hkept)].
  - split.
    + intros article' Hcur'. rewrite Hcur in Hcur'. injection Hcur' as <-. exact Hlast.
    + intros _. rewrite Hcur. discriminate.
  - split.
    + intros article Hcur'. rewrite Hlast. apply Hstored. rewrite <- Hcur. exact Hcur'.
    + intros Hshown. rewrite Hcur. apply Hview.
      destruct Hkept as [<-|[message Herror]]; [exact Hshown|congruence].
Qed.

(** X15.  Every intent either ends with an article on display that is also
    the stored last article, or leaves the article and the stored last
    article as they were, the view unchanged or turned into the error view.
    So no intent leaves the skeleton on display unless it was shown before,
    and through a whole session the article of the application is the
    stored last article and the article view is never shown without an
    article. *)
Theorem displayed_article_is_stored (w : World) (i : Intent) (a : App) :
  (shown_and_stored (fst (step w i a)) \/ display_kept a (fst (step w i a)))
  /\ (view (fst (step w i a)) = Loading -> view a = Loading)
  /\ (display_consistent a -> forall script, display_consistent (run script a)).
Proof.
  split; [apply step_outcome|]. split.
  - intros Hloading.
    destruct (step_outcome w i a) as [(article & _ & _ & Hshown)|(_ & _ & Hkept)];
      [congruence|].
    destruct Hkept as [<-|[message Herror]]; [exact Hloading|congruence].
  - intros Hinv script. revert a Hinv.
    induction script as [|[w' i'] rest IH]; intros a Hinv; [exact Hinv|].
    cbn [run]. apply IH, step_consistent, Hinv.
Qed.

End DisplayAndStore.

(** ** Searches, the provider methods and opened favourites *)

Section SearchOutcomes.
Context `{Platform}.
Import UIController AppState CONFIG WikipediaService.

Lemma trimStart_idempotent s : trimStart (trimStart s) = trimStart s.
Proof.
  destruct (trimStart s) as [|c rest] eqn:E; [reflexivity|].
  apply trimStart_head_kept. exact (trimStart_head s c rest E).
Qed.

Lemma trimStart_suffix s : exists blank, s = blank ++ trimStart s.
Proof.
  induction s as [|c s [blank IH]]; [exists []; reflexivity|]. cbn.
  destruct (isWhiteSpace c); [|exists []; reflexivity].
  exists (c :: blank). cbn. f_equal. exact IH.
Qed.

Lemma trimEnd_prefix s : exists blank, s = trimEnd s ++ blank.
Proof.
  unfold trimEnd. destruct (trimStart_suffix (rev s)) as [blank Hrev].
  exists (rev blank). rewrite <- rev_app_distr, <- Hrev, rev_involutive. reflexivity.
Qed.

Lemma trimStart_trimEnd s : trimStart s = s -> trimStart (trimEnd s) = trimEnd s.
Proof.
  intros Hs. destruct (trimEnd_prefix s) as [blank Hprefix].
  destruct (trimEnd s) as [|c rest]; [reflexivity|].
  apply trimStart_head_kept. apply (trimStart_head s c (rest ++ blank)).
  rewrite Hs. exact Hprefix.
Qed.

Lemma trim_idempotent s : trim (trim s) = trim s.
Proof.
  unfold trim. rewrite (trimStart_trimEnd (trimStart s)) by apply trimStart_idempotent.
  unfold trimEnd. rewrite rev_involutive, trimStart_idempotent. reflexivity.
Qed.

(** The closed form of a search with a query and a first result. *)
Lemma handleSearch_first_result w input a data first rest :
  trim input <> [] ->
  response_data (net_search w (trim input) 1) = Some data ->
  found_results data = first :: rest ->
  step w (SearchSubmit input) a
  = match fetched_by_title (lit "Failed to fetch article") (sr_title first) w
            {| draws := 0; requests := [GetSearch (trim input) 1] |} with
    | (Return article, e) =>
        (showStatus (lit "Found article: " ++ dquote ++ title article ++ dquote) SevInfo
           (displayArticle article
              (showStatus (lit "Searching Wikipedia...") SevInfo
                 (showSkeleton (clearCategorySelection a)))),
         requests e)
    | (Throw message, e) =>
        (showStatus (lit "Search failed - try another term") SevError
           (showError message
              (showStatus (lit "Searching Wikipedia...") SevInfo
                 (showSkeleton (clearCategorySelection a)))),
         requests e)
    end.
Proof.
  intros Hquery Hdata Hfound. rewrite handleSearch_step. cbv zeta.
  destruct (trim input) as [|c query]; [congruence|].
  cbn [JsString.truthy negb]. rewrite Hdata, Hfound. reflexivity.
Qed.

(** X16.  A search does not depend on the white space around its input.
    With a query left after trimming, a search that fails or finds nothing
    sends the one search request and shows its error.  Otherwise the title
    of the first result decides: if it holds a lone surrogate nothing more
    is sent and the search has failed; if not, the summary request for the
    encoded title is the second and last request, and the article built
    from its answer is displayed, stored as the last article and named in
    the status -- or, when there is no answer or no article can be built
    from it, the search has failed.  Every failure after the search request
    shows "Failed to fetch article"; a failed search leaves the article and
    the store as they were.  Either way the favourites are kept and no
    category is selected. *)
Theorem handleSearch_outcomes (input : jsstring) (w : World) (a : App) :
  trim input <> [] ->
  step w (SearchSubmit (trim input)) a = step w (SearchSubmit input) a
  /\ (response_data (net_search w (trim input) 1) = None ->
      snd (step w (SearchSubmit input) a) = [GetSearch (trim input) 1]
      /\ search_failed a (fst (step w (SearchSubmit input) a))
           (lit "Failed to search articles"))
  /\ (forall data,
        response_data (net_search w (trim input) 1) = Some data ->
        found_results data = [] ->
        snd (step w (SearchSubmit input) a) = [GetSearch (trim input) 1]
        /\ search_failed a (fst (step w (SearchSubmit input) a)) (lit "No results found"))
  /\ (forall data first rest,
        response_data (net_search w (trim input) 1) = Some data ->
        found_results data = first :: rest ->
        (isWellFormed (sr_title first) = false ->
         snd (step w (SearchSubmit input) a) = [GetSearch (trim input) 1]
         /\ search_failed a (fst (step w (SearchSubmit input) a))
              (lit "Failed to fetch article"))
        /\ (forall encoded,
              encodeURIComponent (sr_title first) = Some encoded ->
              snd (step w (SearchSubmit input) a)
              = [GetSearch (trim input) 1; GetSummary encoded]
              /\ (response_data (net_summary w encoded) = None ->
                  search_failed a (fst (step w (SearchSubmit input) a))
                    (lit "Failed to fetch article"))
              /\ (forall page,
                    response_data (net_summary w encoded) = Some page ->
                    (forall article,
                        normalizeArticleData page (clock w) = Return article ->
                        currentArticle (fst (step w (SearchSubmit input) a)) = Some article
                        /\ view (fst (step w (SearchSubmit input) a)) = Displaying
                        /\ status (fst (step w (SearchSubmit input) a))
                           = Some (lit "Found article: " ++ dquote ++ title article ++ dquote,
                                   SevInfo)
                        /\ stored STORAGE_KEYS.LAST_ARTICLE
                             (fst (step w (SearchSubmit input) a))
                           = Some (JSON_stringify (Article.to_json article)))
                    /\ (forall message,
                          normalizeArticleData page (clock w) = Throw message ->
                          search_failed a (fst (step w (SearchSubmit input) a))
                            (lit "Failed to fetch article")))))
  /\ favorites (fst (step w (SearchSubmit input) a)) = favorites a
  /\ selectedCategory (fst (step w (SearchSubmit input) a)) = None.
Proof.
  intros Hquery.
  split; [rewrite !handleSearch_step, trim_idempotent; reflexivity|].
  split.
  { intros Hdata. rewrite handleSearch_step. cbv zeta.
    destruct (trim input) as [|c query]; [congruence|].
    cbn [JsString.truthy negb]. rewrite Hdata. repeat split. }
  split.
  { intros data Hdata Hfound. rewrite handleSearch_step. cbv zeta.
    destruct (trim input) as [|c query]; [congruence|].
    cbn [JsString.truthy negb]. rewrite Hdata, Hfound. repeat split. }
  split.
  { intros data first rest Hdata Hfound.
    rewrite (handleSearch_first_result w input a data first rest Hquery Hdata Hfound).
    unfold fetched_by_title, sent. cbn [requests draws].
    split.
    - intros Hill. apply encodeURIComponent_URIError in Hill. rewrite Hill. repeat split.
    - intros encoded ->. split.
      + destruct (response_data (net_summary w encoded)) as [page|]; [|reflexivity].
        destruct (normalizeArticleData page (clock w)); reflexivity.
      + split.
        * intros ->. repeat split.
        * intros page ->. split.
          -- intros article ->. cbn [masked fst].
             split; [reflexivity|]. split; [reflexivity|]. split; [reflexivity|].
             unfold stored. cbn. apply stored_after_insert.
          -- intros message ->. repeat split. }
  rewrite handleSearch_step. cbv zeta.
  destruct (trim input) as [|c query]; [congruence|].
  cbn [JsString.truthy negb].
  destruct (response_data (net_search w (c :: query) 1)) as [data|]; [|split; reflexivity].
  destruct (found_results data) as [|first rest]; [split; reflexivity|].
  destruct (fetched_by_title _ _ _ _) as [[article|message] e]; split; reflexivity.
Qed.

(** X17.  The provider methods.  [fetchRandomArticle] and
    [searchArticles] send exactly one request; [fetchArticleByTitle] sends
    its one request unless the title holds a lone surrogate, in which case
    it fails before sending anything.  A method answers what is built from
    the data of a response that arrived -- for a search the results, and
    the empty list when the answer has no [query.search] -- and every
    failure leaves under the fixed message of the method.  A category
    fetch draws once or twice and sends the search and at most one summary
    request; an article it returns is the one built from the answer to
    its second request, and a failure leaves under its one fixed message:
    neither the message of an empty search nor an error of reading the
    chosen result ever leaves it. *)
Theorem service_methods (w : World) (e : Effects) (query : value) (limit : Z)
    (name category : jsstring) :
  (snd (WikipediaService.fetchRandomArticle w e) = sent e GetRandomSummary
   /\ (response_data (net_random_summary w) = None ->
       fst (WikipediaService.fetchRandomArticle w e)
       = Throw (lit "Failed to fetch random article"))
   /\ (forall data,
         response_data (net_random_summary w) = Some data ->
         fst (WikipediaService.fetchRandomArticle w e)
         = masked (lit "Failed to fetch random article")
             (normalizeArticleData data (clock w))))
  /\ ((isWellFormed name = false ->
       fetchArticleByTitle name w e = (Throw (lit "Failed to fetch article"), e))
      /\ (forall encoded,
            encodeURIComponent name = Some encoded ->
            snd (fetchArticleByTitle name w e) = sent e (GetSummary encoded)
            /\ (response_data (net_summary w encoded) = None ->
                fst (fetchArticleByTitle name w e) = Throw (lit "Failed to fetch article"))
            /\ (forall data,
                  response_data (net_summary w encoded) = Some data ->
                  fst (fetchArticleByTitle name w e)
                  = masked (lit "Failed to fetch article")
                      (normalizeArticleData data (clock w)))))
  /\ (snd (searchArticles query limit w e) = sent e (GetSearch (ToString query) limit)
      /\ (response_data (net_search w (ToString query) limit) = None ->
          fst (searchArticles query limit w e) = Throw (lit "Failed to search articles"))
      /\ (response_data (net_search w (ToString query) limit) = Some None ->
          fst (searchArticles query limit w e) = Return [])
      /\ (forall results,
            response_data (net_search w (ToString query) limit) = Some (Some results) ->
            fst (searchArticles query limit w e) = Return results))
  /\ ((1 <= draws (snd (fetchCategoryArticle category w no_effects)) <= 2)%nat
      /\ (1 <= length (requests (snd (fetchCategoryArticle category w no_effects))) <= 2)%nat
      /\ (forall message,
            fst (fetchCategoryArticle category w no_effects) = Throw message ->
            message = lit "Failed to fetch category article")
      /\ (forall article,
            fst (fetchCategoryArticle category w no_effects) = Return article ->
            exists keyword encoded page,
              requests (snd (fetchCategoryArticle category w no_effects))
              = [GetSearch keyword 20; GetSummary encoded]
              /\ response_data (net_summary w encoded) = Some page
              /\ normalizeArticleData page (clock w) = Return article)).
Proof.
  split; [|split; [|split]].
  - rewrite fetchRandomArticle_run. cbn [fst snd]. split; [reflexivity|].
    split; [intros ->; reflexivity|intros data ->; reflexivity].
  - rewrite fetchArticleByTitle_run. unfold fetched_by_title. split.
    + intros Hill. apply encodeURIComponent_URIError in Hill. rewrite Hill. reflexivity.
    + intros encoded ->. cbn [fst snd]. split; [reflexivity|].
      split; [intros ->; reflexivity|intros data ->; reflexivity].
  - rewrite searchArticles_run. cbn [fst snd]. split; [reflexivity|].
    split; [intros ->; reflexivity|]. split; [intros ->; reflexivity|].
    intros results ->. reflexivity.
  - rewrite fetchCategoryArticle_run. cbv zeta.
    set (keyword := property_index _ _). unfold after_keyword, fetched_by_title, sent.
    destruct (response_data (net_search w (ToString keyword) 20)) as [data|];
      [|cbn; repeat split; try lia; [intros message [= <-]; reflexivity|discriminate]].
    destruct (found_results data) as [|first rest];
      [cbn; repeat split; try lia; [intros message [= <-]; reflexivity|discriminate]|].
    destruct (nth_error (first :: rest) _) as [chosen|];
      [|cbn; repeat split; try lia; [intros message [= <-]; reflexivity|discriminate]].
    destruct (encodeURIComponent (sr_title chosen)) as [encoded|];
      [|cbn; repeat split; try lia; [intros message [= <-]; reflexivity|discriminate]].
    cbn [fst snd draws requests app].
    split; [lia|]. split; [cbn; lia|].
    destruct (response_data (net_summary w encoded)) as [page|] eqn:Hpage;
      [|split; [intros message [= <-]; reflexivity|discriminate]].
    destruct (normalizeArticleData page (clock w)) as [built|failure] eqn:Hbuilt; cbn [masked].
    + split; [discriminate|]. intros article [= <-].
      exists (ToString keyword), encoded, page. repeat split; assumption.
    + split; [intros message [= <-]; reflexivity|discriminate].
Qed.

End SearchOutcomes.

Section OpenedFavorite.
Context `{Platform}.
Import UIController AppState CONFIG Lifecycle.

(** X18.  An opened favourite is shown as saved, with its [savedAt], and
    is the stored last article.  When no page is saved twice, the
    favourite button then takes exactly that favourite off the list, and
    the button shows "Save". *)
Theorem openFavorite_then_toggle (pid : value) (now : jsstring) (a : App) (article : Article) :
  find_loose pid (favorites a) = Some article ->
  unique_pageIds (favorites a) ->
  currentArticle (openFavorite pid a) = Some article
  /\ stored STORAGE_KEYS.LAST_ARTICLE (openFavorite pid a)
     = Some (JSON_stringify (Article.to_json article))
  /\ isFavorited (openFavorite pid a) = Some true
  /\ Permutation (article :: favorites (toggleFavorite now (openFavorite pid a))) (favorites a)
  /\ isFavorited (toggleFavorite now (openFavorite pid a)) = Some false.
Proof.
  intros Hfind Huniq.
  assert (Hopen : openFavorite pid a
                  = showStatus (lit "Opened: " ++ dquote ++ title article ++ dquote) SevInfo
                      (closeFavoritesModal (displayArticle article a)))
    by (unfold openFavorite; rewrite Hfind; reflexivity).
  assert (Hcur : currentArticle (openFavorite pid a) = Some article)
    by (rewrite Hopen; reflexivity).
  assert (Hfavs : favorites (openFavorite pid a) = favorites a)
    by apply openFavorite_favorites.
  apply find_loose_Some in Hfind as (before & after & Hsplit & _ & _).
  assert (Hin : In (pageId article) (List.map pageId (favorites a))).
  { rewrite Hsplit, List.map_app, in_app_iff. right. left. reflexivity. }
  split; [exact Hcur|].
  split; [rewrite Hopen; unfold stored; cbn; apply stored_after_insert|].
  assert (Hsaved : isFavorited (openFavorite pid a) = Some true).
  { unfold isFavorited. rewrite Hcur, Hfavs. f_equal. apply existsb_pageId, Hin. }
  split; [exact Hsaved|].
  destruct (toggleFavorite_favorites now (openFavorite pid a) article Hcur)
    as [(before' & fav & after' & Hsplit' & Hid & Hnot & Hnew)|[Hnot _]];
    [|rewrite Hfavs in Hnot; contradiction].
  rewrite Hfavs in Hsplit'.
  assert (fav = article) as ->.
  { unfold unique_pageIds in Huniq.
    assert (Hfav : In fav (favorites a))
      by (rewrite Hsplit'; apply in_elt).
    assert (Hart : In article (favorites a))
      by (rewrite Hsplit; apply in_elt).
    clear - Huniq Hfav Hart Hid.
    induction (favorites a) as [|x l IH]; [contradiction|].
    cbn in Huniq. inversion Huniq as [|? ? Hx Hl]; subst.
    destruct Hfav as [->|Hfav], Hart as [->|Hart]; auto.
    - exfalso. apply Hx. rewrite Hid. apply in_map, Hart.
    - exfalso. apply Hx. rewrite <- Hid. apply in_map, Hfav. }
  split.
  - rewrite Hnew, Hsplit'. apply Permutation_middle.
  - unfold isFavorited. rewrite toggleFavorite_currentArticle, Hcur, Hnew. f_equal.
    apply existsb_pageId_false.
    unfold unique_pageIds in Huniq. rewrite Hsplit', List.map_app in Huniq.
    cbn [List.map] in Huniq. apply List.NoDup_remove_2 in Huniq.
    rewrite List.map_app. exact Huniq.
Qed.

End OpenedFavorite.

Section FavoritesDialog.
Context `{Platform}.
Import UIController AppState CONFIG Lifecycle.

Lemma toggleFavoritesModal_visible a :
  favoritesModalVisible (toggleFavoritesModal a) = negb (favoritesModalVisible a).
Proof.
  unfold toggleFavoritesModal, renderFavoritesList. cbn.
  destruct (favorites a); cbn; destruct (favoritesModalVisible a); reflexivity.
Qed.

Lemma toggleFavoritesModal_perm a :
  Permutation (favorites (toggleFavoritesModal a)) (favorites a).
Proof.
  unfold toggleFavoritesModal.
  match goal with |- context [if ?b then _ else _] => destruct b end; cbn;
    apply (renderFavoritesList_perm (set_favoritesModalVisible _ a)).
Qed.

Lemma dispatch_favoritesModalVisible i :
  match i with
  | FavoritesToggleClick | ModalCloseClick | OpenFavoriteClick _ => False
  | _ => True
  end ->
  ui_preserves favoritesModalVisible (dispatch i).
Proof. intros Hi. destruct i; try contradiction; frame_intent; by_cases_of_update. Qed.

(** X19.  The favourites dialog.  Its button flips the dialog between open
    and closed; two clicks give back the dialog as it was, with the same
    favourites in some order and an untouched store (the sorting of the
    list is not saved).  The close control closes the dialog; the opening
    of a favourite closes it when a favourite matches and leaves it as it
    is when none does; every other intent leaves the dialog as it is.  So
    the dialog is open after an intent only if it was open before or the
    intent was a click of its button. *)
Theorem favorites_dialog (w : World) (i : Intent) (a : App) :
  favoritesModalVisible (toggleFavoritesModal a) = negb (favoritesModalVisible a)
  /\ favoritesModalVisible (toggleFavoritesModal (toggleFavoritesModal a))
     = favoritesModalVisible a
  /\ Permutation (favorites (toggleFavoritesModal (toggleFavoritesModal a))) (favorites a)
  /\ localStorage (toggleFavoritesModal a) = localStorage a
  /\ favoritesModalVisible (fst (step w FavoritesToggleClick a))
     = negb (favoritesModalVisible a)
  /\ favoritesModalVisible (fst (step w ModalCloseClick a)) = false
  /\ (forall pid,
        (find_loose pid (favorites a) <> None ->
         favoritesModalVisible (fst (step w (OpenFavoriteClick pid) a)) = false)
        /\ (find_loose pid (favorites a) = None ->
            favoritesModalVisible (fst (step w (OpenFavoriteClick pid) a))
            = favoritesModalVisible a))
  /\ (match i with
      | FavoritesToggleClick | ModalCloseClick | OpenFavoriteClick _ => False
      | _ => True
      end ->
      favoritesModalVisible (fst (step w i a)) = favoritesModalVisible a)
  /\ (favoritesModalVisible (fst (step w i a)) = true ->
      favoritesModalVisible a = true \/ i = FavoritesToggleClick).
Proof.
  assert (Hopen : forall pid,
             (find_loose pid (favorites a) <> None ->
              favoritesModalVisible (fst (step w (OpenFavoriteClick pid) a)) = false)
             /\ (find_loose pid (favorites a) = None ->
                 favoritesModalVisible (fst (step w (OpenFavoriteClick pid) a))
                 = favoritesModalVisible a)).
  { intros pid. unfold step. cbn. unfold openFavorite.
    destruct (find_loose pid (favorites a)); split; try reflexivity; congruence. }
  split; [apply toggleFavoritesModal_visible|].
  split; [rewrite !toggleFavoritesModal_visible; apply Bool.negb_involutive|].
  split; [rewrite !toggleFavoritesModal_perm; reflexivity|].
  split.
  { unfold toggleFavoritesModal, renderFavoritesList. cbn.
    destruct (favorites a); cbn; destruct (negb (favoritesModalVisible a)); reflexivity. }
  split; [unfold step; cbn; apply toggleFavoritesModal_visible|].
  split; [reflexivity|]. split; [exact Hopen|].
  split; [intros Hi; apply step_preserved, dispatch_favoritesModalVisible, Hi|].
  intros Hvisible.
  destruct i as [| |input|category| | | | | |pid|pid| |];
    try (left; rewrite <- Hvisible; symmetry;
         apply step_preserved, dispatch_favoritesModalVisible; exact I).
  - right. reflexivity.
  - discriminate Hvisible.
  - left. destruct (find_loose pid (favorites a)) eqn:Hfind.
    + rewrite (proj1 (Hopen pid)) in Hvisible by congruence. discriminate.
    + rewrite <- Hvisible. symmetry. apply Hopen, Hfind.
Qed.

End FavoritesDialog.

(** * The further properties at concrete inputs *)

Module ConcreteFurther.
Import UIController WikipediaService AppState CONFIG Lifecycle Spec Sample.
Import Concrete.

Definition other : Article := favorite (VNumber 123) "Other" "2024-02-01T00:00:00.000Z".

(** A favourite that the provider sent without a page id. *)
Definition nameless : Article := favorite VUndefined "Nameless" "2024-03-01T00:00:00.000Z".

Lemma loadVisitCount_increments_witness :
  - 2 ^ 53 < storedVisitCount ∅ < 2 ^ 53 - 1
  /\ fst (loadVisitCount ∅) = 1
  /\ fst (loadVisitCount (snd (loadVisitCount ∅))) = 2.
Proof.
  assert (- 2 ^ 53 < storedVisitCount ∅ < 2 ^ 53 - 1) as Hrange by (vm_compute; split; reflexivity).
  split; [exact Hrange|].
  destruct (loadVisitCount_increments ∅ Hrange) as (Hfirst & _ & Hsecond & _).
  split; [exact Hfirst|]. rewrite Hsecond, Hfirst. reflexivity.
Defined.

Lemma toggleFavorite_flips_witness :
  currentArticle two_favorites = Some seven
  /\ unique_pageIds (favorites two_favorites)
  /\ isFavorited (@toggleFavorite P (lit "2024-06-01T00:00:00.000Z") two_favorites)
     = option_map negb (isFavorited two_favorites).
Proof.
  split; [reflexivity|]. split; [exact two_favorites_unique|].
  exact (proj1 (@toggleFavorite_flips P (lit "2024-06-01T00:00:00.000Z") two_favorites seven
                  eq_refl two_favorites_unique)).
Defined.

Lemma favorite_buttons_witness :
  Z.abs 123 < 10 ^ 21
  /\ pageId other = VNumber 123
  /\ In other (favorites two_favorites)
  /\ loose_eq (pageId other) (button_argument other) = true.
Proof.
  assert (Z.abs 123 < 10 ^ 21) as Hrange by reflexivity.
  assert (In other (favorites two_favorites)) as Hin by (right; left; reflexivity).
  split; [exact Hrange|]. split; [reflexivity|]. split; [exact Hin|].
  exact (proj1 (@favorite_buttons P 123 other two_favorites Hrange eq_refl Hin)).
Defined.

Lemma favorite_buttons_miss_witness :
  match pageId nameless with VNumber _ | VString _ => False | _ => True end
  /\ In nameless (favorites (app_with None [nameless]))
  /\ In nameless
       (favorites (@removeFavorite P (button_argument nameless) (app_with None [nameless]))).
Proof.
  assert (In nameless (favorites (app_with None [nameless]))) as Hin by (left; reflexivity).
  split; [exact I|]. split; [exact Hin|].
  exact (proj1 (proj2 (@favorite_buttons_miss P nameless (app_with None [nameless]) I Hin))).
Defined.

Lemma estimateWordCount_compose_witness :
  is_blank (lit " ")
  /\ lit " " <> []
  /\ estimateWordCount (lit "one two" ++ lit " " ++ lit "three")
     = estimateWordCount (lit "one two") + estimateWordCount (lit "three").
Proof.
  assert (is_blank (lit " ")) as Hblank by (repeat constructor).
  assert (lit " " <> []) as Hne by discriminate.
  split; [exact Hblank|]. split; [exact Hne|].
  exact (proj1 (estimateWordCount_compose (lit "one two") (lit "three") (lit " ") Hblank Hne)).
Defined.

Lemma handleSearch_outcomes_witness :
  trim (lit " cats ") <> []
  /\ @step P (online twenty_titles) (SearchSubmit (trim (lit " cats "))) two_favorites
     = @step P (online twenty_titles) (SearchSubmit (lit " cats ")) two_favorites.
Proof.
  assert (trim (lit " cats ") <> []) as Hquery by discriminate.
  split; [exact Hquery|].
  exact (proj1 (@handleSearch_outcomes P (lit " cats ") (online twenty_titles) two_favorites
                  Hquery)).
Defined.

Lemma openFavorite_then_toggle_witness :
  find_loose (VString (lit "123")) (favorites two_favorites) = Some other
  /\ unique_pageIds (favorites two_favorites)
  /\ isFavorited (@toggleFavorite P (lit "2024-06-01T00:00:00.000Z")
                    (@openFavorite P (VString (lit "123")) two_favorites))
     = Some false.
Proof.
  assert (find_loose (VString (lit "123")) (favorites two_favorites) = Some other) as Hfind
      by reflexivity.
  split; [exact Hfind|]. split; [exact two_favorites_unique|].
  exact (proj2 (proj2 (proj2 (proj2
           (@openFavorite_then_toggle P (VString (lit "123")) (lit "2024-06-01T00:00:00.000Z")
              two_favorites other Hfind two_favorites_unique))))).
Defined.

End ConcreteFurther.
